(** * go-isy, package isyns: the ISY node-server adapter

    A shallow embedding of the request decoder, the address namespacer,
    the credential guard, the request hand-off and the reporting client
    of package [isyns] (server.go and request.go), with the properties
    the specification states about them. Part I models the functions of
    the Go library the package calls, Part II the package itself, in its
    two revisions, and Part III states and proves the properties.

    Go strings are byte strings and are modelled as [string]; Go's [int]
    is modelled as [Z] with its range written out where it matters
    ([strconv.Atoi]); Go maps are [gmap]s, with the order of a [range]
    over a map left to the runtime. *)

From Stdlib Require Import ZArith Ascii String List Lia Permutation.
From stdpp Require Import gmap strings list fin_maps.

Local Open Scope Z_scope.

(* ===================================================================== *)
(** * Part I: the Go library functions the package calls *)
(* ===================================================================== *)

(** ** Slices of strings: [s[lo:]] and [s[lo:hi]] *)

Module gostring.

(** [s[n:]]; the callers below only use it with [n <= len(s)]. *)
Fixpoint slice_from (s : string) (n : nat) {struct n} : string :=
  match n, s with
  | O, _ => s
  | S n', String _ s' => slice_from s' n'
  | S _, EmptyString => EmptyString
  end.

(** [s[:n]] *)
Fixpoint slice_to (s : string) (n : nat) {struct n} : string :=
  match n, s with
  | O, _ => EmptyString
  | S n', String c s' => String c (slice_to s' n')
  | S _, EmptyString => EmptyString
  end.

(** [s[lo:hi]] *)
Definition slice (s : string) (lo hi : nat) : string :=
  slice_to (slice_from s lo) (hi - lo).

(** The pieces of [s] between the occurrences of the byte [sep]. *)
Fixpoint split_on (sep : ascii) (s : string) : list string :=
  match s with
  | EmptyString => [EmptyString]
  | String c s' =>
      if Ascii.eqb c sep then EmptyString :: split_on sep s'
      else match split_on sep s' with
           | [] => [String c EmptyString]
           | p :: ps => String c p :: ps
           end
  end.

(** [strings.Cut(s, sep)] for a one-byte separator: the text before the
    first [sep], and the text after it when there is one. *)
Fixpoint cut (sep : ascii) (s : string) : string * option string :=
  match s with
  | EmptyString => (EmptyString, None)
  | String c s' =>
      if Ascii.eqb c sep then (EmptyString, Some s')
      else let '(b, a) := cut sep s' in (String c b, a)
  end.

(** The strings of [parts] with the byte [sep] between them. *)
Fixpoint join (sep : ascii) (parts : list string) : string :=
  match parts with
  | [] => EmptyString
  | [p] => p
  | p :: ps => String.append p (String sep (join sep ps))
  end.

Fixpoint contains_byte (c : ascii) (s : string) : bool :=
  match s with
  | EmptyString => false
  | String d s' => Ascii.eqb d c || contains_byte c s'
  end.

End gostring.

(** ** Package strings *)

Module strings.

(** [strings.HasPrefix(s, prefix)] *)
Fixpoint HasPrefix (s prefix : string) {struct prefix} : bool :=
  match prefix, s with
  | EmptyString, _ => true
  | String p prefix', String c s' => Ascii.eqb c p && HasPrefix s' prefix'
  | String _ _, EmptyString => false
  end.

Fixpoint index_from (i : nat) (s substr : string) : Z :=
  if HasPrefix s substr then Z.of_nat i
  else match s with
       | EmptyString => -1
       | String _ s' => index_from (S i) s' substr
       end.

(** [strings.Index(s, substr)]: the index of the first instance of
    [substr] in [s], or -1. *)
Definition Index (s substr : string) : Z := index_from 0 s substr.

End strings.

(** ** Package strconv *)

Module strconv.

(** The width of Go's [int]: 64 bits on the platforms the package runs on. *)
Definition intSize : Z := 64.

Definition digit_of (c : ascii) : option Z :=
  let n := Z.of_nat (nat_of_ascii c) in
  if (48 <=? n) && (n <=? 57) then Some (n - 48) else None.

(** The value of a string of decimal digits, most significant first. *)
Fixpoint digits_value (acc : Z) (s : string) : option Z :=
  match s with
  | EmptyString => Some acc
  | String c s' =>
      match digit_of c with
      | Some d => digits_value (acc * 10 + d) s'
      | None => None
      end
  end.

Definition in_int_range (n : Z) : bool :=
  (- 2 ^ (intSize - 1) <=? n) && (n <=? 2 ^ (intSize - 1) - 1).

(** [strconv.Atoi(s)]: an optional sign, then one or more decimal
    digits, the value within the range of [int]. [None] is the
    [*NumError] (syntax or range). *)
Definition Atoi (s : string) : option Z :=
  let '(neg, body) :=
    match s with
    | String "-" s' => (true, s')
    | String "+" s' => (false, s')
    | _ => (false, s)
    end in
  match body with
  | EmptyString => None
  | _ =>
      match digits_value 0 body with
      | Some v =>
          let n := if neg then - v else v in
          if in_int_range n then Some n else None
      | None => None
      end
  end.

(** [strconv.Itoa] on naturals: the decimal digits, by repeated division. *)
Fixpoint utoa_fuel (fuel : nat) (n : Z) (acc : string) : string :=
  match fuel with
  | O => acc
  | S fuel' =>
      let acc' := String (ascii_of_nat (Z.to_nat (48 + n mod 10))) acc in
      if n <? 10 then acc' else utoa_fuel fuel' (n / 10) acc'
  end.

Definition utoa (n : Z) : string :=
  utoa_fuel (S (Z.to_nat (Z.log2 n))) n EmptyString.

(** [strconv.Itoa] *)
Definition Itoa (n : Z) : string :=
  if n <? 0 then String "-" (utoa (- n)) else utoa n.

End strconv.

(** ** Package fmt *)

Module fmt.

Fixpoint zeros (n : nat) : string :=
  match n with
  | O => EmptyString
  | S n' => String "0" (zeros n')
  end.

(** The verb [%03d]: the digits padded with zeros to width 3, the sign
    counted in the width. *)
Definition pad03d (n : Z) : string :=
  let digits := strconv.utoa (Z.abs n) in
  let width := if n <? 0 then 2%nat else 3%nat in
  let padded := String.append (zeros (width - String.length digits)) digits in
  if n <? 0 then String "-" padded else padded.

End fmt.

(** ** Package net/url: query strings *)

Module url.

(** [url.URL], the fields the package reads and writes. *)
Record URL := { Scheme : string; Host : string; Path : string; RawQuery : string }.

(** [url.Values]: [map[string][]string]. *)
Abbreviation Values := (gmap string (list string)).

(** [v.Get(key)]: the first value of [key], or the empty string. *)
Definition Get (v : Values) (key : string) : string :=
  match v !! key with
  | Some (x :: _) => x
  | _ => EmptyString
  end.

Definition unhex (c : ascii) : option nat :=
  let n := nat_of_ascii c in
  if (48 <=? n)%nat && (n <=? 57)%nat then Some (n - 48)%nat
  else if (97 <=? n)%nat && (n <=? 102)%nat then Some (n - 97 + 10)%nat
  else if (65 <=? n)%nat && (n <=? 70)%nat then Some (n - 65 + 10)%nat
  else None.

(** [url.QueryUnescape]: [%XX] is the byte XX, [+] is a space; a [%]
    that is not followed by two hex digits is an error. *)
Fixpoint QueryUnescape (s : string) : option string :=
  match s with
  | EmptyString => Some EmptyString
  | String "%" (String h (String l rest)) =>
      match unhex h, unhex l with
      | Some a, Some b =>
          String (ascii_of_nat (16 * a + b)) <$> QueryUnescape rest
      | _, _ => None
      end
  | String "%" _ => None
  | String "+" rest => String " " <$> QueryUnescape rest
  | String c rest => String c <$> QueryUnescape rest
  end.

(** One turn of the loop of [url.parseQuery]: a piece between two [&].
    A piece that holds a semicolon, is empty or does not unescape adds
    nothing; otherwise [m[key] = append(m[key], value)]. *)
Definition parse_pair (m : Values) (piece : string) : Values :=
  if gostring.contains_byte ";" piece then m
  else match piece with
  | EmptyString => m
  | _ =>
      let '(k, v) := gostring.cut "=" piece in
      match QueryUnescape k, QueryUnescape (default EmptyString v) with
      | Some key, Some value => <[key := default [] (m !! key) ++ [value]]> m
      | _, _ => m
      end
  end.

(** [url.ParseQuery] as [URL.Query] uses it: the error is dropped. *)
Definition ParseQuery (query : string) : Values :=
  foldl parse_pair ∅ (gostring.split_on "&" query).

(** [u.Query()] *)
Definition Query (u : URL) : Values := ParseQuery (RawQuery u).

(** [v.Set(key, value)]: [v[key] = []string{value}] *)
Definition Set_ (v : Values) (key value : string) : Values := <[key := [value]]> v.

(** [u.RawQuery = q] *)
Definition with_RawQuery (u : URL) (q : string) : URL :=
  {| Scheme := Scheme u; Host := Host u; Path := Path u; RawQuery := q |}.

End url.

(** ** Package crypto/subtle *)

Module subtle.

Definition byte_xor (a b : Byte.byte) : N := N.lxor (Byte.to_N a) (Byte.to_N b).

Fixpoint xor_acc (v : N) (x y : list Byte.byte) : N :=
  match x, y with
  | a :: x', b :: y' => xor_acc (N.lor v (byte_xor a b)) x' y'
  | _, _ => v
  end.

(** [subtle.ConstantTimeCompare(x, y)]: 1 when the slices have the same
    length and contents, 0 otherwise. *)
Definition ConstantTimeCompare (x y : list Byte.byte) : Z :=
  if negb (Nat.eqb (length x) (length y)) then 0
  else if N.eqb (xor_acc 0%N x y) 0%N then 1 else 0.

End subtle.

(** ** Package gorilla/mux: path templates *)

Module mux.

(** A template is a path whose segments are literal or a variable
    [{name}]; a variable matches [[^/]+], one non-empty segment. *)
Inductive segment :=
| lit (s : string)
| var (name : string).

Definition is_var (seg : string) : option string :=
  match seg with
  | String "{" rest =>
      let n := String.length rest in
      if String.eqb (gostring.slice_from rest (n - 1)) "}"
      then Some (gostring.slice_to rest (n - 1)) else None
  | _ => None
  end.

Definition parse_segment (seg : string) : segment :=
  match is_var seg with
  | Some name => var name
  | None => lit seg
  end.

Record Route := { tpl : string; name : string }.

(** [router.Path(tpl).Name(name)] *)
Definition Path (tpl name : string) : Route := {| tpl := tpl; name := name |}.

Fixpoint match_segments (t : list segment) (p : list string)
    (vars : gmap string string) : option (gmap string string) :=
  match t, p with
  | [], [] => Some vars
  | lit s :: t', x :: p' =>
      if String.eqb s x then match_segments t' p' vars else None
  | var n :: t', x :: p' =>
      match x with
      | EmptyString => None
      | _ => match_segments t' p' (<[n := x]> vars)
      end
  | _, _ => None
  end.

(** The route as the router keeps it: the template compiled to the
    pattern [^tpl$], here its segments, and the name. *)
Definition compile (r : Route) : list segment * string :=
  (parse_segment <$> gostring.split_on "/" (tpl r), name r).

Record RouteMatch := { Route_name : string; Vars : gmap string string }.

(** The first route whose pattern matches the segments of the path. *)
Fixpoint Match_compiled (routes : list (list segment * string)) (p : list string)
  : option RouteMatch :=
  match routes with
  | [] => None
  | (t, n) :: rs =>
      match match_segments t p ∅ with
      | Some vars => Some {| Route_name := n; Vars := vars |}
      | None => Match_compiled rs p
      end
  end.

(** [router.Match], on the request's path. *)
Definition Match (routes : list Route) (path : string) : option RouteMatch :=
  Match_compiled (compile <$> routes) (gostring.split_on "/" path).

(** [match.Vars[key]]: the empty string for a key that is not there. *)
Definition Var (m : RouteMatch) (key : string) : string :=
  default EmptyString (Vars m !! key).

End mux.

(** ** Package net/http: what a handler sees of a request, and a client
       of a call *)

Module http.

(** An inbound request: [BasicAuth] is the result of [r.BasicAuth()],
    [None] when the Authorization header is missing or is not well-formed
    Basic credentials. *)
Record Request := {
  Method : string;
  URL : url.URL;
  BasicAuth : option (string * string)
}.

Definition StatusNoContent : Z := 204.

(** A response as the client reads it. *)
Record Response := { StatusCode : Z; Status : string }.

(** An outbound request as [http.NewRequest] and [SetBasicAuth] build it. *)
Record ClientRequest := {
  cMethod : string;
  cURL : url.URL;
  cAuth : option (string * string)
}.

(** What [Client.Do] returns: a response and no error, or an error,
    with a nil response unless the failure came up while following a
    redirect. *)
Inductive DoResult :=
| Responded (resp : Response)
| Failed (resp : option Response) (err : string).

(** The pair [resp, err] of a result. *)
Definition resp_err (d : DoResult) : option Response * option string :=
  match d with
  | Responded resp => (Some resp, None)
  | Failed resp err => (resp, Some err)
  end.

Definition SetBasicAuth (r : ClientRequest) (username password : string) : ClientRequest :=
  {| cMethod := cMethod r; cURL := cURL r; cAuth := Some (username, password) |}.

End http.

(** ** Package isy: what package isyns uses of it *)

Module isy.

(** Modelled from the spec: the declaration of [isy.UOM] is in a file of
    package [isy] that this development does not have; the specification
    calls it an integer code, and server.go converts an [int] to it. *)
Definition UOM : Type := Z.

Record ClientConfig := { BaseURL : string; Username : string; Password : string }.

End isy.

(** Go's [error] values, by their message. *)
Abbreviation error := string (only parsing).

(** ** What the package takes from its environment

    The functions of the Go library that are left abstract, the constant
    [isy.UOMUnknown], declared with [isy.UOM], and the answers of the
    network. *)

Record Env := {
  (** [isy.UOMUnknown], the unit of a parameter that names none *)
  UOMUnknown : isy.UOM;
  (** [sha256.Sum256([]byte(s))] *)
  Sum256 : string -> list Byte.byte;
  (** the order in which [range] visits the entries of a map: any order,
      each entry once *)
  range_order : url.Values -> list (string * list string);
  range_order_perm : forall m, range_order m ≡ₚ map_to_list m;
  (** [url.Parse] *)
  url_Parse : string -> url.URL + error;
  (** [base.ResolveReference(ref)] *)
  ResolveReference : url.URL -> url.URL -> url.URL;
  (** [u.String()] *)
  URL_String : url.URL -> string;
  (** [url.PathEscape] *)
  PathEscape : string -> string;
  (** [path.Join] *)
  path_Join : list string -> string;
  (** [v.Encode()] *)
  Values_Encode : url.Values -> string;
  (** [http.DefaultClient.Do(req)]: what the network answers *)
  Do : http.ClientRequest -> http.DoResult
}.

(* ===================================================================== *)
(** * Part II: package isyns *)
(* ===================================================================== *)

Module isyns.

(** A channel, by the capacity it was made with. *)
Record chan := { chan_cap : nat }.

(** [make(chan Request)] *)
Definition make_chan : chan := {| chan_cap := 0 |}.

(** ** The reporting client *)

Record nsClient := {
  BaseURL : url.URL;
  AddrPrefix : string;
  Username : string;
  Password : string
}.

Record Server := {
  Requests : chan;
  rawReqs : chan;
  client : nsClient;
  username : string;
  passwordSHA256 : list Byte.byte;
  addrPrefix : string
}.

Record Config := { ListenAddr : string; cfgUsername : string; cfgPassword : string }.

(** ** request.go *)

Record request := { id : string; server : Server }.

(** Modelled from the spec: the declaration of [CommandParam] is in a
    file of the package that this development does not have; server.go
    builds it with the fields [Value] and [UOM], and the specification
    gives it a textual value and a unit of measure. *)
Record CommandParam := { Value : string; UOM : isy.UOM }.

(** [nil] maps and pointers are [None]. *)
Inductive Request :=
| InstallRequest (r : request)
| NodeQueryRequest (r : request) (NodeAddr : string)
| NodeStatusValuesRequest (r : request) (NodeAddr : string)
| AddAllNodesRequest (r : request)
| AddNodeRequest (r : request) (NodeAddr NodeDefID PrimaryAddr Name : string)
| RemoveNodeRequest (r : request) (NodeAddr : string)
| RenameNodeRequest (r : request) (NodeAddr Name : string)
| EnableNodeRequest (r : request) (NodeAddr : string) (Enabled : bool)
| CommandRequest (r : request) (NodeAddr Command : string)
    (Param : option CommandParam) (Params : option (gmap string CommandParam)).

Definition requestSigil (q : Request) : request :=
  match q with
  | InstallRequest r | NodeQueryRequest r _ | NodeStatusValuesRequest r _
  | AddAllNodesRequest r | AddNodeRequest r _ _ _ _ | RemoveNodeRequest r _
  | RenameNodeRequest r _ _ | EnableNodeRequest r _ _ | CommandRequest r _ _ _ _ => r
  end.

Definition ID (q : Request) : string := id (requestSigil q).

(** ** Outbound calls: what a call did on the network and how it ended *)

Inductive outcome (A : Type) :=
| Returns (a : A)
| Panics.
Arguments Returns {A} a.
Arguments Panics {A}.

(** The requests handed to [http.DefaultClient.Do], in order, and the
    outcome. *)
Definition run (A : Type) : Type := list http.ClientRequest * outcome A.

Definition ret {A} (a : A) : run A := ([], Returns a).

Definition bind {A B} (m : run A) (k : A -> run B) : run B :=
  match m with
  | (calls, Returns a) => let '(calls', o) := k a in (calls ++ calls', o)
  | (calls, Panics) => (calls, Panics)
  end.

Notation "x <- m ;; k" := (bind m (fun x => k))
  (at level 100, m at next level, right associativity).

Section WithEnv.
Variable E : Env.

(** ** server.go: the reporting client *)

(** [http.NewRequest("GET", urlStr, nil)] *)
Definition NewRequest (method urlStr : string) : http.ClientRequest + error :=
  match url_Parse E urlStr with
  | inl u => inl {| http.cMethod := method; http.cURL := u; http.cAuth := None |}
  | inr err => inr err
  end.

Definition nsClient_Request (c : nsClient) (u : url.URL) : run (option error) :=
  let u := ResolveReference E (BaseURL c) u in
  match NewRequest "GET" (URL_String E u) with
  | inr err => ret (Some err)
  | inl req =>
      let req := http.SetBasicAuth req (Username c) (Password c) in
      let '(resp, err) := http.resp_err (Do E req) in
      (* log.Printf("%s %s -> %d %s", ..., resp.StatusCode, resp.Status) *)
      match resp with
      | None => ([req], Panics)
      | Some resp =>
          match err with
          | Some err => ([req], Returns (Some err))
          | None =>
              if 400 <=? http.StatusCode resp
              then ([req], Returns (Some (http.Status resp)))
              else ([req], Returns None)
          end
      end
  end.

Definition MakeURL (c : nsClient) (parts : list string) : run url.URL :=
  let parts := PathEscape E <$> parts in
  let rel := path_Join E parts in
  match url_Parse E rel with
  | inl relURL => ret (ResolveReference E (BaseURL c) relURL)
  | inr _ => ([], Panics)  (* relURL is nil *)
  end.

Definition FormatAddr (c : nsClient) (base : string) : string :=
  AddrPrefix c +:+ base.

Definition ParseAddr (c : nsClient) (given : string) : string :=
  if negb (strings.HasPrefix given (AddrPrefix c)) then given
  else gostring.slice_from given (String.length (AddrPrefix c)).

Definition ReportRequestStatus (c : nsClient) (id : string) (success : bool)
  : run (option error) :=
  u <- (if success then MakeURL c ["report"; "status"; id; "success"]
        else MakeURL c ["report"; "status"; id; "fail"]) ;;
  nsClient_Request c u.

Definition nsClient_AddNode (c : nsClient) (addr defId primaryAddr name : string)
  : run (option error) :=
  let addr := FormatAddr c addr in
  let primaryAddr :=
    if negb (String.eqb primaryAddr "") then FormatAddr c primaryAddr
    else primaryAddr in
  u <- MakeURL c ["nodes"; addr; "add"; defId] ;;
  let qs := url.Query u in
  let qs := if negb (String.eqb primaryAddr "") then url.Set_ qs "primary" primaryAddr else qs in
  let qs := if negb (String.eqb name "") then url.Set_ qs "name" name else qs in
  let u := url.with_RawQuery u (Values_Encode E qs) in
  nsClient_Request c u.

(** [Server.AddNode] *)
Definition AddNode (s : Server) (addr defId primaryAddr name : string) : run (option error) :=
  nsClient_AddNode (client s) addr defId primaryAddr name.

(** [request.Complete] *)
Definition Complete (r : request) (success : bool) : run (option error) :=
  if String.eqb (id r) "" then ret None
  else ReportRequestStatus (client (server r)) (id r) success.

(** ** server.go: the server *)

(** The routes of [init], in the order they are registered. *)
Definition router : list mux.Route := [
  mux.Path "/ns/install/{profileNum}" "install";
  mux.Path "/ns/nodes/{nodeAddr}/query" "nodeQuery";
  mux.Path "/ns/nodes/{nodeAddr}/status" "nodeStatus";
  mux.Path "/ns/add/nodes" "addAllNodes";
  mux.Path "/ns/nodes/{nodeAddr}/report/add/{nodeDefId}" "addNode";
  mux.Path "/ns/nodes/{nodeAddr}/report/remove" "removeNode";
  mux.Path "/ns/nodes/{nodeAddr}/report/rename" "renameNode";
  mux.Path "/ns/nodes/{nodeAddr}/report/enable" "enableNode";
  mux.Path "/ns/nodes/{nodeAddr}/report/disable" "disableNode";
  mux.Path "/ns/nodes/{nodeAddr}/cmd/{command}" "nodeCommand";
  mux.Path "/ns/nodes/{nodeAddr}/cmd/{command}/{value}" "nodeCommandValue";
  mux.Path "/ns/nodes/{nodeAddr}/cmd/{command}/{value}/{unit}" "nodeCommandValueUnit"
].

Definition NewServer (config : Config) (profileNum : Z) (isyConfig : isy.ClientConfig)
  : outcome (Server + error) :=
  let relPath := path_Join E ["rest"; "ns"; strconv.Itoa profileNum] +:+ "/" in
  match url_Parse E relPath with
  | inr _ => Panics
  | inl relURL =>
      match url_Parse E (isy.BaseURL isyConfig) with
      | inr err => Returns (inr ("invalid ISY base URL: " +:+ err))
      | inl baseURL =>
          let rawReqs := make_chan in
          let addrPrefix := "n" +:+ fmt.pad03d profileNum +:+ "_" in
          Returns (inl {|
            Requests := rawReqs;
            rawReqs := rawReqs;
            client := {| BaseURL := ResolveReference E baseURL relURL;
                         AddrPrefix := addrPrefix;
                         Username := isy.Username isyConfig;
                         Password := isy.Password isyConfig |};
            username := cfgUsername config;
            passwordSHA256 := Sum256 E (cfgPassword config);
            addrPrefix := addrPrefix |})
      end
  end.

Definition formatAddr (s : Server) (base : string) : string :=
  addrPrefix s +:+ base.

Definition parseAddr (s : Server) (given : string) : string :=
  if negb (strings.HasPrefix given (addrPrefix s)) then given
  else gostring.slice_from given (String.length (addrPrefix s)).

Definition makeCommonReq (s : Server) (r : http.Request) : request :=
  let rid := url.Get (url.Query (http.URL r)) "requestId" in
  {| id := rid; server := s |}.

(** The name and the unit a query key stands for. *)
Definition param_of_key (k : string) : string * isy.UOM :=
  let splitPos := strings.Index k ".uom" in
  if negb (splitPos =? -1) then
    let namePrefix := gostring.slice k 0 (Z.to_nat splitPos) in
    let uomStr := gostring.slice_from k (Z.to_nat (splitPos + 4)) in
    match strconv.Atoi uomStr with
    | None => (k, UOMUnknown E)
    | Some unit => (namePrefix, unit)
    end
  else (k, UOMUnknown E).

(** One turn of the loop of [makeCommandParams]. *)
Definition makeCommandParams_step (ret : option (gmap string CommandParam))
    (kv : string * list string) : option (gmap string CommandParam) :=
  let '(k, vs) := kv in
  if String.eqb k "requestId" then ret
  else match vs with
  | [] => ret
  | v0 :: _ =>
      let '(name, uom) := param_of_key k in
      Some (<[name := {| Value := v0; UOM := uom |}]> (default ∅ ret))
  end.

(** The loop of [makeCommandParams] over the entries in the order the
    [range] visits them. *)
Definition makeCommandParams_loop (kvs : list (string * list string))
  : option (gmap string CommandParam) :=
  foldl makeCommandParams_step None kvs.

Definition makeCommandParams (s : Server) (r : http.Request)
  : option (gmap string CommandParam) :=
  makeCommandParams_loop (range_order E (url.Query (http.URL r))).

(** What a handler does, in order: answers on its connection and sends
    on a channel. *)
Inductive Effect :=
| http_Error (msg : string) (code : Z)
| WriteHeader (statusCode : Z)
| Send (c : chan) (req : Request).

(** The [switch] of [handler]: the request a matched route decodes to,
    [None] when [req] stays nil. *)
Definition decode (s : Server) (r : http.Request) (m : mux.RouteMatch) : option Request :=
  let name := mux.Route_name m in
  let q := url.Query (http.URL r) in
  if String.eqb name "install" then
    Some (InstallRequest (makeCommonReq s r))
  else if String.eqb name "nodeQuery" then
    Some (NodeQueryRequest (makeCommonReq s r) (parseAddr s (mux.Var m "nodeAddr")))
  else if String.eqb name "nodeStatus" then
    Some (NodeStatusValuesRequest (makeCommonReq s r) (parseAddr s (mux.Var m "nodeAddr")))
  else if String.eqb name "addAllNodes" then
    Some (AddAllNodesRequest (makeCommonReq s r))
  else if String.eqb name "addNode" then
    Some (AddNodeRequest (makeCommonReq s r)
            (parseAddr s (mux.Var m "nodeAddr"))
            (mux.Var m "nodeDefId")
            (parseAddr s (url.Get q "primary"))
            (url.Get q "name"))
  else if String.eqb name "removeNode" then
    Some (RemoveNodeRequest (makeCommonReq s r) (parseAddr s (mux.Var m "nodeAddr")))
  else if String.eqb name "renameNode" then
    Some (RenameNodeRequest (makeCommonReq s r)
            (parseAddr s (mux.Var m "nodeAddr")) (url.Get q "name"))
  else if String.eqb name "enableNode" then
    Some (EnableNodeRequest (makeCommonReq s r) (parseAddr s (mux.Var m "nodeAddr")) true)
  else if String.eqb name "disableNode" then
    Some (EnableNodeRequest (makeCommonReq s r) (parseAddr s (mux.Var m "nodeAddr")) false)
  else if String.eqb name "nodeCommand" then
    Some (CommandRequest (makeCommonReq s r)
            (parseAddr s (mux.Var m "nodeAddr")) (mux.Var m "command")
            None (makeCommandParams s r))
  else if String.eqb name "nodeCommandValue" then
    Some (CommandRequest (makeCommonReq s r)
            (parseAddr s (mux.Var m "nodeAddr")) (mux.Var m "command")
            (Some {| Value := mux.Var m "value"; UOM := 0 (* not set *) |})
            (makeCommandParams s r))
  else if String.eqb name "nodeCommandValueUnit" then
    match strconv.Atoi (mux.Var m "unit") with
    | None => None (* ignore invalid request *)
    | Some unit =>
        Some (CommandRequest (makeCommonReq s r)
                (parseAddr s (mux.Var m "nodeAddr")) (mux.Var m "command")
                (Some {| Value := mux.Var m "value"; UOM := unit |})
                (makeCommandParams s r))
    end
  else None.

Definition handler (s : Server) (r : http.Request) : list Effect :=
  match http.BasicAuth r with
  | None => [http_Error "Unauthorized" 401]
  | Some (username', password) =>
      if negb (String.eqb username' (username s)) then
        [http_Error "Unauthorized" 401]
      else if negb (subtle.ConstantTimeCompare (Sum256 E password) (passwordSHA256 s) =? 1) then
        [http_Error "Unauthorized" 401]
      else
        match mux.Match router (url.Path (http.URL r)) with
        | None => [http_Error "Not Found" 404]
        | Some m =>
            match decode s r m with
            | None => [http_Error "Not Found" 404]
            | Some req => [WriteHeader http.StatusNoContent; Send (rawReqs s) req]
            end
        end
  end.

End WithEnv.

End isyns.

(** ** The earlier revision of server.go

    The file isyns/server.go holds an earlier revision of the server: no
    address prefix, routes without the leading [/ns], and a client whose
    [Request] does not log. What differs is modelled here; the rest is
    shared with [isyns]. *)

Module server_go.
Import isyns.

Definition router : list mux.Route := [
  mux.Path "/install/{profileNum}" "install";
  mux.Path "/nodes/{nodeAddr}/query" "nodeQuery";
  mux.Path "/nodes/{nodeAddr}/status" "nodeStatus";
  mux.Path "/add/nodes" "addAllNodes";
  mux.Path "/nodes/{nodeAddr}/report/add/{nodeDefId}" "addNode";
  mux.Path "/nodes/{nodeAddr}/report/remove" "removeNode";
  mux.Path "/nodes/{nodeAddr}/report/rename" "renameNode";
  mux.Path "/nodes/{nodeAddr}/report/enable" "enableNode";
  mux.Path "/nodes/{nodeAddr}/report/disable" "disableNode";
  mux.Path "/nodes/{nodeAddr}/cmd/{command}" "nodeCommand";
  mux.Path "/nodes/{nodeAddr}/cmd/{command}/{value}" "nodeCommandValue";
  mux.Path "/nodes/{nodeAddr}/cmd/{command}/{value}/{unit}" "nodeCommandValueUnit"
].

Section WithEnv.
Variable E : Env.

Definition nsClient_Request (c : nsClient) (u : url.URL) : run (option error) :=
  let u := ResolveReference E (BaseURL c) u in
  match NewRequest E "GET" (URL_String E u) with
  | inr err => ret (Some err)
  | inl req =>
      let req := http.SetBasicAuth req (Username c) (Password c) in
      let '(resp, err) := http.resp_err (Do E req) in
      match err with
      | Some err => ([req], Returns (Some err))
      | None =>
          match resp with
          | None => ([req], Panics)
          | Some resp =>
              if 400 <=? http.StatusCode resp
              then ([req], Returns (Some (http.Status resp)))
              else ([req], Returns None)
          end
      end
  end.

Definition decode (s : Server) (r : http.Request) (m : mux.RouteMatch) : option Request :=
  let name := mux.Route_name m in
  let q := url.Query (http.URL r) in
  if String.eqb name "install" then
    Some (InstallRequest (makeCommonReq s r))
  else if String.eqb name "nodeQuery" then
    Some (NodeQueryRequest (makeCommonReq s r) (mux.Var m "nodeAddr"))
  else if String.eqb name "nodeStatus" then
    Some (NodeStatusValuesRequest (makeCommonReq s r) (mux.Var m "nodeAddr"))
  else if String.eqb name "addAllNodes" then
    Some (AddAllNodesRequest (makeCommonReq s r))
  else if String.eqb name "addNode" then
    Some (AddNodeRequest (makeCommonReq s r)
            (mux.Var m "nodeAddr") (mux.Var m "nodeDefId")
            (url.Get q "primary") (url.Get q "name"))
  else if String.eqb name "removeNode" then
    Some (RemoveNodeRequest (makeCommonReq s r) (mux.Var m "nodeAddr"))
  else if String.eqb name "renameNode" then
    Some (RenameNodeRequest (makeCommonReq s r) (mux.Var m "nodeAddr") (url.Get q "name"))
  else if String.eqb name "enableNode" then
    Some (EnableNodeRequest (makeCommonReq s r) (mux.Var m "nodeAddr") true)
  else if String.eqb name "disableNode" then
    Some (EnableNodeRequest (makeCommonReq s r) (mux.Var m "nodeAddr") false)
  else if String.eqb name "nodeCommand" then
    Some (CommandRequest (makeCommonReq s r)
            (mux.Var m "nodeAddr") (mux.Var m "command")
            None (makeCommandParams E s r))
  else if String.eqb name "nodeCommandValue" then
    Some (CommandRequest (makeCommonReq s r)
            (mux.Var m "nodeAddr") (mux.Var m "command")
            (Some {| Value := mux.Var m "value"; UOM := 0 |})
            (makeCommandParams E s r))
  else if String.eqb name "nodeCommandValueUnit" then
    match strconv.Atoi (mux.Var m "unit") with
    | None => None
    | Some unit =>
        Some (CommandRequest (makeCommonReq s r)
                (mux.Var m "nodeAddr") (mux.Var m "command")
                (Some {| Value := mux.Var m "value"; UOM := unit |})
                (makeCommandParams E s r))
    end
  else None.

Definition handler (s : Server) (r : http.Request) : list Effect :=
  match http.BasicAuth r with
  | None => [http_Error "Unauthorized" 401]
  | Some (username', password) =>
      if negb (String.eqb username' (username s)) then
        [http_Error "Unauthorized" 401]
      else if negb (subtle.ConstantTimeCompare (Sum256 E password) (passwordSHA256 s) =? 1) then
        [http_Error "Unauthorized" 401]
      else
        match mux.Match router (url.Path (http.URL r)) with
        | None => [http_Error "Not Found" 404]
        | Some m =>
            match decode s r m with
            | None => [http_Error "Not Found" 404]
            | Some req => [WriteHeader http.StatusNoContent; Send (rawReqs s) req]
            end
        end
  end.

End WithEnv.

End server_go.

(** ** The hand-off between the handlers and the consumers

    Each inbound connection is served by a goroutine of net/http that
    runs [handler] and, when the handler has returned, finishes the
    request; consumers receive from [s.Requests]. What a handler writes
    to its [http.ResponseWriter] is kept by net/http: [w.WriteHeader]
    records the status, and a body as short as the one of [http.Error]
    stays in the buffer of the response. The handler never flushes, so
    the response, status line first, leaves the server when net/http
    finishes the request, after the handler has returned. The steps of
    the channel are those of Go: a send completes into the buffer while
    the buffer has room, a receive takes the head of the buffer, and
    with an empty buffer a send and a receive complete together, the
    value passing from the sender to the receiver. Without room in the
    buffer and without a receiver a send does not complete: there is no
    step for it. *)

Module handoff.
Import isyns.

(** What is observed of an execution, in order: a handler calls its
    [http.ResponseWriter] ([Wrote]), a send completes into the buffer
    ([Queued]), a consumer receives from the buffer ([Dequeued]), a send
    and a receive complete together ([Handed]), and the response of a
    connection leaves the server for the controller ([Transmitted]). *)
Inductive Event :=
| Wrote (conn : nat) (e : Effect)
| Queued (conn : nat) (q : Request)
| Dequeued (conn consumer : nat) (q : Request)
| Handed (conn consumer : nat) (q : Request)
| Transmitted (conn : nat).

(** Per connection what its handler has still to do, the buffer of the
    channel, the connections whose request is finished, and the events
    so far. *)
Record state := {
  todo : list (list Effect);
  buf : list (nat * Request);
  finished : list nat;
  trace : list Event
}.

Definition is_answer (e : Effect) : bool :=
  match e with
  | Send _ _ => false
  | _ => true
  end.

Inductive step (ch : chan) : state -> state -> Prop :=
| step_answer st i e rest :
    todo st !! i = Some (e :: rest) ->
    is_answer e = true ->
    step ch st {| todo := <[i := rest]> (todo st);
                  buf := buf st;
                  finished := finished st;
                  trace := trace st ++ [Wrote i e] |}
| step_send_buffered st i q rest :
    todo st !! i = Some (Send ch q :: rest) ->
    (length (buf st) < chan_cap ch)%nat ->
    step ch st {| todo := <[i := rest]> (todo st);
                  buf := buf st ++ [(i, q)];
                  finished := finished st;
                  trace := trace st ++ [Queued i q] |}
| step_receive_buffered st i q b consumer :
    buf st = (i, q) :: b ->
    step ch st {| todo := todo st;
                  buf := b;
                  finished := finished st;
                  trace := trace st ++ [Dequeued i consumer q] |}
| step_rendezvous st i q rest consumer :
    todo st !! i = Some (Send ch q :: rest) ->
    buf st = [] ->
    step ch st {| todo := <[i := rest]> (todo st);
                  buf := [];
                  finished := finished st;
                  trace := trace st ++ [Handed i consumer q] |}
| step_return st i :
    (* the handler has returned: net/http finishes the request and
       writes the response out *)
    todo st !! i = Some [] ->
    i ∉ finished st ->
    step ch st {| todo := todo st;
                  buf := buf st;
                  finished := i :: finished st;
                  trace := trace st ++ [Transmitted i] |}.

(** The executions: any number of steps. *)
Inductive steps (ch : chan) : state -> state -> Prop :=
| steps_refl st : steps ch st st
| steps_snoc st st' st'' : steps ch st st' -> step ch st' st'' -> steps ch st st''.

(** One handler per inbound request, nothing answered or sent yet. *)
Definition init (E : Env) (s : Server) (rs : list http.Request) : state :=
  {| todo := handler E s <$> rs; buf := []; finished := []; trace := [] |}.

(** What the handler of connection [i] has done so far, read off the
    trace. *)
Definition done_by (ch : chan) (i : nat) (t : list Event) : list Effect :=
  omap (fun ev =>
          match ev with
          | Wrote j e => if Nat.eqb j i then Some e else None
          | Queued j q | Handed j _ q => if Nat.eqb j i then Some (Send ch q) else None
          | Dequeued _ _ _ | Transmitted _ => None
          end) t.

(** The consumers that received a request of connection [i], with the
    request. *)
Definition received_from (i : nat) (t : list Event) : list (nat * Request) :=
  omap (fun ev =>
          match ev with
          | Dequeued j c q | Handed j c q => if Nat.eqb j i then Some (c, q) else None
          | _ => None
          end) t.

(** The events of a send that completed without a receiver. *)
Definition is_buffered (ev : Event) : bool :=
  match ev with
  | Queued _ _ | Dequeued _ _ _ => true
  | _ => false
  end.

(** The events of an execution in which nothing goes through the
    buffer: answers, requests handed from sender to receiver, and
    responses leaving. *)
Definition direct (ev : Event) : bool :=
  match ev with
  | Wrote _ e => is_answer e
  | Handed _ _ _ | Transmitted _ => true
  | Queued _ _ | Dequeued _ _ _ => false
  end.

Definition consistent (E : Env) (s : Server) (rs : list http.Request) (st : state) : Prop :=
  buf st = [] /\
  Forall (fun ev => direct ev = true) (trace st) /\
  length (todo st) = length rs /\
  (forall i,
    (forall r, rs !! i = Some r ->
       exists td, todo st !! i = Some td /\
                  done_by (rawReqs s) i (trace st) ++ td = handler E s r) /\
    (rs !! i = None -> done_by (rawReqs s) i (trace st) = [])) /\
  (forall i, Transmitted i ∈ trace st -> i ∈ finished st) /\
  (forall t1 t2 i,
     trace st = t1 ++ Transmitted i :: t2 ->
     todo st !! i = Some [] /\ done_by (rawReqs s) i t2 = []).
End handoff.

(** ** The vocabulary of the properties *)

Module spec.
Import isyns.

(** The request carries the credentials the server is configured with:
    well-formed Basic credentials, the server's username, and a password
    whose digest is the stored one. *)
Definition credentials_match (E : Env) (s : Server) (r : http.Request) : Prop :=
  exists u p, http.BasicAuth r = Some (u, p) /\ u = username s /\
              Sum256 E p = passwordSHA256 s.

(** The requests an execution of the handler hands to the channel. *)
Definition handed_off (effs : list Effect) : list Request :=
  omap (fun e => match e with Send _ q => Some q | _ => None end) effs.

Definition unauthorized : list Effect := [http_Error "Unauthorized" 401].
Definition not_found : list Effect := [http_Error "Not Found" 404].

(** The names the routes of [init] are registered under. *)
Definition route_names : list string :=
  ["install"; "nodeQuery"; "nodeStatus"; "addAllNodes"; "addNode"; "removeNode";
   "renameNode"; "enableNode"; "disableNode"; "nodeCommand"; "nodeCommandValue";
   "nodeCommandValueUnit"].

(** What a template variable matches: one non-empty path segment. *)
Definition segment_ok (x : string) : Prop :=
  x <> "" /\ gostring.contains_byte "/" x = false.

(** The parameter one entry of the query contributes: none for the key
    [requestId] and for a key without values. *)
Definition entry_param (E : Env) (kv : string * list string)
  : option (string * CommandParam) :=
  if String.eqb kv.1 "requestId" then None
  else match kv.2 with
       | [] => None
       | v0 :: _ =>
           Some ((param_of_key E kv.1).1,
                 {| Value := v0; UOM := (param_of_key E kv.1).2 |})
       end.

(** The acknowledgement, then the hand-off of [req]. *)
Definition acknowledged (s : Server) (req : Request) : list Effect :=
  [WriteHeader 204; Send (rawReqs s) req].

End spec.

(** ** A small environment, for the examples

    The library functions that [Env] leaves abstract, in a simple form:
    a URL is its path, escaping changes nothing, and the digest of a
    string is its bytes. *)

Module example.

Definition parse (s : string) : url.URL + error :=
  inl {| url.Scheme := ""; url.Host := ""; url.Path := s; url.RawQuery := "" |}.

Definition resolve (base ref : url.URL) : url.URL :=
  {| url.Scheme := url.Scheme base; url.Host := url.Host base;
     url.Path := if strings.HasPrefix (url.Path ref) "/" then url.Path ref
                 else url.Path base +:+ url.Path ref;
     url.RawQuery := url.RawQuery ref |}.

Fixpoint join (parts : list string) : string :=
  match parts with
  | [] => ""
  | "" :: ps => join ps
  | p :: ps =>
      match join ps with
      | "" => p
      | rest => p +:+ "/" +:+ rest
      end
  end.

Definition ok : http.DoResult :=
  http.Responded {| http.StatusCode := 200; http.Status := "200 OK" |}.

Definition refused : http.DoResult :=
  http.Failed None "dial tcp: connection refused".

(** The environment in which a [range] visits a map in the order
    [order] and the network answers [answer] to every call. *)
Definition env_of (order : url.Values -> list (string * list string))
    (order_perm : forall m, order m ≡ₚ map_to_list m)
    (answer : http.DoResult) : Env := {|
  UOMUnknown := 0;
  Sum256 := String.list_byte_of_string;
  range_order := order;
  range_order_perm := order_perm;
  url_Parse := parse;
  ResolveReference := resolve;
  URL_String := url.Path;
  PathEscape := fun s => s;
  path_Join := join;
  Values_Encode := fun _ => "";
  Do := fun _ => answer
|}.

Definition env (answer : http.DoResult) : Env :=
  env_of map_to_list (fun m => Permutation_refl _) answer.

(** The same with the maps visited the other way round. *)
Definition env_reversed (answer : http.DoResult) : Env :=
  env_of (fun m => reverse (map_to_list m))
         (fun m => reverse_Permutation (map_to_list m)) answer.

Definition base : url.URL :=
  {| url.Scheme := ""; url.Host := ""; url.Path := "/rest/ns/1/"; url.RawQuery := "" |}.

Definition nsclient : isyns.nsClient :=
  {| isyns.BaseURL := base; isyns.AddrPrefix := "n001_";
     isyns.Username := "admin"; isyns.Password := "admin" |}.

Definition server : isyns.Server :=
  {| isyns.Requests := isyns.make_chan;
     isyns.rawReqs := isyns.make_chan;
     isyns.client := nsclient;
     isyns.username := "isy";
     isyns.passwordSHA256 := String.list_byte_of_string "secret";
     isyns.addrPrefix := "n001_" |}.

(** An inbound GET with the right credentials. *)
Definition get (path query : string) : http.Request :=
  {| http.Method := "GET";
     http.URL := {| url.Scheme := ""; url.Host := ""; url.Path := path; url.RawQuery := query |};
     http.BasicAuth := Some ("isy", "secret") |}.

(** A configuration, and the server [NewServer] makes of it for
    profile 1. *)
Definition config : isyns.Config :=
  {| isyns.ListenAddr := ":8080"; isyns.cfgUsername := "isy"; isyns.cfgPassword := "secret" |}.

Definition isy_config : isy.ClientConfig :=
  {| isy.BaseURL := "/"; isy.Username := "admin"; isy.Password := "admin" |}.

Definition new_server : isyns.Server :=
  {| isyns.Requests := isyns.make_chan;
     isyns.rawReqs := isyns.make_chan;
     isyns.client :=
       {| isyns.BaseURL :=
            resolve {| url.Scheme := ""; url.Host := ""; url.Path := "/";
                       url.RawQuery := "" |}
                    {| url.Scheme := ""; url.Host := ""; url.Path := "rest/ns/1/";
                       url.RawQuery := "" |};
          isyns.AddrPrefix := "n001_";
          isyns.Username := "admin"; isyns.Password := "admin" |};
     isyns.username := "isy";
     isyns.passwordSHA256 := String.list_byte_of_string "secret";
     isyns.addrPrefix := "n001_" |}.

(** The request [/ns/add/nodes] decodes to. *)
Definition add_all_nodes : isyns.Request :=
  isyns.AddAllNodesRequest {| isyns.id := "7"; isyns.server := new_server |}.

(** The request [/ns/nodes/n001_AA/query] decodes to. *)
Definition query_node : isyns.Request :=
  isyns.NodeQueryRequest {| isyns.id := ""; isyns.server := new_server |} "AA".

(** Two inbound calls, each on its connection. *)
Definition calls : list http.Request :=
  [get "/ns/add/nodes" "requestId=7"; get "/ns/nodes/n001_AA/query" ""].

(** Both handlers have called [WriteHeader] and wait at their sends: no
    consumer is receiving. *)
Definition waiting : handoff.state :=
  {| handoff.todo := [[isyns.Send isyns.make_chan add_all_nodes];
                      [isyns.Send isyns.make_chan query_node]];
     handoff.buf := [];
     handoff.finished := [];
     handoff.trace := [handoff.Wrote 0 (isyns.WriteHeader 204);
                       handoff.Wrote 1 (isyns.WriteHeader 204)] |}.

(** Consumer 0 has then received the request of connection 1 and the
    request of connection 0, and each response has left when its handler
    had returned. *)
Definition served : handoff.state :=
  {| handoff.todo := [[]; []];
     handoff.buf := [];
     handoff.finished := [0%nat; 1%nat];
     handoff.trace := [handoff.Wrote 0 (isyns.WriteHeader 204);
                       handoff.Wrote 1 (isyns.WriteHeader 204);
                       handoff.Handed 1 0 query_node;
                       handoff.Transmitted 1;
                       handoff.Handed 0 0 add_all_nodes;
                       handoff.Transmitted 0] |}.
End example.

(** ** More vocabulary *)

(** Patterns that no path matches both. *)

Module routes.
Import mux.

(** Two segments that no path segment matches both: different literals. *)
Definition seg_clash (a b : segment) : bool :=
  match a, b with
  | lit x, lit y => negb (String.eqb x y)
  | _, _ => false
  end.

(** Two patterns that no path matches both: of different lengths, or
    with different literals at some position. *)
Fixpoint exclusive (t1 t2 : list segment) : bool :=
  match t1, t2 with
  | [], [] => false
  | a :: t1', b :: t2' => seg_clash a b || exclusive t1' t2'
  | _, _ => true
  end.

(** Each route of the list against the ones after it. *)
Fixpoint pairwise_exclusive (rs : list (list segment * string)) : bool :=
  match rs with
  | [] => true
  | r :: rs' => forallb (fun r' => exclusive r.1 r'.1) rs' && pairwise_exclusive rs'
  end.

End routes.

Module decimal.

(** The sign and the digits of [%03d], read back. *)
Definition pad_value (s : string) : option Z :=
  match s with
  | String "-" d => Z.opp <$> strconv.digits_value 0 d
  | _ => strconv.digits_value 0 s
  end.

End decimal.

Module outbound.
Import isyns.
(** The calls of a run that was answered: one GET with the credentials
    of the client, to which the network responded, without an error,
    with a status below 400. *)
Definition answered (E : Env) (c : nsClient) (calls : list http.ClientRequest) : Prop :=
  exists req resp,
    calls = [req] /\ http.cMethod req = "GET" /\
    http.cAuth req = Some (Username c, Password c) /\
    Do E req = http.Responded resp /\ http.StatusCode resp < 400.
End outbound.

(* ===================================================================== *)
(** * Part IIb: package isy, the SOAP client *)
(* ===================================================================== *)

(** ** Package strings: Replace *)

Module strings_Replace.

(** [strings.Replace(s, old, new, 1)]: [s] with its first instance of
    [old] replaced by [new]; an empty [old] matches at the beginning. *)
Definition Replace_1 (s old new : string) : string :=
  let i := strings.Index s old in
  if i =? -1 then s
  else gostring.slice_to s (Z.to_nat i) +:+ new +:+
       gostring.slice_from s (Z.to_nat i + String.length old).

End strings_Replace.

(** ** Package reflect: what [getSOAPAction] reads of a type *)

Module reflect.

(** A field of a struct type: its name and [f.Tag.Get(key)], the value
    its tag gives for a key, empty when the tag has none. *)
Record StructField := { Name : string; Tag_Get : string -> string }.

(** A type, by its kind: a pointer with its element type, a struct with
    the fields that [FieldByName] looks through, or any other kind. *)
Inductive Type_ :=
| Ptr (Elem : Type_)
| Struct (fields : list StructField)
| Other.

(** [ty.FieldByName(name)] *)
Definition FieldByName (fields : list StructField) (name : string) : option StructField :=
  List.find (fun f => String.eqb (Name f) name) fields.

End reflect.

(** ** Package net/textproto: header keys *)

Module textproto.

Definition validHeaderFieldByte (c : ascii) : bool :=
  let n := nat_of_ascii c in
  ((48 <=? n) && (n <=? 57) || (65 <=? n) && (n <=? 90) || (97 <=? n) && (n <=? 122) ||
   existsb (Nat.eqb n) [33; 35; 36; 37; 38; 39; 42; 43; 45; 46; 94; 95; 96; 124; 126])%nat.

(** The first letter and every letter after a hyphen in upper case, the
    others in lower case. *)
Fixpoint canonical (upper : bool) (s : string) : string :=
  match s with
  | EmptyString => EmptyString
  | String c s' =>
      let n := nat_of_ascii c in
      let c' :=
        (if upper && (97 <=? n) && (n <=? 122) then ascii_of_nat (n - 32)
         else if negb upper && (65 <=? n) && (n <=? 90) then ascii_of_nat (n + 32)
         else c)%nat in
      String c' (canonical (Ascii.eqb c' "-") s')
  end.

Fixpoint all_valid (s : string) : bool :=
  match s with
  | EmptyString => true
  | String c s' => validHeaderFieldByte c && all_valid s'
  end.

(** [textproto.CanonicalMIMEHeaderKey]: a key with a byte that is not
    allowed in a header name is returned unchanged. *)
Definition CanonicalMIMEHeaderKey (s : string) : string :=
  if all_valid s then canonical true s else s.

End textproto.

(** ** Package isy: soap.go and client.go *)

Module isy_client.

(** The double quote, byte 34. *)
Definition dquote : ascii := ascii_of_nat 34.

(** [http.Header]: the values under each canonical key. *)
Abbreviation Header := (gmap string (list string)).

(** [h.Set(key, value)] *)
Definition Header_Set (h : Header) (key value : string) : Header :=
  <[textproto.CanonicalMIMEHeaderKey key := [value]]> h.

(** The request [formatRequest] builds. *)
Record Request := {
  Method : string;
  URL : url.URL;
  Header_ : Header;
  ContentLength : Z;
  Body : string;
  BasicAuth : option (string * string)
}.

(** A response: its status and what [ioutil.ReadAll(resp.Body)] returns,
    the bytes read and the error that ended the reading, if any. *)
Record Response := {
  StatusCode : Z;
  Status : string;
  ReadAll : string * option error
}.

Inductive DoResult :=
| Responded (resp : Response)
| Failed (err : error).

(** A token of [xml.Decoder.Token]: the start of an element, with the
    local name, or any other token. *)
Inductive Token :=
| StartElement (Local : string)
| OtherToken.

(** The type of [getAllD2DReq]. *)
Definition getAllD2DReq_type : reflect.Type_ :=
  reflect.Struct
    [{| reflect.Name := "XMLName";
        reflect.Tag_Get := fun key =>
          if String.eqb key "xml"
          then "urn:udi-com:service:X_Insteon_Lighting_Service:1 GetAllD2D"
          else "" |}].

(** What the client takes from its environment: the values that are
    passed as [interface{}] with their dynamic type and what
    [xml.MarshalIndent] makes of the SOAP envelope around them, the
    request value [getAllD2DReq{}] with its type, the answers of the network, and the
    XML decoder: the tokens it reads from a body up to the error that
    ends them ([None] is [io.EOF]), and the result of [DecodeElement]
    from the element that starts at a token. *)
Record Services := {
  Obj : Type;
  TypeOf : Obj -> option reflect.Type_;
  xml_MarshalIndent : Obj -> string + error;
  getAllD2DReq : Obj;
  getAllD2DReq_TypeOf : TypeOf getAllD2DReq = Some getAllD2DReq_type;
  Do : Request -> DoResult;
  xml_Tokens : string -> list Token * option error;
  xml_DecodeElement : string -> nat -> option error
}.

Record soapMessage := { Action : string; Body_ : string }.

Record client := { ServiceURL : string; Username : string; Password : string }.

(** [Function] is an empty struct. *)
Inductive Function := Function_.

(** The calls handed to [httpC.Do], in order, and the outcome. *)
Definition run (A : Type) : Type := list Request * isyns.outcome A.

Section WithServices.
Variable E : Env.
Variable W : Services.

(** [getSOAPAction]; [ty.Kind()] of the nil type of a nil [interface{}]
    panics. *)
Definition getSOAPAction (obj : Obj W) : isyns.outcome string :=
  match TypeOf W obj with
  | None => isyns.Panics
  | Some ty =>
      let ty := match ty with reflect.Ptr elem => elem | _ => ty end in
      match ty with
      | reflect.Struct fields =>
          match reflect.FieldByName fields "XMLName" with
          | None => isyns.Returns ""
          | Some nameField =>
              isyns.Returns
                (strings_Replace.Replace_1 (reflect.Tag_Get nameField "xml") " " "#")
          end
      | _ => isyns.Returns ""
      end
  end.

Definition formatSOAPEnvelope (obj : Obj W) : string + error :=
  xml_MarshalIndent W obj.

(** [makeSOAPMessage]: the message and the error; the body is nil when
    there is an error. *)
Definition makeSOAPMessage (obj : Obj W) : isyns.outcome (soapMessage * option error) :=
  match getSOAPAction obj with
  | isyns.Panics => isyns.Panics
  | isyns.Returns action =>
      match formatSOAPEnvelope obj with
      | inl body => isyns.Returns ({| Action := action; Body_ := body |}, None)
      | inr err => isyns.Returns ({| Action := action; Body_ := "" |}, Some err)
      end
  end.

(** [http.NewRequest("POST", urlStr, body)] *)
Definition NewRequest (method urlStr body : string) : Request + error :=
  match url_Parse E urlStr with
  | inl u => inl {| Method := method; URL := u; Header_ := ∅;
                    ContentLength := Z.of_nat (String.length body);
                    Body := body; BasicAuth := None |}
  | inr err => inr err
  end.

Definition formatRequest (c : client) (obj : Obj W) : isyns.outcome (Request + error) :=
  match makeSOAPMessage obj with
  | isyns.Panics => isyns.Panics
  | isyns.Returns (msg, Some err) => isyns.Returns (inr err)
  | isyns.Returns (msg, None) =>
      match NewRequest "POST" (ServiceURL c) (Body_ msg) with
      | inr err => isyns.Returns (inr err)
      | inl req =>
          let h := Header_Set (Header_ req) "Content-Type"
                     ("text/xml; charset=" +:+ String dquote ("utf-8" +:+ String dquote "")) in
          let len := Z.of_nat (String.length (Body_ msg)) in
          let auth := Some (Username c, Password c) in
          let h := Header_Set h "SOAPACTION" (Action msg) in
          let h := Header_Set h "User-Agent" "go-isy" in
          isyns.Returns (inl {| Method := Method req; URL := URL req; Header_ := h;
                                ContentLength := len; Body := Body req;
                                BasicAuth := auth |})
      end
  end.

(** [client.request]: the body or the error. *)
Definition request (c : client) (obj : Obj W) : run (string + error) :=
  match formatRequest c obj with
  | isyns.Panics => ([], isyns.Panics)
  | isyns.Returns (inr err) => ([], isyns.Returns (inr err))
  | isyns.Returns (inl req) =>
      match Do W req with
      | Failed err => ([req], isyns.Returns (inr err))
      | Responded resp =>
          if negb (StatusCode resp =? 200)
          then ([req], isyns.Returns (inr (Status resp)))
          else
            let '(body, _) := ReadAll resp in
            ([req], isyns.Returns (inl body))
      end
  end.

(** The loop of [GetAllFunctions]: the index of the first start of an
    element [triggers] among the tokens. *)
Fixpoint find_triggers (i : nat) (toks : list Token) : option nat :=
  match toks with
  | [] => None
  | StartElement name :: toks' =>
      if String.eqb name "triggers" then Some i else find_triggers (S i) toks'
  | OtherToken :: toks' => find_triggers (S i) toks'
  end.

(** [GetAllFunctions]: the functions, nil here as the empty list, and
    the error. *)
Definition GetAllFunctions (c : client) : run (list Function * option error) :=
  match request c (getAllD2DReq W) with
  | (calls, isyns.Panics) => (calls, isyns.Panics)
  | (calls, isyns.Returns (inr err)) => (calls, isyns.Returns ([], Some err))
  | (calls, isyns.Returns (inl body)) =>
      let '(toks, last) := xml_Tokens W body in
      match find_triggers 0 toks with
      | None =>
          match last with
          | Some err => (calls, isyns.Returns ([], Some err))
          | None =>
              (calls, isyns.Returns ([], Some "'triggers' element not found in response"))
          end
      | Some start =>
          match xml_DecodeElement W body start with
          | Some err => (calls, isyns.Returns ([], Some err))
          | None => (* spew.Dump(raw) *) (calls, isyns.Returns ([], None))
          end
      end
  end.

(** [servicePath], set by [init]: nil when [url.Parse] fails. *)
Definition servicePath : option url.URL :=
  match url_Parse E "./services" with
  | inl u => Some u
  | inr _ => None
  end.

(** [NewClient]; resolving against a nil [servicePath] panics. *)
Definition NewClient (config : isy.ClientConfig) : isyns.outcome (client + error) :=
  match url_Parse E (isy.BaseURL config) with
  | inr err => isyns.Returns (inr ("invalid base URL: " +:+ err))
  | inl urlObj =>
      match servicePath with
      | None => isyns.Panics
      | Some ref =>
          isyns.Returns (inl {| ServiceURL := URL_String E (ResolveReference E urlObj ref);
                                Username := isy.Username config;
                                Password := isy.Password config |})
      end
  end.

End WithServices.

End isy_client.

(** ** A small environment for the SOAP client, for the examples *)

Module isy_example.
Import isy_client.

(** The values of the example: a pointer to a [testSOAPMessage], as in
    the tests of the package, and a [getAllD2DReq]. *)
Inductive message := testSOAPMessage_ptr | getAllD2DReq_value.

Definition testSOAPMessage_type : reflect.Type_ :=
  reflect.Struct
    [{| reflect.Name := "XMLName";
        reflect.Tag_Get := fun key =>
          if String.eqb key "xml"
          then "urn:udi-com:service:X_Insteon_Lighting_Service:1 TestMessage"
          else "" |}].

Definition answer : Response :=
  {| StatusCode := 200; Status := "200 OK"; ReadAll := ("<triggers></triggers>", None) |}.

(** The services in which every call is answered with [answer]. *)
Definition services : Services := {|
  Obj := message;
  TypeOf := fun m =>
    match m with
    | testSOAPMessage_ptr => Some (reflect.Ptr testSOAPMessage_type)
    | getAllD2DReq_value => Some getAllD2DReq_type
    end;
  xml_MarshalIndent := fun m =>
    match m with
    | testSOAPMessage_ptr => inl "<Envelope><Body><TestMessage></TestMessage></Body></Envelope>"
    | getAllD2DReq_value => inl "<Envelope><Body><GetAllD2D></GetAllD2D></Body></Envelope>"
    end;
  getAllD2DReq := getAllD2DReq_value;
  getAllD2DReq_TypeOf := eq_refl;
  Do := fun _ => Responded answer;
  xml_Tokens := fun body =>
    if String.eqb body "<triggers></triggers>"
    then ([StartElement "triggers"; OtherToken], None)
    else ([], None);
  xml_DecodeElement := fun _ _ => None
|}.

Definition config : isy.ClientConfig :=
  {| isy.BaseURL := "/"; isy.Username := "test"; isy.Password := "test" |}.

Definition client_ : client :=
  {| ServiceURL := "/./services"; Username := "test"; Password := "test" |}.

(** The requests the client of the example makes of the two messages. *)
Definition request_of (action body : string) : Request :=
  {| Method := "POST";
     URL := {| url.Scheme := ""; url.Host := ""; url.Path := "/./services";
               url.RawQuery := "" |};
     Header_ :=
       <["User-Agent" := ["go-isy"]]>
         (<["Soapaction" := [action]]>
            (<["Content-Type" :=
                 ["text/xml; charset=" +:+ String dquote ("utf-8" +:+ String dquote "")]]> ∅));
     ContentLength := Z.of_nat (String.length body);
     Body := body;
     BasicAuth := Some ("test", "test") |}.

Definition test_request : Request :=
  request_of "urn:udi-com:service:X_Insteon_Lighting_Service:1#TestMessage"
             "<Envelope><Body><TestMessage></TestMessage></Body></Envelope>".

Definition get_all_request : Request :=
  request_of "urn:udi-com:service:X_Insteon_Lighting_Service:1#GetAllD2D"
             "<Envelope><Body><GetAllD2D></GetAllD2D></Body></Envelope>".

End isy_example.

(** ** Tactics *)

(** Replaces the templates of the router [R] by their segments. *)
Ltac compile_router R :=
  unfold mux.Match;
  let v := eval vm_compute in (mux.compile <$> R) in
  change (mux.compile <$> R) with v.

(* ===================================================================== *)
(** * Part III: properties *)
(* ===================================================================== *)

(** ** The library models on sample inputs *)

Example Atoi_51 : strconv.Atoi "51" = Some 51.
Proof. reflexivity. Qed.
Example Atoi_abc : strconv.Atoi "abc" = None.
Proof. reflexivity. Qed.
Example Atoi_neg : strconv.Atoi "-5" = Some (-5).
Proof. reflexivity. Qed.
Example Atoi_sign_only : strconv.Atoi "+" = None.
Proof. reflexivity. Qed.
Example Atoi_max : strconv.Atoi "9223372036854775807" = Some 9223372036854775807.
Proof. reflexivity. Qed.
Example Atoi_range : strconv.Atoi "9223372036854775808" = None.
Proof. reflexivity. Qed.
Example Atoi_min : strconv.Atoi "-9223372036854775808" = Some (-9223372036854775808).
Proof. reflexivity. Qed.
Example Index_uom : strings.Index "level.uom2" ".uom" = 5.
Proof. reflexivity. Qed.
Example Index_none : strings.Index "mode" ".uom" = -1.
Proof. reflexivity. Qed.
Example utoa_1 : strconv.utoa 1 = "1" /\ strconv.utoa 0 = "0" /\ strconv.utoa 1234 = "1234".
Proof. repeat split; reflexivity. Qed.
Example pad03d_samples :
  fmt.pad03d 1 = "001" /\ fmt.pad03d 42 = "042" /\ fmt.pad03d 1234 = "1234" /\
  fmt.pad03d (-1) = "-01" /\ strconv.Itoa (-17) = "-17".
Proof. repeat split; reflexivity. Qed.
Example ParseQuery_sample :
  url.ParseQuery "level.uom2=50&mode=auto&requestId=r1"
  = <["level.uom2" := ["50"]]> (<["mode" := ["auto"]]> (<["requestId" := ["r1"]]> ∅)).
Proof. vm_compute. reflexivity. Qed.
Example match_sample :
  mux.Match [mux.Path "/ns/nodes/{nodeAddr}/cmd/{command}" "nodeCommand"] "/ns/nodes/n001_AA/cmd/DON"
  = Some {| mux.Route_name := "nodeCommand";
            mux.Vars := <["command" := "DON"]> (<["nodeAddr" := "n001_AA"]> ∅) |}.
Proof. vm_compute. reflexivity. Qed.

(** ** Strings *)

Section StringFacts.

Lemma append_String (c : ascii) (p x : string) :
  String c p +:+ x = String c (p +:+ x).
Proof. reflexivity. Qed.

Lemma append_Empty (x : string) : "" +:+ x = x.
Proof. reflexivity. Qed.

Lemma HasPrefix_app (p x : string) : strings.HasPrefix (p +:+ x) p = true.
Proof.
  induction p as [|c p IH]; [reflexivity|].
  rewrite append_String. simpl. now rewrite Ascii.eqb_refl.
Qed.

Lemma slice_from_app (p x : string) :
  gostring.slice_from (p +:+ x) (String.length p) = x.
Proof.
  induction p as [|c p IH]; [reflexivity|].
  rewrite append_String. exact IH.
Qed.

Lemma slice_to_app (p x : string) :
  gostring.slice_to (p +:+ x) (String.length p) = p.
Proof.
  induction p as [|c p IH]; [reflexivity|].
  rewrite append_String. simpl. now rewrite IH.
Qed.

Lemma HasPrefix_split (s p : string) :
  strings.HasPrefix s p = true ->
  s = p +:+ gostring.slice_from s (String.length p).
Proof.
  revert s; induction p as [|c p IH]; intros s H.
  - reflexivity.
  - destruct s as [|d s]; [discriminate|].
    simpl in H. apply andb_true_iff in H as [Hc Hp].
    apply Ascii.eqb_eq in Hc; subst d.
    rewrite append_String. simpl. f_equal. now apply IH.
Qed.

(** [HasPrefix] decides "starts with". *)
Lemma HasPrefix_spec (s p : string) :
  strings.HasPrefix s p = true <-> exists rest, s = p +:+ rest.
Proof.
  split.
  - intros H. eexists. now apply HasPrefix_split.
  - intros [rest ->]. apply HasPrefix_app.
Qed.

End StringFacts.

(** ** The address namespacer *)

(** C6. Address round-trip: for every prefix (every server, every
    client) and every address [x], stripping the prefix from the
    prefixed address gives [x] back, both in the server's
    [formatAddr]/[parseAddr] and in the client's
    [FormatAddr]/[ParseAddr]. *)
Theorem address_round_trip :
  (forall (s : isyns.Server) (x : string),
      isyns.parseAddr s (isyns.formatAddr s x) = x) /\
  (forall (c : isyns.nsClient) (x : string),
      isyns.ParseAddr c (isyns.FormatAddr c x) = x).
Proof.
  split; intros ? x.
  - unfold isyns.parseAddr, isyns.formatAddr.
    rewrite HasPrefix_app. simpl. apply slice_from_app.
  - unfold isyns.ParseAddr, isyns.FormatAddr.
    rewrite HasPrefix_app. simpl. apply slice_from_app.
Qed.

(** C7. Fail-safe translation: when the given string does not start
    with the configured prefix, [parseAddr] (and the client's
    [ParseAddr]) returns it unchanged; there is no failure to return. *)
Theorem parse_addr_fail_safe (prefix given : string) :
  (forall rest, given <> prefix +:+ rest) ->
  (forall s : isyns.Server,
      isyns.addrPrefix s = prefix -> isyns.parseAddr s given = given) /\
  (forall c : isyns.nsClient,
      isyns.AddrPrefix c = prefix -> isyns.ParseAddr c given = given).
Proof.
  intros Habsent.
  assert (Hno : strings.HasPrefix given prefix = false).
  { destruct (strings.HasPrefix given prefix) eqn:Hp; [|reflexivity].
    apply HasPrefix_spec in Hp as [rest ->]. now destruct (Habsent rest). }
  split; intros ? <-.
  - unfold isyns.parseAddr. now rewrite Hno.
  - unfold isyns.ParseAddr. now rewrite Hno.
Qed.

Lemma parse_addr_fail_safe_witness :
  isyns.parseAddr example.server "AA" = "AA" /\
  isyns.ParseAddr example.nsclient "n01_AA" = "n01_AA".
Proof.
  split.
  - refine (proj1 (parse_addr_fail_safe "n001_" "AA" _) example.server eq_refl).
    intros rest H; discriminate H.
  - refine (proj2 (parse_addr_fail_safe "n001_" "n01_AA" _) example.nsclient eq_refl).
    intros rest H; discriminate H.
Defined.

(** ** The credential guard *)

Section CredentialGuard.

Lemma byte_xor_0 (a b : Byte.byte) : subtle.byte_xor a b = 0%N <-> a = b.
Proof.
  unfold subtle.byte_xor. split.
  - intros H. apply N.lxor_eq in H.
    assert (Some a = Some b) as [= ->]; [|reflexivity].
    now rewrite <- (Byte.of_to_N a), <- (Byte.of_to_N b), H.
  - intros ->. apply N.lxor_nilpotent.
Qed.

Lemma xor_acc_0 (x y : list Byte.byte) (v : N) :
  length x = length y ->
  subtle.xor_acc v x y = 0%N <-> v = 0%N /\ x = y.
Proof.
  revert y v; induction x as [|a x IH]; intros [|b y] v Hlen; try discriminate.
  - simpl. tauto.
  - simpl in *. injection Hlen as Hlen.
    rewrite (IH y _ Hlen), N.lor_eq_0_iff, byte_xor_0.
    split.
    + intros [[-> ->] ->]. auto.
    + intros [-> [= -> ->]]. auto.
Qed.

(** [ConstantTimeCompare] returns 1 exactly on equal slices. *)
Lemma ConstantTimeCompare_spec (x y : list Byte.byte) :
  subtle.ConstantTimeCompare x y = 1 <-> x = y.
Proof.
  unfold subtle.ConstantTimeCompare.
  destruct (Nat.eqb (length x) (length y)) eqn:Hlen; simpl.
  - apply Nat.eqb_eq in Hlen.
    destruct (N.eqb_spec (subtle.xor_acc 0 x y) 0%N) as [H0|H0].
    + apply xor_acc_0 in H0 as [_ ->]; tauto.
    + split; [discriminate|]. intros ->. destruct H0.
      now apply xor_acc_0.
  - apply Nat.eqb_neq in Hlen. split; [discriminate|].
    intros ->. now destruct Hlen.
Qed.

Variable E : Env.
Variable s : isyns.Server.
Variable r : http.Request.

(** Past the guard, the handler routes and decodes. *)
Lemma handler_authorized :
  spec.credentials_match E s r ->
  isyns.handler E s r =
    match mux.Match isyns.router (url.Path (http.URL r)) with
    | None => spec.not_found
    | Some m =>
        match isyns.decode E s r m with
        | None => spec.not_found
        | Some req => spec.acknowledged s req
        end
    end.
Proof.
  intros (u & p & Hauth & -> & Hpw).
  unfold isyns.handler. rewrite Hauth, String.eqb_refl. simpl.
  apply ConstantTimeCompare_spec in Hpw. now rewrite Hpw.
Qed.

Lemma handler_unauthorized :
  ~ spec.credentials_match E s r -> isyns.handler E s r = spec.unauthorized.
Proof.
  intros Hno. unfold isyns.handler.
  destruct (http.BasicAuth r) as [[u p]|] eqn:Hauth; [|reflexivity].
  destruct (String.eqb_spec u (isyns.username s)) as [->|Hu]; [|reflexivity].
  simpl.
  destruct (Z.eqb_spec (subtle.ConstantTimeCompare (Sum256 E p) (isyns.passwordSHA256 s)) 1)
    as [Hpw|Hpw]; [|reflexivity].
  destruct Hno. exists (isyns.username s), p.
  now apply ConstantTimeCompare_spec in Hpw.
Qed.

Lemma server_go_handler_authorized :
  spec.credentials_match E s r ->
  server_go.handler E s r =
    match mux.Match server_go.router (url.Path (http.URL r)) with
    | None => spec.not_found
    | Some m =>
        match server_go.decode E s r m with
        | None => spec.not_found
        | Some req => spec.acknowledged s req
        end
    end.
Proof.
  intros (u & p & Hauth & -> & Hpw).
  unfold server_go.handler. rewrite Hauth, String.eqb_refl. simpl.
  apply ConstantTimeCompare_spec in Hpw. now rewrite Hpw.
Qed.

Lemma server_go_handler_unauthorized :
  ~ spec.credentials_match E s r -> server_go.handler E s r = spec.unauthorized.
Proof.
  intros Hno. unfold server_go.handler.
  destruct (http.BasicAuth r) as [[u p]|] eqn:Hauth; [|reflexivity].
  destruct (String.eqb_spec u (isyns.username s)) as [->|Hu]; [|reflexivity].
  simpl.
  destruct (Z.eqb_spec (subtle.ConstantTimeCompare (Sum256 E p) (isyns.passwordSHA256 s)) 1)
    as [Hpw|Hpw]; [|reflexivity].
  destruct Hno. exists (isyns.username s), p.
  now apply ConstantTimeCompare_spec in Hpw.
Qed.

End CredentialGuard.

(** ** The route table *)

Section Routing.

Lemma split_on_single (sep : ascii) (a : string) :
  gostring.contains_byte sep a = false -> gostring.split_on sep a = [a].
Proof.
  induction a as [|c a IH]; simpl; [reflexivity|].
  intros H. apply orb_false_iff in H as [Hc Ha].
  rewrite Hc, (IH Ha). reflexivity.
Qed.

Lemma split_on_app (sep : ascii) (a rest : string) :
  gostring.contains_byte sep a = false ->
  gostring.split_on sep (a +:+ String sep rest) = a :: gostring.split_on sep rest.
Proof.
  induction a as [|c a IH]; intros H.
  - rewrite append_Empty. simpl. now rewrite Ascii.eqb_refl.
  - simpl in H. apply orb_false_iff in H as [Hc Ha].
    rewrite append_String. simpl. rewrite Hc, (IH Ha). reflexivity.
Qed.

Lemma split_on_join (sep : ascii) (parts : list string) :
  parts <> [] ->
  Forall (fun p => gostring.contains_byte sep p = false) parts ->
  gostring.split_on sep (gostring.join sep parts) = parts.
Proof.
  induction parts as [|p ps IH]; [easy|]. intros _ Hall.
  apply Forall_cons in Hall as [Hp Hps].
  destruct ps as [|p' ps].
  - simpl. now apply split_on_single.
  - change (gostring.join sep (p :: p' :: ps))
      with (p +:+ String sep (gostring.join sep (p' :: ps))).
    rewrite split_on_app by assumption. f_equal. now apply IH.
Qed.

Lemma Match_compiled_name routes p m :
  mux.Match_compiled routes p = Some m -> mux.Route_name m ∈ routes.*2.
Proof.
  induction routes as [|[t n] rs IH]; simpl; [discriminate|].
  destruct (mux.match_segments t p ∅).
  - intros [= <-]. simpl. left.
  - intros H. right. now apply IH.
Qed.

Lemma router_compiled_names : (mux.compile <$> isyns.router).*2 = spec.route_names.
Proof. vm_compute. reflexivity. Qed.

Lemma server_go_router_compiled_names :
  (mux.compile <$> server_go.router).*2 = spec.route_names.
Proof. vm_compute. reflexivity. Qed.

Lemma router_names path m :
  mux.Match isyns.router path = Some m -> mux.Route_name m ∈ spec.route_names.
Proof.
  unfold mux.Match. intros H. apply Match_compiled_name in H.
  now rewrite router_compiled_names in H.
Qed.

Lemma server_go_router_names path m :
  mux.Match server_go.router path = Some m -> mux.Route_name m ∈ spec.route_names.
Proof.
  unfold mux.Match. intros H. apply Match_compiled_name in H.
  now rewrite server_go_router_compiled_names in H.
Qed.

Lemma decode_None E s r m :
  mux.Route_name m ∈ spec.route_names ->
  isyns.decode E s r m = None ->
  mux.Route_name m = "nodeCommandValueUnit" /\ strconv.Atoi (mux.Var m "unit") = None.
Proof.
  intros Hn. unfold isyns.decode.
  repeat match goal with
  | |- context [String.eqb ?a ?b] =>
      destruct (String.eqb_spec a b) as [?|?]; [try discriminate|]
  end.
  - destruct (strconv.Atoi (mux.Var m "unit")); [discriminate|]. auto.
  - intros _. exfalso. unfold spec.route_names in Hn.
    repeat (apply elem_of_cons in Hn as [Hn|Hn]; [contradiction|]).
    now apply elem_of_nil in Hn.
Qed.

Lemma decode_unit_None E s r m :
  mux.Route_name m = "nodeCommandValueUnit" ->
  strconv.Atoi (mux.Var m "unit") = None ->
  isyns.decode E s r m = None.
Proof.
  intros Hn Hu. unfold isyns.decode. rewrite Hn, Hu. reflexivity.
Qed.


Lemma Match_unit_route a c v u :
  spec.segment_ok a -> spec.segment_ok c -> spec.segment_ok v -> spec.segment_ok u ->
  mux.Match isyns.router (gostring.join "/" [""; "ns"; "nodes"; a; "cmd"; c; v; u]) =
  Some {| mux.Route_name := "nodeCommandValueUnit";
          mux.Vars := <["unit" := u]> (<["value" := v]> (<["command" := c]> (<["nodeAddr" := a]> ∅))) |}.
Proof.
  intros [Ha Ha'] [Hc Hc'] [Hv Hv'] [Hu Hu'].
  compile_router isyns.router.
  rewrite split_on_join; [|done|repeat constructor; assumption].
  destruct a; [done|]. destruct c; [done|]. destruct v; [done|]. destruct u; [done|].
  reflexivity.
Qed.

Lemma server_go_Match_unit_route a c v u :
  spec.segment_ok a -> spec.segment_ok c -> spec.segment_ok v -> spec.segment_ok u ->
  mux.Match server_go.router (gostring.join "/" [""; "nodes"; a; "cmd"; c; v; u]) =
  Some {| mux.Route_name := "nodeCommandValueUnit";
          mux.Vars := <["unit" := u]> (<["value" := v]> (<["command" := c]> (<["nodeAddr" := a]> ∅))) |}.
Proof.
  intros [Ha Ha'] [Hc Hc'] [Hv Hv'] [Hu Hu'].
  compile_router server_go.router.
  rewrite split_on_join; [|done|repeat constructor; assumption].
  destruct a; [done|]. destruct c; [done|]. destruct v; [done|]. destruct u; [done|].
  reflexivity.
Qed.

End Routing.

(** ** The request decoder *)

Section Decoding.
Variable E : Env.
Variable s : isyns.Server.
Variable r : http.Request.

Lemma server_go_decode_None m :
  mux.Route_name m ∈ spec.route_names ->
  server_go.decode E s r m = None ->
  mux.Route_name m = "nodeCommandValueUnit" /\ strconv.Atoi (mux.Var m "unit") = None.
Proof.
  intros Hn. unfold server_go.decode.
  repeat match goal with
  | |- context [String.eqb ?a ?b] =>
      destruct (String.eqb_spec a b) as [?|?]; [try discriminate|]
  end.
  - destruct (strconv.Atoi (mux.Var m "unit")); [discriminate|]. auto.
  - intros _. exfalso. unfold spec.route_names in Hn.
    repeat (apply elem_of_cons in Hn as [Hn|Hn]; [contradiction|]).
    now apply elem_of_nil in Hn.
Qed.

Lemma server_go_decode_unit_None m :
  mux.Route_name m = "nodeCommandValueUnit" ->
  strconv.Atoi (mux.Var m "unit") = None ->
  server_go.decode E s r m = None.
Proof.
  intros Hn Hu. unfold server_go.decode. rewrite Hn, Hu. reflexivity.
Qed.

(** Whatever the request, the handler answers once, and hands a request
    off only after the acknowledgement, and only a decoded one. *)
Lemma handler_shape :
  isyns.handler E s r = spec.unauthorized \/
  isyns.handler E s r = spec.not_found \/
  exists m req,
    spec.credentials_match E s r /\
    mux.Match isyns.router (url.Path (http.URL r)) = Some m /\
    isyns.decode E s r m = Some req /\
    isyns.handler E s r = spec.acknowledged s req.
Proof.
  unfold isyns.handler.
  destruct (http.BasicAuth r) as [[u p]|] eqn:Hauth; [|now left].
  destruct (String.eqb_spec u (isyns.username s)) as [->|Hu]; [|now left].
  simpl.
  destruct (Z.eqb_spec (subtle.ConstantTimeCompare (Sum256 E p) (isyns.passwordSHA256 s)) 1)
    as [Hpw|Hpw]; [|now left].
  simpl. right.
  destruct (mux.Match isyns.router (url.Path (http.URL r))) as [m|]; [|now left].
  destruct (isyns.decode E s r m) as [req|] eqn:Hd; [|now left].
  right. exists m, req. repeat split; try reflexivity; try assumption.
  exists (isyns.username s), p. now apply ConstantTimeCompare_spec in Hpw.
Qed.

Lemma server_go_handler_shape :
  server_go.handler E s r = spec.unauthorized \/
  server_go.handler E s r = spec.not_found \/
  exists m req,
    spec.credentials_match E s r /\
    mux.Match server_go.router (url.Path (http.URL r)) = Some m /\
    server_go.decode E s r m = Some req /\
    server_go.handler E s r = spec.acknowledged s req.
Proof.
  unfold server_go.handler.
  destruct (http.BasicAuth r) as [[u p]|] eqn:Hauth; [|now left].
  destruct (String.eqb_spec u (isyns.username s)) as [->|Hu]; [|now left].
  simpl.
  destruct (Z.eqb_spec (subtle.ConstantTimeCompare (Sum256 E p) (isyns.passwordSHA256 s)) 1)
    as [Hpw|Hpw]; [|now left].
  simpl. right.
  destruct (mux.Match server_go.router (url.Path (http.URL r))) as [m|]; [|now left].
  destruct (server_go.decode E s r m) as [req|] eqn:Hd; [|now left].
  right. exists m, req. repeat split; try reflexivity; try assumption.
  exists (isyns.username s), p. now apply ConstantTimeCompare_spec in Hpw.
Qed.

(** A request that matches the route with a unit, with a unit that is
    no integer: not found, nothing handed off. *)
Lemma unit_failure m :
  mux.Match isyns.router (url.Path (http.URL r)) = Some m ->
  mux.Route_name m = "nodeCommandValueUnit" ->
  strconv.Atoi (mux.Var m "unit") = None ->
  spec.handed_off (isyns.handler E s r) = [] /\
  (spec.credentials_match E s r -> isyns.handler E s r = spec.not_found).
Proof.
  intros Hm Hn Hu. pose proof (decode_unit_None E s r m Hn Hu) as Hd.
  split.
  - destruct handler_shape as [-> | [-> | (m' & req & _ & Hm' & Hd' & _)]];
      [reflexivity | reflexivity |].
    congruence.
  - intros Hc. now rewrite (handler_authorized E s r Hc), Hm, Hd.
Qed.

Lemma server_go_unit_failure m :
  mux.Match server_go.router (url.Path (http.URL r)) = Some m ->
  mux.Route_name m = "nodeCommandValueUnit" ->
  strconv.Atoi (mux.Var m "unit") = None ->
  spec.handed_off (server_go.handler E s r) = [] /\
  (spec.credentials_match E s r -> server_go.handler E s r = spec.not_found).
Proof.
  intros Hm Hn Hu. pose proof (server_go_decode_unit_None m Hn Hu) as Hd.
  split.
  - destruct server_go_handler_shape as [-> | [-> | (m' & req & _ & Hm' & Hd' & _)]];
      [reflexivity | reflexivity |].
    congruence.
  - intros Hc. now rewrite (server_go_handler_authorized E s r Hc), Hm, Hd.
Qed.

(** A path no route matches: not found, nothing handed off. *)
Lemma unrouted :
  mux.Match isyns.router (url.Path (http.URL r)) = None ->
  spec.handed_off (isyns.handler E s r) = [] /\
  (spec.credentials_match E s r -> isyns.handler E s r = spec.not_found).
Proof.
  intros Hm. split.
  - destruct handler_shape as [-> | [-> | (m' & req & _ & Hm' & _)]];
      [reflexivity | reflexivity | congruence].
  - intros Hc. now rewrite (handler_authorized E s r Hc), Hm.
Qed.

End Decoding.

Lemma Match_abc :
  mux.Match isyns.router "/nodes/n001_AA/cmd/DON/100/abc" = None /\
  mux.Match isyns.router "/nodes/n001_AA/cmd/DON/100/51" = None.
Proof. split; vm_compute; reflexivity. Qed.

Lemma Match_ns_abc :
  mux.Match isyns.router "/ns/nodes/n001_AA/cmd/DON/100/abc" =
  Some {| mux.Route_name := "nodeCommandValueUnit";
          mux.Vars := <["unit" := "abc"]> (<["value" := "100"]>
                        (<["command" := "DON"]> (<["nodeAddr" := "n001_AA"]> ∅))) |}.
Proof. vm_compute; reflexivity. Qed.

Lemma Match_ns_51 :
  mux.Match isyns.router "/ns/nodes/n001_AA/cmd/DON/100/51" =
  Some {| mux.Route_name := "nodeCommandValueUnit";
          mux.Vars := <["unit" := "51"]> (<["value" := "100"]>
                        (<["command" := "DON"]> (<["nodeAddr" := "n001_AA"]> ∅))) |}.
Proof. vm_compute; reflexivity. Qed.

Lemma server_go_Match_abc :
  mux.Match server_go.router "/nodes/n001_AA/cmd/DON/100/abc" =
  Some {| mux.Route_name := "nodeCommandValueUnit";
          mux.Vars := <["unit" := "abc"]> (<["value" := "100"]>
                        (<["command" := "DON"]> (<["nodeAddr" := "n001_AA"]> ∅))) |}.
Proof. vm_compute; reflexivity. Qed.

Lemma server_go_Match_51 :
  mux.Match server_go.router "/nodes/n001_AA/cmd/DON/100/51" =
  Some {| mux.Route_name := "nodeCommandValueUnit";
          mux.Vars := <["unit" := "51"]> (<["value" := "100"]>
                        (<["command" := "DON"]> (<["nodeAddr" := "n001_AA"]> ∅))) |}.
Proof. vm_compute; reflexivity. Qed.

(** The variables of a path with four variable segments. *)
Lemma Var_cmd (a c v u : string) :
  let m := {| mux.Route_name := "nodeCommandValueUnit";
              mux.Vars := <["unit" := u]> (<["value" := v]>
                            (<["command" := c]> (<["nodeAddr" := a]> ∅))) |} in
  mux.Var m "unit" = u /\ mux.Var m "value" = v /\
  mux.Var m "command" = c /\ mux.Var m "nodeAddr" = a.
Proof.
  intros m. unfold mux.Var, m. simpl mux.Vars.
  repeat apply conj.
  - now rewrite lookup_insert_eq.
  - rewrite lookup_insert_ne by done. now rewrite lookup_insert_eq.
  - do 2 (rewrite lookup_insert_ne by done). now rewrite lookup_insert_eq.
  - do 3 (rewrite lookup_insert_ne by done). now rewrite lookup_insert_eq.
Qed.

Lemma example_credentials (answer : http.DoResult) (path query : string) :
  spec.credentials_match (example.env answer) example.server (example.get path query).
Proof. exists "isy", "secret". repeat split. Qed.

(** C5. An inbound call that matches the route with three segments after
    [cmd] and whose unit segment [strconv.Atoi] rejects is discarded:
    nothing is handed to the channel, and the caller (past the credential
    guard, which comes first) is answered "Not Found" with status 404.
    This holds for the route match as such, for every path of the shape
    [/ns/nodes/a/cmd/c/v/u], and in the earlier revision of server.go for
    every path [/nodes/a/cmd/c/v/u]. The path
    [/nodes/n001_AA/cmd/DON/100/abc] is answered "Not Found" and hands off
    nothing in both revisions (in the later one because no route starts
    with [/nodes]). *)
Theorem unit_parse_failure_not_found (E : Env) (s : isyns.Server) (r : http.Request) :
  (forall m,
      mux.Match isyns.router (url.Path (http.URL r)) = Some m ->
      mux.Route_name m = "nodeCommandValueUnit" ->
      strconv.Atoi (mux.Var m "unit") = None ->
      spec.handed_off (isyns.handler E s r) = [] /\
      (spec.credentials_match E s r -> isyns.handler E s r = spec.not_found)) /\
  (forall a c v u,
      spec.segment_ok a -> spec.segment_ok c -> spec.segment_ok v -> spec.segment_ok u ->
      url.Path (http.URL r) = gostring.join "/" [""; "ns"; "nodes"; a; "cmd"; c; v; u] ->
      strconv.Atoi u = None ->
      spec.handed_off (isyns.handler E s r) = [] /\
      (spec.credentials_match E s r -> isyns.handler E s r = spec.not_found)) /\
  (url.Path (http.URL r) = "/nodes/n001_AA/cmd/DON/100/abc" ->
      spec.handed_off (isyns.handler E s r) = [] /\
      (spec.credentials_match E s r -> isyns.handler E s r = spec.not_found)) /\
  (forall a c v u,
      spec.segment_ok a -> spec.segment_ok c -> spec.segment_ok v -> spec.segment_ok u ->
      url.Path (http.URL r) = gostring.join "/" [""; "nodes"; a; "cmd"; c; v; u] ->
      strconv.Atoi u = None ->
      spec.handed_off (server_go.handler E s r) = [] /\
      (spec.credentials_match E s r -> server_go.handler E s r = spec.not_found)) /\
  (url.Path (http.URL r) = "/nodes/n001_AA/cmd/DON/100/abc" ->
      spec.handed_off (server_go.handler E s r) = [] /\
      (spec.credentials_match E s r -> server_go.handler E s r = spec.not_found)).
Proof.
  repeat apply conj.
  - apply unit_failure.
  - intros a c v u Ha Hc Hv Hu Hpath Hunit.
    eapply unit_failure.
    + rewrite Hpath. now apply Match_unit_route.
    + reflexivity.
    + now rewrite (proj1 (Var_cmd a c v u)).
  - intros Hpath. apply unrouted. rewrite Hpath. apply Match_abc.
  - intros a c v u Ha Hc Hv Hu Hpath Hunit.
    eapply server_go_unit_failure.
    + rewrite Hpath. now apply server_go_Match_unit_route.
    + reflexivity.
    + now rewrite (proj1 (Var_cmd a c v u)).
  - intros Hpath. eapply server_go_unit_failure.
    + rewrite Hpath. apply server_go_Match_abc.
    + reflexivity.
    + reflexivity.
Qed.

Lemma unit_parse_failure_not_found_witness :
  isyns.handler (example.env example.ok) example.server
    (example.get "/ns/nodes/n001_AA/cmd/DON/100/abc" "") = spec.not_found.
Proof.
  exact (proj2 (proj1 (unit_parse_failure_not_found
                          (example.env example.ok) example.server
                          (example.get "/ns/nodes/n001_AA/cmd/DON/100/abc" ""))
                   {| mux.Route_name := "nodeCommandValueUnit";
                      mux.Vars := <["unit" := "abc"]> (<["value" := "100"]>
                        (<["command" := "DON"]> (<["nodeAddr" := "n001_AA"]> ∅))) |}
                   Match_ns_abc eq_refl eq_refl)
            (example_credentials _ _ _)).
Defined.

Lemma parseAddr_n001_AA (s : isyns.Server) :
  isyns.addrPrefix s = "n001_" -> isyns.parseAddr s "n001_AA" = "AA".
Proof. intros H. unfold isyns.parseAddr. now rewrite H. Qed.

(** C2, amended. For a server whose address prefix is [n001_], a call
    with the server's credentials and the path
    [/ns/nodes/n001_AA/cmd/DON/100/51] is acknowledged and decoded into a
    Command request with the unprefixed address [AA], the command [DON]
    and the primary parameter of value [100] and unit 51. The routes of
    the server start with [/ns]. *)
Theorem cmd_path_decodes (E : Env) (s : isyns.Server) (r : http.Request) :
  isyns.addrPrefix s = "n001_" ->
  spec.credentials_match E s r ->
  url.Path (http.URL r) = "/ns/nodes/n001_AA/cmd/DON/100/51" ->
  isyns.handler E s r =
    spec.acknowledged s
      (isyns.CommandRequest (isyns.makeCommonReq s r) "AA" "DON"
         (Some {| isyns.Value := "100"; isyns.UOM := 51 |})
         (isyns.makeCommandParams E s r)).
Proof.
  intros Hprefix Hc Hpath.
  rewrite (handler_authorized E s r Hc), Hpath, Match_ns_51.
  unfold isyns.decode. cbn [mux.Route_name String.eqb Ascii.eqb Bool.eqb].
  destruct (Var_cmd "n001_AA" "DON" "100" "51") as (-> & -> & -> & ->).
  now rewrite (parseAddr_n001_AA s Hprefix).
Qed.

Lemma cmd_path_decodes_witness :
  isyns.handler (example.env example.ok) example.server
    (example.get "/ns/nodes/n001_AA/cmd/DON/100/51" "") =
  spec.acknowledged example.server
    (isyns.CommandRequest {| isyns.id := ""; isyns.server := example.server |} "AA" "DON"
       (Some {| isyns.Value := "100"; isyns.UOM := 51 |}) None).
Proof.
  exact (cmd_path_decodes (example.env example.ok) example.server
           (example.get "/ns/nodes/n001_AA/cmd/DON/100/51" "")
           eq_refl (example_credentials _ _ _) eq_refl).
Defined.

(** C2, as stated, fails: no request with the path
    [/nodes/n001_AA/cmd/DON/100/51] is ever handed off, whatever the
    server and the credentials; an authenticated one is answered "Not
    Found". The earlier revision of server.go does route this path, and
    delivers the address as it came, [n001_AA]. *)
Lemma cmd_path_without_ns_not_decoded :
  ~ (exists E s r,
        url.Path (http.URL r) = "/nodes/n001_AA/cmd/DON/100/51" /\
        spec.handed_off (isyns.handler E s r) <> []) /\
  (forall E s r,
      isyns.addrPrefix s = "n001_" ->
      spec.credentials_match E s r ->
      url.Path (http.URL r) = "/nodes/n001_AA/cmd/DON/100/51" ->
      isyns.handler E s r = spec.not_found /\
      server_go.handler E s r =
        spec.acknowledged s
          (isyns.CommandRequest (isyns.makeCommonReq s r) "n001_AA" "DON"
             (Some {| isyns.Value := "100"; isyns.UOM := 51 |})
             (isyns.makeCommandParams E s r))).
Proof.
  split.
  - intros (E & s & r & Hpath & Hsent). apply Hsent.
    apply unrouted. rewrite Hpath. apply Match_abc.
  - intros E s r Hprefix Hc Hpath. split.
    + apply unrouted; [|assumption]. rewrite Hpath. apply Match_abc.
    + rewrite (server_go_handler_authorized E s r Hc), Hpath, server_go_Match_51.
      unfold server_go.decode. cbn [mux.Route_name String.eqb Ascii.eqb Bool.eqb].
      now destruct (Var_cmd "n001_AA" "DON" "100" "51") as (-> & -> & -> & ->).
Qed.

Lemma mismatch_cases (E : Env) (s : isyns.Server) (r : http.Request) :
  ~ spec.credentials_match E s r <->
  http.BasicAuth r = None \/
  exists u p, http.BasicAuth r = Some (u, p) /\
              (u <> isyns.username s \/ Sum256 E p <> isyns.passwordSHA256 s).
Proof.
  split.
  - intros Hno. destruct (http.BasicAuth r) as [[u p]|] eqn:Hauth; [|now left].
    right. exists u, p. split; [reflexivity|].
    destruct (String.eqb_spec u (isyns.username s)) as [Hu|Hu]; [|now left].
    right. intros Hpw. apply Hno. now exists u, p.
  - intros [Hnone | (u & p & Hauth & Hbad)] (u' & p' & Hauth' & Hu & Hp).
    + congruence.
    + rewrite Hauth in Hauth'. injection Hauth' as <- <-. tauto.
Qed.

(** C9, amended. A call whose credentials do not match (no well-formed
    Basic credentials, another username, or a password with another
    digest) is answered "Unauthorized" with status 401, the same answer
    whichever check failed and whatever the path, and nothing is handed
    off. A call with matching credentials whose path matches a route hands
    off exactly one request, after the acknowledgement, unless the route
    is the one with a unit and the unit is no integer. Both revisions of
    server.go. *)
Theorem credential_guard (E : Env) (s : isyns.Server) (r : http.Request) :
  (http.BasicAuth r = None \/
   (exists u p, http.BasicAuth r = Some (u, p) /\
                (u <> isyns.username s \/ Sum256 E p <> isyns.passwordSHA256 s)) ->
   isyns.handler E s r = spec.unauthorized /\
   spec.handed_off (isyns.handler E s r) = [] /\
   server_go.handler E s r = spec.unauthorized) /\
  (spec.credentials_match E s r ->
   (forall m,
       mux.Match isyns.router (url.Path (http.URL r)) = Some m ->
       ~ (mux.Route_name m = "nodeCommandValueUnit" /\
          strconv.Atoi (mux.Var m "unit") = None) ->
       exists req,
         isyns.decode E s r m = Some req /\
         isyns.handler E s r = spec.acknowledged s req /\
         spec.handed_off (isyns.handler E s r) = [req]) /\
   (forall m,
       mux.Match server_go.router (url.Path (http.URL r)) = Some m ->
       ~ (mux.Route_name m = "nodeCommandValueUnit" /\
          strconv.Atoi (mux.Var m "unit") = None) ->
       exists req,
         server_go.decode E s r m = Some req /\
         server_go.handler E s r = spec.acknowledged s req /\
         spec.handed_off (server_go.handler E s r) = [req])).
Proof.
  split.
  - intros Hbad. apply mismatch_cases in Hbad.
    rewrite (handler_unauthorized E s r Hbad), (server_go_handler_unauthorized E s r Hbad).
    repeat split.
  - intros Hc. split; intros m Hm Hok.
    + destruct (isyns.decode E s r m) as [req|] eqn:Hd.
      * exists req. rewrite (handler_authorized E s r Hc), Hm, Hd. repeat split.
      * destruct Hok. eapply decode_None; [|eassumption]. eapply router_names; eassumption.
    + destruct (server_go.decode E s r m) as [req|] eqn:Hd.
      * exists req. rewrite (server_go_handler_authorized E s r Hc), Hm, Hd. repeat split.
      * destruct Hok. eapply server_go_decode_None; [|eassumption].
        eapply server_go_router_names; eassumption.
Qed.

Lemma credential_guard_witness :
  isyns.handler (example.env example.ok) example.server
    {| http.Method := "GET";
       http.URL := {| url.Scheme := ""; url.Host := ""; url.Path := "/ns/add/nodes";
                      url.RawQuery := "" |};
       http.BasicAuth := Some ("isy", "guess") |} = spec.unauthorized.
Proof.
  refine (proj1 (proj1 (credential_guard (example.env example.ok) example.server _) _)).
  right. exists "isy", "guess". split; [reflexivity|]. right. discriminate.
Defined.

(** C9, as stated, fails: with matching credentials the path
    [/ns/nodes/n001_AA/cmd/DON/100/abc] matches a route, and nothing is
    handed off, whatever the server; and there are such calls. *)
Lemma recognized_route_without_request :
  (forall E s r,
      spec.credentials_match E s r ->
      url.Path (http.URL r) = "/ns/nodes/n001_AA/cmd/DON/100/abc" ->
      (exists m, mux.Match isyns.router (url.Path (http.URL r)) = Some m) /\
      spec.handed_off (isyns.handler E s r) = []) /\
  spec.credentials_match (example.env example.ok) example.server
    (example.get "/ns/nodes/n001_AA/cmd/DON/100/abc" "") /\
  spec.handed_off (isyns.handler (example.env example.ok) example.server
                     (example.get "/ns/nodes/n001_AA/cmd/DON/100/abc" "")) = [].
Proof.
  assert (Hall : forall E s r,
             url.Path (http.URL r) = "/ns/nodes/n001_AA/cmd/DON/100/abc" ->
             spec.handed_off (isyns.handler E s r) = []).
  { intros E s r Hpath.
    eapply unit_failure; [rewrite Hpath; apply Match_ns_abc | reflexivity | reflexivity]. }
  repeat apply conj.
  - intros E s r _ Hpath. split; [|now apply Hall].
    rewrite Hpath. eexists. apply Match_ns_abc.
  - apply example_credentials.
  - now apply Hall.
Qed.

(** ** Command parameters: the keys of the query *)

Section QueryKeys.

Lemma index_from_range (s sub : string) (i : nat) :
  strings.index_from i s sub = -1 \/ Z.of_nat i <= strings.index_from i s sub.
Proof.
  revert i; induction s as [|c s IH]; intros i; simpl.
  - destruct (strings.HasPrefix "" sub); [right; lia | now left].
  - destruct (strings.HasPrefix (String c s) sub); [right; lia|].
    destruct (IH (S i)) as [H|H]; [now left | right; lia].
Qed.

Lemma index_from_shift (s sub : string) (i : nat) :
  strings.index_from i s sub =
    if strings.index_from 0 s sub =? -1 then -1
    else Z.of_nat i + strings.index_from 0 s sub.
Proof.
  revert i; induction s as [|c s IH]; intros i; simpl.
  - destruct (strings.HasPrefix "" sub); simpl; [lia | reflexivity].
  - destruct (strings.HasPrefix (String c s) sub); simpl; [lia|].
    rewrite (IH (S i)), (IH 1%nat).
    destruct (Z.eqb_spec (strings.index_from 0 s sub) (-1)) as [H|H]; [reflexivity|].
    destruct (index_from_range s sub 0) as [H'|H']; [contradiction|].
    destruct (Z.eqb_spec (Z.of_nat 1 + strings.index_from 0 s sub) (-1)); lia.
Qed.

Lemma slice_from_add (p x : string) (n : nat) :
  gostring.slice_from (p +:+ x) (String.length p + n) = gostring.slice_from x n.
Proof.
  induction p as [|c p IH]; [reflexivity|].
  rewrite append_String. exact IH.
Qed.

(** No occurrence of [.uom] straddles the end of a text that holds none. *)
Lemma HasPrefix_uom_app (c : ascii) (name rest : string) :
  strings.HasPrefix (String c name) ".uom" = false ->
  strings.HasPrefix (String c name +:+ ".uom" +:+ rest) ".uom" = false.
Proof.
  destruct name as [|d [|e [|f name]]];
    repeat rewrite ?append_String, ?append_Empty; simpl;
    repeat match goal with
    | |- context [Ascii.eqb ?a ?b] => destruct (Ascii.eqb_spec a b); subst; simpl
    end; congruence.
Qed.

Lemma index_from_uom_app (name rest : string) (i : nat) :
  strings.index_from 0 name ".uom" = -1 ->
  strings.index_from i (name +:+ ".uom" +:+ rest) ".uom"
  = Z.of_nat i + Z.of_nat (String.length name).
Proof.
  revert i; induction name as [|c name IH]; intros i Hno.
  - rewrite append_Empty. simpl. lia.
  - cbn [strings.index_from] in Hno.
    destruct (strings.HasPrefix (String c name) ".uom") eqn:Hp; [discriminate|].
    rewrite index_from_shift in Hno.
    destruct (Z.eqb_spec (strings.index_from 0 name ".uom") (-1)) as [Hn|Hn].
    2:{ destruct (index_from_range name ".uom" 0); simpl in *; lia. }
    pose proof (HasPrefix_uom_app c name rest Hp) as Hp'.
    set (X := ".uom" +:+ rest) in *.
    rewrite append_String in *. cbn [strings.index_from].
    rewrite Hp', (IH (S i) Hn). cbn [String.length]. lia.
Qed.

Lemma Index_uom_app (name rest : string) :
  strings.Index name ".uom" = -1 ->
  strings.Index (name +:+ ".uom" +:+ rest) ".uom" = Z.of_nat (String.length name).
Proof. intros H. unfold strings.Index. now rewrite index_from_uom_app. Qed.

Section WithEnv.
Variable E : Env.

Lemma param_of_key_plain (k : string) :
  strings.Index k ".uom" = -1 -> isyns.param_of_key E k = (k, UOMUnknown E).
Proof. intros H. unfold isyns.param_of_key. now rewrite H. Qed.

Lemma param_of_key_split (name rest : string) :
  strings.Index name ".uom" = -1 ->
  isyns.param_of_key E (name +:+ ".uom" +:+ rest) =
    match strconv.Atoi rest with
    | Some unit => (name, unit)
    | None => (name +:+ ".uom" +:+ rest, UOMUnknown E)
    end.
Proof.
  intros H. unfold isyns.param_of_key. rewrite (Index_uom_app name rest H).
  destruct (Z.eqb_spec (Z.of_nat (String.length name)) (-1)) as [Hn|_]; [lia|].
  cbn [negb]. unfold gostring.slice. cbn [gostring.slice_from].
  rewrite Nat2Z.id, Nat.sub_0_r, slice_to_app.
  replace (Z.to_nat (Z.of_nat (String.length name) + 4))
    with (String.length name + 4)%nat by lia.
  rewrite slice_from_add. reflexivity.
Qed.

End WithEnv.
End QueryKeys.

Section KeyShapes.

Lemma HasPrefix_app_l (s t p : string) :
  strings.HasPrefix s p = true -> strings.HasPrefix (s +:+ t) p = true.
Proof.
  revert s; induction p as [|c p IH]; intros s H; [reflexivity|].
  destruct s as [|d s]; [discriminate|]. simpl in H.
  apply andb_true_iff in H as [Hc Hp].
  rewrite append_String. simpl. now rewrite Hc, IH.
Qed.

(** A key holds no [.uom], or splits at its first [.uom]. *)
Lemma key_shapes (k : string) :
  strings.Index k ".uom" = -1 \/
  exists name rest, k = name +:+ ".uom" +:+ rest /\ strings.Index name ".uom" = -1.
Proof.
  unfold strings.Index. induction k as [|c k IH]; [now left|].
  cbn [strings.index_from].
  destruct (strings.HasPrefix (String c k) ".uom") eqn:Hp.
  - right. exists "", (gostring.slice_from (String c k) 4). split; [|reflexivity].
    rewrite append_Empty. now apply HasPrefix_split in Hp.
  - rewrite index_from_shift.
    destruct IH as [IH | (name & rest & -> & Hname)].
    + left. now rewrite IH.
    + right. exists (String c name), rest. split; [reflexivity|].
      cbn [strings.index_from].
      destruct (strings.HasPrefix (String c name) ".uom") eqn:Hp'.
      * apply (HasPrefix_app_l _ (".uom" +:+ rest)) in Hp'.
        rewrite append_String in Hp'. congruence.
      * now rewrite index_from_shift, Hname.
Qed.

Lemma digits_value_ge (d : string) (acc v : Z) :
  strconv.digits_value acc d = Some v -> 0 <= acc -> acc <= v.
Proof.
  revert acc; induction d as [|c d IH]; intros acc H Hacc; simpl in H.
  - injection H as <-. lia.
  - destruct (strconv.digit_of c) as [x|] eqn:Hx; [|discriminate].
    unfold strconv.digit_of in Hx.
    destruct ((48 <=? Z.of_nat (nat_of_ascii c)) && (Z.of_nat (nat_of_ascii c) <=? 57)) eqn:Hr;
      [|discriminate].
    injection Hx as <-. apply andb_true_iff in Hr as [H1 H2].
    apply IH in H; lia.
Qed.

(** A non-empty string of decimal digits is accepted when its value
    fits [int], rejected when it does not. *)
Lemma Atoi_digits (d : string) (v : Z) :
  d <> "" -> strconv.digits_value 0 d = Some v ->
  strconv.Atoi d = if v <=? 2 ^ 63 - 1 then Some v else None.
Proof.
  intros Hne Hv. pose proof (digits_value_ge d 0 v Hv ltac:(lia)) as Hge.
  destruct d as [|c d]; [done|].
  assert (Hc : strconv.digit_of c <> None).
  { simpl in Hv. now destruct (strconv.digit_of c). }
  assert (Hr : strconv.in_int_range v = (v <=? 2 ^ 63 - 1)).
  { unfold strconv.in_int_range, strconv.intSize.
    destruct (Z.leb_spec (- 2 ^ (64 - 1)) v); [reflexivity | lia]. }
  unfold strconv.Atoi.
  destruct c as [[] [] [] [] [] [] [] []]; try (now destruct Hc);
    cbv match beta; rewrite Hv, Hr; reflexivity.
Qed.

End KeyShapes.

(** ** Command parameters: the loop over the query *)

Section Loop.
Variable E : Env.

Lemma step_entry ret kv :
  isyns.makeCommandParams_step E ret kv =
    match spec.entry_param E kv with
    | None => ret
    | Some (n, p) => Some (<[n := p]> (default ∅ ret))
    end.
Proof.
  destruct kv as [k vs]. unfold isyns.makeCommandParams_step, spec.entry_param. simpl.
  destruct (String.eqb k "requestId"); [reflexivity|].
  destruct vs as [|v0 vs]; [reflexivity|].
  now destruct (isyns.param_of_key E k).
Qed.

Lemma loop_snoc kvs kv :
  isyns.makeCommandParams_loop E (kvs ++ [kv]) =
  isyns.makeCommandParams_step E (isyns.makeCommandParams_loop E kvs) kv.
Proof. unfold isyns.makeCommandParams_loop. now rewrite foldl_app. Qed.

(** The loop inserts the parameters of the entries in the order of the
    visit: a later entry overwrites an earlier one of the same name. *)
Lemma loop_map kvs :
  default ∅ (isyns.makeCommandParams_loop E kvs) =
  list_to_map (reverse (omap (spec.entry_param E) kvs)).
Proof.
  induction kvs as [|kv kvs IH] using rev_ind; [reflexivity|].
  rewrite loop_snoc, step_entry, omap_app. simpl.
  destruct (spec.entry_param E kv) as [[n p]|]; simpl.
  - rewrite reverse_app. simpl. now rewrite IH.
  - now rewrite app_nil_r.
Qed.

(** The map stays nil exactly when no entry contributes. *)
Lemma loop_nil kvs :
  isyns.makeCommandParams_loop E kvs = None <-> omap (spec.entry_param E) kvs = [].
Proof.
  induction kvs as [|kv kvs IH] using rev_ind; [easy|].
  rewrite loop_snoc, step_entry, omap_app. simpl.
  destruct (spec.entry_param E kv) as [[n p]|]; simpl.
  - split; [discriminate|]. intros H. now apply app_eq_nil in H as [_ ?].
  - now rewrite app_nil_r.
Qed.

Lemma loop_Some kvs :
  omap (spec.entry_param E) kvs <> [] ->
  isyns.makeCommandParams_loop E kvs =
    Some (list_to_map (reverse (omap (spec.entry_param E) kvs))).
Proof.
  intros Hne. rewrite <- loop_map.
  destruct (isyns.makeCommandParams_loop E kvs) eqn:Hl; [reflexivity|].
  now apply loop_nil in Hl.
Qed.

(** When the names are distinct the order of the visit does not matter. *)
Lemma loop_perm kvs kvs' :
  kvs ≡ₚ kvs' ->
  NoDup (omap (spec.entry_param E) kvs).*1 ->
  isyns.makeCommandParams_loop E kvs = isyns.makeCommandParams_loop E kvs'.
Proof.
  intros Hp Hnd.
  assert (Hp' : omap (spec.entry_param E) kvs ≡ₚ omap (spec.entry_param E) kvs')
    by now rewrite Hp.
  destruct (omap (spec.entry_param E) kvs) as [|x l] eqn:Hl.
  - apply Permutation_nil in Hp'. 
    transitivity (@None (gmap string isyns.CommandParam)); [|symmetry];
      now apply loop_nil.
  - rewrite !loop_Some.
    + f_equal. rewrite Hl. apply list_to_map_proper.
      * now rewrite fmap_reverse, reverse_Permutation.
      * now rewrite !reverse_Permutation.
    + intros H. rewrite H in Hp'. now apply Permutation_nil_r in Hp'.
    + now rewrite Hl.
Qed.

(** Every parameter of the result is the parameter of an entry. *)
Lemma loop_lookup_Some kvs m n p :
  isyns.makeCommandParams_loop E kvs = Some m ->
  m !! n = Some p ->
  exists kv, kv ∈ kvs /\ spec.entry_param E kv = Some (n, p).
Proof.
  intros Hl Hn. pose proof (loop_map kvs) as Hm. rewrite Hl in Hm. simpl in Hm.
  rewrite Hm in Hn. apply elem_of_list_to_map_2 in Hn.
  apply elem_of_reverse, list_elem_of_omap in Hn. exact Hn.
Qed.

(** Every contributing entry leaves a parameter under its name: its
    own when no other entry has that name. *)
Lemma loop_lookup_entry kvs kv n p :
  kv ∈ kvs -> spec.entry_param E kv = Some (n, p) ->
  exists m, isyns.makeCommandParams_loop E kvs = Some m /\
            is_Some (m !! n) /\
            ((forall kv' p', kv' ∈ kvs -> spec.entry_param E kv' = Some (n, p') -> p' = p) ->
             m !! n = Some p).
Proof.
  intros Hin He.
  assert (Hel : (n, p) ∈ omap (spec.entry_param E) kvs)
    by (apply list_elem_of_omap; eauto).
  eexists. split; [apply loop_Some; intros H; rewrite H in Hel; now apply elem_of_nil in Hel|].
  assert (Hsome : is_Some ((list_to_map (reverse (omap (spec.entry_param E) kvs))
                              : gmap string isyns.CommandParam) !! n)).
  { apply not_eq_None_Some. intros Hnone.
    apply not_elem_of_list_to_map in Hnone. apply Hnone.
    rewrite fmap_reverse, elem_of_reverse. apply list_elem_of_fmap. now exists (n, p). }
  split; [exact Hsome|].
  intros Huniq. destruct Hsome as [p' Hp']. rewrite Hp'. f_equal.
  apply elem_of_list_to_map_2, elem_of_reverse, list_elem_of_omap in Hp'
    as (kv' & Hin' & He'). eauto.
Qed.

End Loop.

(** ** Command parameters: the delivered map *)

Section Params.
Variable E : Env.
Variable s : isyns.Server.
Variable r : http.Request.

Lemma range_order_elem (q : url.Values) (k : string) (vs : list string) :
  (k, vs) ∈ range_order E q <-> q !! k = Some vs.
Proof. now rewrite (range_order_perm E q), elem_of_map_to_list. Qed.

Lemma entry_param_Some (k : string) (vs : list string) (n : string) (p : isyns.CommandParam) :
  spec.entry_param E (k, vs) = Some (n, p) <->
  k <> "requestId" /\ (exists vs', vs = isyns.Value p :: vs') /\
  isyns.param_of_key E k = (n, isyns.UOM p).
Proof.
  unfold spec.entry_param. simpl.
  destruct (String.eqb_spec k "requestId") as [->|Hk].
  { split; [discriminate | now intros [? _]]. }
  destruct vs as [|v0 vs'].
  { split; [discriminate | now intros (_ & [? [=]] & _)]. }
  destruct (isyns.param_of_key E k) as [n' u']. simpl. split.
  - intros [= <- <-]. simpl. eauto.
  - intros (_ & [vs'' [= -> ->]] & [= -> ->]). now destruct p.
Qed.

(** Every delivered parameter is the parameter of a key of the query
    other than [requestId], with the key's first value. *)
Lemma params_sound m n p :
  isyns.makeCommandParams E s r = Some m -> m !! n = Some p ->
  exists k vs,
    url.Query (http.URL r) !! k = Some (isyns.Value p :: vs) /\
    k <> "requestId" /\
    isyns.param_of_key E k = (n, isyns.UOM p).
Proof.
  intros Hm Hn. destruct (loop_lookup_Some E _ m n p Hm Hn) as ([k vs] & Hin & He).
  apply range_order_elem in Hin. apply entry_param_Some in He as (Hk & [vs' ->] & Hp).
  eauto.
Qed.

(** Every key with a value, other than [requestId], leaves a parameter
    under its name: its own when no other key stands for that name. *)
Lemma params_complete k v vs :
  url.Query (http.URL r) !! k = Some (v :: vs) -> k <> "requestId" ->
  exists m,
    isyns.makeCommandParams E s r = Some m /\
    is_Some (m !! (isyns.param_of_key E k).1) /\
    ((forall k' v' vs',
         url.Query (http.URL r) !! k' = Some (v' :: vs') -> k' <> "requestId" ->
         (isyns.param_of_key E k').1 = (isyns.param_of_key E k).1 -> k' = k) ->
     m !! (isyns.param_of_key E k).1 =
       Some {| isyns.Value := v; isyns.UOM := (isyns.param_of_key E k).2 |}).
Proof.
  intros Hq Hk.
  set (p := {| isyns.Value := v; isyns.UOM := (isyns.param_of_key E k).2 |}).
  assert (He : spec.entry_param E (k, v :: vs) = Some ((isyns.param_of_key E k).1, p)).
  { apply entry_param_Some. repeat split; eauto. now destruct (isyns.param_of_key E k). }
  apply range_order_elem in Hq as Hin.
  destruct (loop_lookup_entry E _ _ _ _ Hin He) as (m & Hm & Hsome & Huniq).
  exists m. repeat split; try assumption.
  intros Hone. apply Huniq. intros [k' vs'] p' Hin' He'.
  apply range_order_elem in Hin'. apply entry_param_Some in He' as (Hk' & [vs'' ->] & Hp').
  assert (k' = k) as -> by (eapply Hone; eauto; now rewrite Hp').
  rewrite Hq in Hin'. injection Hin' as Hv Hvs.
  destruct p' as [v' u']. simpl in *. unfold p. rewrite Hp'. simpl. now rewrite Hv.
Qed.

(** When no key contributes the map stays nil. *)
Lemma params_nil :
  (forall k vs, url.Query (http.URL r) !! k = Some vs -> k = "requestId" \/ vs = []) ->
  isyns.makeCommandParams E s r = None.
Proof.
  intros Hall. apply loop_nil.
  destruct (omap _ _) as [|[n p] l] eqn:Ho; [reflexivity|].
  assert (Hin : (n, p) ∈ omap (spec.entry_param E) (range_order E (url.Query (http.URL r))))
    by (rewrite Ho; left).
  apply list_elem_of_omap in Hin as ([k vs] & Hin & He).
  apply range_order_elem in Hin. apply entry_param_Some in He as (Hk & [vs' ->] & _).
  now destruct (Hall _ _ Hin).
Qed.

(** The result for a query whose entries are known, when their names
    are distinct. *)
Lemma params_of_entries (kvs : list (string * list string)) :
  map_to_list (url.Query (http.URL r)) ≡ₚ kvs ->
  NoDup (omap (spec.entry_param E) kvs).*1 ->
  isyns.makeCommandParams E s r = isyns.makeCommandParams_loop E kvs.
Proof.
  intros Hq Hnd. unfold isyns.makeCommandParams. symmetry.
  apply loop_perm; [|assumption].
  now rewrite <- Hq, (range_order_perm E).
Qed.

End Params.

Lemma map_to_list_sample :
  map_to_list (url.ParseQuery "level.uom2=50&mode=auto&requestId=r1") ≡ₚ
  [("level.uom2", ["50"]); ("mode", ["auto"]); ("requestId", ["r1"])].
Proof.
  rewrite ParseQuery_sample.
  rewrite !map_to_list_insert by (vm_compute; reflexivity).
  now rewrite map_to_list_empty.
Qed.

Lemma map_to_list_pair (query k1 v1 k2 v2 : string) :
  url.ParseQuery query = <[k1 := [v1]]> (<[k2 := [v2]]> ∅) -> k1 <> k2 ->
  map_to_list (url.ParseQuery query) ≡ₚ [(k1, [v1]); (k2, [v2])].
Proof.
  intros -> Hne.
  rewrite map_to_list_insert by now rewrite lookup_insert_ne.
  rewrite map_to_list_insert by apply lookup_empty.
  now rewrite map_to_list_empty.
Qed.

Lemma map_to_list_one (query k : string) (vs : list string) :
  url.ParseQuery query = <[k := vs]> ∅ ->
  map_to_list (url.ParseQuery query) ≡ₚ [(k, vs)].
Proof.
  intros ->. rewrite map_to_list_insert by apply lookup_empty.
  now rewrite map_to_list_empty.
Qed.

Section SampleQuery.
Variable E : Env.
Variable s : isyns.Server.
Variable r : http.Request.

Lemma params_sample :
  url.RawQuery (http.URL r) = "level.uom2=50&mode=auto&requestId=r1" ->
  isyns.makeCommandParams E s r =
    Some (<["level" := {| isyns.Value := "50"; isyns.UOM := 2 |}]>
            (<["mode" := {| isyns.Value := "auto"; isyns.UOM := UOMUnknown E |}]> ∅)) /\
  isyns.id (isyns.makeCommonReq s r) = "r1".
Proof.
  intros Hq. split.
  - rewrite (params_of_entries E s r
               [("level.uom2", ["50"]); ("mode", ["auto"]); ("requestId", ["r1"])]).
    + vm_compute. reflexivity.
    + unfold url.Query. rewrite Hq. apply map_to_list_sample.
    + apply (bool_decide_unpack _). vm_compute. reflexivity.
  - unfold isyns.makeCommonReq, url.Query. rewrite Hq. vm_compute. reflexivity.
Qed.

End SampleQuery.

Section SmallQueries.
Variable E : Env.
Variable s : isyns.Server.
Variable r : http.Request.

(** The result for a query with one entry. *)
Lemma params_one (query k v : string) :
  url.RawQuery (http.URL r) = query ->
  url.ParseQuery query = <[k := [v]]> ∅ ->
  isyns.makeCommandParams E s r = isyns.makeCommandParams_loop E [(k, [v])].
Proof.
  intros Hq Hp. apply params_of_entries.
  - unfold url.Query. rewrite Hq. now apply map_to_list_one.
  - simpl. destruct (spec.entry_param E (k, [v])); simpl; repeat constructor.
    now rewrite elem_of_nil.
Qed.

(** The two results for a query with two entries. *)
Lemma params_two (query k1 v1 k2 v2 : string) :
  url.RawQuery (http.URL r) = query ->
  url.ParseQuery query = <[k1 := [v1]]> (<[k2 := [v2]]> ∅) -> k1 <> k2 ->
  isyns.makeCommandParams E s r = isyns.makeCommandParams_loop E [(k1, [v1]); (k2, [v2])] \/
  isyns.makeCommandParams E s r = isyns.makeCommandParams_loop E [(k2, [v2]); (k1, [v1])].
Proof.
  intros Hq Hp Hne. unfold isyns.makeCommandParams, url.Query. rewrite Hq.
  pose proof (range_order_perm E (url.ParseQuery query)) as Hperm.
  rewrite (map_to_list_pair query k1 v1 k2 v2 Hp Hne) in Hperm.
  symmetry in Hperm. apply Permutation_length_2_inv in Hperm as [-> | ->]; auto.
Qed.

End SmallQueries.

(** C1, amended. The parameters of a command call are decoded from the
    query as follows. A key that holds no [.uom] gives a parameter named
    by the key, with the unknown unit. A key that holds [.uom] is split
    at its first [.uom]: when [strconv.Atoi] accepts the text after it
    (decimal digits, with an optional sign, within the range of [int]),
    the parameter is named by the text before it and has that integer as
    unit; otherwise the parameter is named by the whole key and has the
    unknown unit. Every key is of one of these two shapes. The delivered
    parameters are exactly those of the keys other than the key
    [requestId] that have a value, each with the first value of its key,
    and the map is nil when there is none. The correlation id is the
    first value of [requestId]. The query
    [level.uom2=50&mode=auto&requestId=r1] decodes to the parameters
    [level] (value 50, unit 2) and [mode] (value auto, unit unknown) and
    the correlation id [r1]. *)
Theorem query_decoding (E : Env) (s : isyns.Server) (r : http.Request) :
  (forall k, strings.Index k ".uom" = -1 ->
     isyns.param_of_key E k = (k, UOMUnknown E)) /\
  (forall name rest, strings.Index name ".uom" = -1 ->
     isyns.param_of_key E (name +:+ ".uom" +:+ rest) =
       match strconv.Atoi rest with
       | Some unit => (name, unit)
       | None => (name +:+ ".uom" +:+ rest, UOMUnknown E)
       end) /\
  (forall digits v, digits <> "" -> strconv.digits_value 0 digits = Some v ->
     strconv.Atoi digits = if v <=? 2 ^ 63 - 1 then Some v else None) /\
  (forall k, strings.Index k ".uom" = -1 \/
     exists name rest, k = name +:+ ".uom" +:+ rest /\ strings.Index name ".uom" = -1) /\
  (forall m n p,
     isyns.makeCommandParams E s r = Some m -> m !! n = Some p ->
     exists k vs,
       url.Query (http.URL r) !! k = Some (isyns.Value p :: vs) /\
       k <> "requestId" /\
       isyns.param_of_key E k = (n, isyns.UOM p)) /\
  (forall k v vs,
     url.Query (http.URL r) !! k = Some (v :: vs) -> k <> "requestId" ->
     exists m,
       isyns.makeCommandParams E s r = Some m /\
       is_Some (m !! (isyns.param_of_key E k).1) /\
       ((forall k' v' vs',
            url.Query (http.URL r) !! k' = Some (v' :: vs') -> k' <> "requestId" ->
            (isyns.param_of_key E k').1 = (isyns.param_of_key E k).1 -> k' = k) ->
        m !! (isyns.param_of_key E k).1 =
          Some {| isyns.Value := v; isyns.UOM := (isyns.param_of_key E k).2 |})) /\
  ((forall k vs, url.Query (http.URL r) !! k = Some vs -> k = "requestId" \/ vs = []) ->
     isyns.makeCommandParams E s r = None) /\
  isyns.id (isyns.makeCommonReq s r) = url.Get (url.Query (http.URL r)) "requestId" /\
  (url.RawQuery (http.URL r) = "level.uom2=50&mode=auto&requestId=r1" ->
     isyns.makeCommandParams E s r =
       Some (<["level" := {| isyns.Value := "50"; isyns.UOM := 2 |}]>
               (<["mode" := {| isyns.Value := "auto"; isyns.UOM := UOMUnknown E |}]> ∅)) /\
     isyns.id (isyns.makeCommonReq s r) = "r1").
Proof.
  repeat apply conj.
  - apply param_of_key_plain.
  - apply param_of_key_split.
  - apply Atoi_digits.
  - apply key_shapes.
  - apply params_sound.
  - apply params_complete.
  - apply params_nil.
  - reflexivity.
  - apply params_sample.
Qed.

Lemma query_decoding_witness :
  isyns.makeCommandParams (example.env example.ok) example.server
    (example.get "/ns/nodes/n001_AA/cmd/DON" "level.uom2=50&mode=auto&requestId=r1") =
    Some (<["level" := {| isyns.Value := "50"; isyns.UOM := 2 |}]>
            (<["mode" := {| isyns.Value := "auto"; isyns.UOM := 0 |}]> ∅)) /\
  isyns.param_of_key (example.env example.ok) "level.uom2" = ("level", 2) /\
  isyns.param_of_key (example.env example.ok) "mode" = ("mode", 0).
Proof.
  pose (E := example.env example.ok).
  pose (r := example.get "/ns/nodes/n001_AA/cmd/DON" "level.uom2=50&mode=auto&requestId=r1").
  pose proof (query_decoding E example.server r) as (Hplain & Hsplit & _ & _ & _ & _ & _ & _ & Hex).
  repeat apply conj.
  - exact (proj1 (Hex eq_refl)).
  - exact (Hsplit "level" "2" eq_refl).
  - exact (Hplain "mode" eq_refl).
Defined.

(** C1, as stated, fails on three kinds of keys. The key [a.uomb.uom2]
    is of the form name, [.uom], digits, and gives a parameter named by
    the whole key with the unknown unit, not [a.uomb] with unit 2. The
    key [x.uom-5] has no suffix of digits, and gives the parameter [x]
    with unit -5, not the unknown unit. And the key [requestId.uom5]
    gives a parameter named [requestId]. *)
Lemma uom_key_rule_fails :
  (forall E s r,
      url.RawQuery (http.URL r) = "a.uomb.uom2=7" ->
      isyns.makeCommandParams E s r =
        Some {[ "a.uomb.uom2" := {| isyns.Value := "7"; isyns.UOM := UOMUnknown E |} ]} /\
      isyns.makeCommandParams E s r <>
        Some {[ "a.uomb" := {| isyns.Value := "7"; isyns.UOM := 2 |} ]}) /\
  (forall E s r,
      url.RawQuery (http.URL r) = "x.uom-5=7" ->
      isyns.makeCommandParams E s r =
        Some {[ "x" := {| isyns.Value := "7"; isyns.UOM := -5 |} ]} /\
      isyns.makeCommandParams E s r <>
        Some {[ "x.uom-5" := {| isyns.Value := "7"; isyns.UOM := UOMUnknown E |} ]}) /\
  (forall E s r,
      url.RawQuery (http.URL r) = "requestId.uom5=7" ->
      isyns.makeCommandParams E s r =
        Some {[ "requestId" := {| isyns.Value := "7"; isyns.UOM := 5 |} ]}).
Proof.
  repeat apply conj; intros E s r Hq.
  - rewrite (params_one E s r _ "a.uomb.uom2" "7" Hq) by (vm_compute; reflexivity).
    split; [vm_compute; reflexivity|].
    intros H.
    apply (f_equal (fun o : option (gmap string isyns.CommandParam) =>
                      isyns.Value <$> (o ≫= (.!! "a.uomb")))) in H.
    revert H. vm_compute. discriminate.
  - rewrite (params_one E s r _ "x.uom-5" "7" Hq) by (vm_compute; reflexivity).
    split; [vm_compute; reflexivity|].
    intros H.
    apply (f_equal (fun o : option (gmap string isyns.CommandParam) =>
                      isyns.Value <$> (o ≫= (.!! "x")))) in H.
    revert H. vm_compute. discriminate.
  - rewrite (params_one E s r _ "requestId.uom5" "7" Hq) by (vm_compute; reflexivity).
    vm_compute; reflexivity.
Qed.

(** C10. In the decoding of command parameters, the value of every
    delivered parameter is the first value of a query key that stands for
    its name, and the delivered map holds a parameter for a name exactly
    when some key with a value, other than [requestId], stands for that
    name: one parameter for each such name. Of the two values of
    [level=1&level=2] the first is delivered. With [level=1] and
    [level.uom2=50] together, the map holds exactly one parameter named
    [level]: that of the key the [range] visits last. *)
Theorem first_value_one_per_name (E : Env) (s : isyns.Server) (r : http.Request) :
  (forall m n p,
     isyns.makeCommandParams E s r = Some m -> m !! n = Some p ->
     exists k vs,
       url.Query (http.URL r) !! k = Some (isyns.Value p :: vs) /\
       k <> "requestId" /\
       isyns.param_of_key E k = (n, isyns.UOM p)) /\
  (forall n,
     (exists m p, isyns.makeCommandParams E s r = Some m /\ m !! n = Some p) <->
     (exists k v vs,
        url.Query (http.URL r) !! k = Some (v :: vs) /\ k <> "requestId" /\
        (isyns.param_of_key E k).1 = n)) /\
  (url.RawQuery (http.URL r) = "level=1&level=2" ->
     isyns.makeCommandParams E s r =
       Some {[ "level" := {| isyns.Value := "1"; isyns.UOM := UOMUnknown E |} ]}) /\
  (url.RawQuery (http.URL r) = "level=1&level.uom2=50" ->
     isyns.makeCommandParams E s r =
       Some {[ "level" := {| isyns.Value := "1"; isyns.UOM := UOMUnknown E |} ]} \/
     isyns.makeCommandParams E s r =
       Some {[ "level" := {| isyns.Value := "50"; isyns.UOM := 2 |} ]}).
Proof.
  repeat apply conj.
  - apply params_sound.
  - intros n. split.
    + intros (m & p & Hm & Hn).
      destruct (params_sound E s r m n p Hm Hn) as (k & vs & Hq & Hk & Hp).
      exists k, (isyns.Value p), vs. now rewrite Hp.
    + intros (k & v & vs & Hq & Hk & <-).
      destruct (params_complete E s r k v vs Hq Hk) as (m & Hm & [p Hp] & _).
      eauto.
  - intros Hq.
    rewrite (params_of_entries E s r [("level", ["1"; "2"])]).
    + vm_compute. reflexivity.
    + unfold url.Query. rewrite Hq. apply map_to_list_one. vm_compute. reflexivity.
    + apply (bool_decide_unpack _). vm_compute. reflexivity.
  - intros Hq.
    destruct (params_two E s r _ "level" "1" "level.uom2" "50" Hq) as [-> | ->];
      [vm_compute; reflexivity | discriminate | right | left]; vm_compute; reflexivity.
Qed.

Lemma first_value_one_per_name_witness :
  isyns.makeCommandParams (example.env example.ok) example.server
    (example.get "/ns/nodes/n001_AA/cmd/DON" "level=1&level.uom2=50") =
    Some {[ "level" := {| isyns.Value := "1"; isyns.UOM := 0 |} ]} \/
  isyns.makeCommandParams (example.env example.ok) example.server
    (example.get "/ns/nodes/n001_AA/cmd/DON" "level=1&level.uom2=50") =
    Some {[ "level" := {| isyns.Value := "50"; isyns.UOM := 2 |} ]}.
Proof.
  exact (proj2 (proj2 (proj2 (first_value_one_per_name (example.env example.ok) example.server
           (example.get "/ns/nodes/n001_AA/cmd/DON" "level=1&level.uom2=50")))) eq_refl).
Defined.

(** Which of the two survives is left to the order of the [range]: each
    happens in some environment. *)
Lemma either_key_can_survive :
  isyns.makeCommandParams (example.env example.ok) example.server
    (example.get "/ns/nodes/n001_AA/cmd/DON" "level=1&level.uom2=50") <>
  isyns.makeCommandParams (example.env_reversed example.ok) example.server
    (example.get "/ns/nodes/n001_AA/cmd/DON" "level=1&level.uom2=50").
Proof.
  intros H.
  apply (f_equal (fun o : option (gmap string isyns.CommandParam) =>
                    isyns.Value <$> (o ≫= (.!! "level")))) in H.
  revert H. vm_compute. discriminate.
Qed.

(** ** The hand-off *)

Section Handoff.
Import handoff.
Variable E : Env.
Variable s : isyns.Server.
Variable rs : list http.Request.
Hypothesis unbuffered : isyns.chan_cap (isyns.rawReqs s) = 0%nat.

Lemma done_by_app ch i t t' :
  done_by ch i (t ++ t') = done_by ch i t ++ done_by ch i t'.
Proof. unfold done_by. now rewrite omap_app. Qed.

Lemma init_consistent : consistent E s rs (init E s rs).
Proof.
  split; [reflexivity|]. split; [|split; [|split; [|split]]]; simpl.
  - constructor.
  - now rewrite length_fmap.
  - intros i. split; [|reflexivity].
    intros r Hr. exists (isyns.handler E s r). split; [|reflexivity].
    now rewrite list_lookup_fmap, Hr.
  - intros i H. now apply elem_of_nil in H.
  - intros [|? ?] t2 i H; discriminate.
Qed.

(** A connection at index [i] that has something to do is one of [rs]. *)
Lemma todo_in_range st i td :
  length (todo st) = length rs -> todo st !! i = Some td -> is_Some (rs !! i).
Proof.
  intros Hlen Hi. apply lookup_lt_is_Some. rewrite <- Hlen.
  now apply lookup_lt_Some in Hi.
Qed.

(** Where an event stands in a trace that got one more event. *)
Lemma snoc_split (t t1 t2 : list Event) (ev x : Event) :
  t ++ [ev] = t1 ++ x :: t2 ->
  (exists t2', t2 = t2' ++ [ev] /\ t = t1 ++ x :: t2') \/
  (t2 = [] /\ t = t1 /\ ev = x).
Proof.
  intros H. destruct t2 as [|y t2 _] using rev_ind.
  - right. apply app_inj_tail in H as [-> ->]. auto.
  - left. exists t2.
    change (t1 ++ x :: t2 ++ [y]) with (t1 ++ (x :: t2) ++ [y]) in H.
    rewrite app_assoc in H. apply app_inj_tail in H as [-> ->]. auto.
Qed.

(** The step of one connection: its handler does the head of its
    [todo]. *)
Lemma advance_consistent st i e rest ev :
  consistent E s rs st ->
  todo st !! i = Some (e :: rest) ->
  direct ev = true ->
  (forall i', ev <> Transmitted i') ->
  (forall j, done_by (isyns.rawReqs s) j [ev] = if Nat.eqb i j then [e] else []) ->
  consistent E s rs {| todo := <[i := rest]> (todo st); buf := [];
                       finished := finished st;
                       trace := trace st ++ [ev] |}.
Proof.
  intros (Hbuf & Hev & Hlen & Hconn & Hfin & Hsent) Hi Hnew Hnot Hdone.
  split; [reflexivity|]. split; [|split; [|split; [|split]]]; simpl.
  - apply Forall_app. split; [assumption | now repeat constructor].
  - now rewrite length_insert.
  - intros j. destruct (Hconn j) as [Hsome Hnone]. split.
    + intros r Hr. destruct (Hsome r Hr) as (td & Htd & Hrun).
      rewrite done_by_app, Hdone.
      destruct (Nat.eqb_spec i j) as [<-|Hne].
      * exists rest. split.
        -- apply list_lookup_insert_eq. now apply lookup_lt_Some in Hi.
        -- rewrite Hi in Htd. injection Htd as <-. now rewrite <- app_assoc.
      * exists td. split; [now rewrite list_lookup_insert_ne | now rewrite app_nil_r].
    + intros Hn. rewrite done_by_app, Hdone, (Hnone Hn).
      destruct (Nat.eqb_spec i j) as [<-|Hne]; [|reflexivity].
      destruct (todo_in_range st i _ Hlen Hi) as [r Hr]. congruence.
  - intros j Hj. apply elem_of_app in Hj as [Hj|Hj]; [now apply Hfin|].
    apply list_elem_of_singleton in Hj. now destruct (Hnot j).
  - intros t1 t2 j Ht.
    apply snoc_split in Ht as [(t2' & -> & Ht)|(_ & _ & Hx)]; [|now destruct (Hnot j)].
    destruct (Hsent _ _ _ Ht) as [Htd Hd].
    assert (Hne : i <> j) by (intros ->; congruence).
    split; [now rewrite list_lookup_insert_ne|].
    rewrite done_by_app, Hd, Hdone. now destruct (Nat.eqb_spec i j).
Qed.

Lemma step_consistent st st' :
  consistent E s rs st -> step (isyns.rawReqs s) st st' -> consistent E s rs st'.
Proof.
  intros Hc Hstep. pose proof Hc as (Hbuf & Hev & Hlen & Hconn & Hfin & Hsent).
  destruct Hstep as [st i e rest Hi He | st i q rest Hi Hroom
                    | st i q b c Hb | st i q rest c Hi Hb | st i Hi Hnew].
  - rewrite Hbuf. apply (advance_consistent st i e rest); auto; try discriminate.
    intros j. unfold done_by. simpl. rewrite Nat.eqb_sym. now destruct (Nat.eqb j i).
  - rewrite unbuffered in Hroom. lia.
  - congruence.
  - apply (advance_consistent st i (isyns.Send (isyns.rawReqs s) q) rest); auto;
      try discriminate.
    intros j. unfold done_by. simpl. rewrite Nat.eqb_sym. now destruct (Nat.eqb j i).
  - split; [exact Hbuf|]. split; [|split; [|split; [|split]]]; simpl.
    + apply Forall_app. split; [assumption | now repeat constructor].
    + exact Hlen.
    + intros j. destruct (Hconn j) as [Hsome Hnone]. split.
      * intros r Hr. destruct (Hsome r Hr) as (td & Htd & Hrun).
        exists td. split; [exact Htd|]. rewrite done_by_app. simpl. now rewrite app_nil_r.
      * intros Hn. rewrite done_by_app, (Hnone Hn). reflexivity.
    + intros j Hj. apply elem_of_app in Hj as [Hj|Hj]; [right; now apply Hfin|].
      apply list_elem_of_singleton in Hj. injection Hj as ->. left.
    + intros t1 t2 j Ht.
      apply snoc_split in Ht as [(t2' & -> & Ht)|(-> & _ & Hx)].
      * destruct (Hsent _ _ _ Ht) as [Htd Hd]. split; [exact Htd|].
        rewrite done_by_app, Hd. reflexivity.
      * injection Hx as ->. split; [exact Hi | reflexivity].
Qed.

Lemma steps_consistent st :
  steps (isyns.rawReqs s) (init E s rs) st -> consistent E s rs st.
Proof.
  intros H. remember (init E s rs) as st0 eqn:H0.
  induction H as [st|st st' st'' _ IH Hstep]; subst.
  - apply init_consistent.
  - eapply step_consistent; eauto.
Qed.

(** What the consumers received of a connection are the sends it has
    done, when nothing went through the buffer. *)
Lemma received_sends i t :
  Forall (fun ev => direct ev = true) t ->
  (received_from i t).*2 = spec.handed_off (done_by (isyns.rawReqs s) i t).
Proof.
  induction 1 as [|ev t Hev _ IH]; [reflexivity|].
  unfold received_from, done_by, spec.handed_off in *.
  destruct ev as [j e|j q|j c q|j c q|j]; simpl in *; try discriminate;
    try destruct (Nat.eqb j i); simpl; try assumption.
  - destruct e; simpl; [assumption | assumption | discriminate].
  - now f_equal.
Qed.

Lemma Wrote_of_done i t e :
  e ∈ done_by (isyns.rawReqs s) i t -> is_answer e = true -> Wrote i e ∈ t.
Proof.
  intros Hin He. apply list_elem_of_omap in Hin as (ev & Hev & Hdone).
  destruct ev as [j e'|j q|j c q|j c q|j]; try discriminate;
    destruct (Nat.eqb_spec j i) as [->|]; try discriminate;
    injection Hdone as <-; [assumption | discriminate | discriminate].
Qed.

Lemma Handed_of_done i t q :
  Forall (fun ev => direct ev = true) t ->
  isyns.Send (isyns.rawReqs s) q ∈ done_by (isyns.rawReqs s) i t ->
  exists c, Handed i c q ∈ t.
Proof.
  intros Hdir Hin. apply list_elem_of_omap in Hin as (ev & Hev & Hdone).
  rewrite Forall_forall in Hdir. specialize (Hdir ev Hev).
  destruct ev as [j e'|j q'|j c q'|j c q'|j]; try discriminate;
    destruct (Nat.eqb_spec j i) as [->|]; try discriminate.
  - injection Hdone as ->. discriminate.
  - injection Hdone as ->. now exists c.
Qed.

Lemma no_Wrote i t :
  done_by (isyns.rawReqs s) i t = [] -> forall e, Wrote i e ∉ t.
Proof.
  intros Hnil e Hin.
  assert (He : e ∈ done_by (isyns.rawReqs s) i t).
  { apply list_elem_of_omap. exists (Wrote i e). now rewrite Nat.eqb_refl. }
  rewrite Hnil in He. now apply elem_of_nil in He.
Qed.

(** The effects of a handler, one of three lists. *)
Lemma handler_effects r :
  isyns.handler E s r = spec.unauthorized \/
  isyns.handler E s r = spec.not_found \/
  exists req, isyns.handler E s r = spec.acknowledged s req.
Proof.
  destruct (handler_shape E s r) as [H | [H | (m & req & _ & _ & _ & H)]]; eauto.
Qed.

(** A handler that has a send among its effects has the call of
    [WriteHeader] right before it, and nothing after it. *)
Lemma handler_split r done q rest :
  done ++ isyns.Send (isyns.rawReqs s) q :: rest = isyns.handler E s r ->
  done = [isyns.WriteHeader 204] /\ rest = [] /\
  isyns.handler E s r = spec.acknowledged s q.
Proof.
  intros H. destruct (handler_effects r) as [Hh | [Hh | [req Hh]]]; rewrite Hh in H |- *.
  - destruct done as [|? [|? ?]]; discriminate.
  - destruct done as [|? [|? ?]]; discriminate.
  - destruct done as [|x [|y done]]; try discriminate.
    + simpl in H. injection H as -> <- <-. auto.
    + simpl in H. injection H as _ _ H. now destruct done.
Qed.

Section Executions.
Variable st : state.
Hypothesis Hst : consistent E s rs st.

(** [WriteHeader] is called before the request is handed over, nothing
    is written after, it is handed over once, and the response has not
    left the server by then. *)
Lemma called_before t1 t2 i c q :
  trace st = t1 ++ Handed i c q :: t2 ->
  Wrote i (isyns.WriteHeader 204) ∈ t1 /\
  (forall e, Wrote i e ∉ t2) /\
  received_from i t1 = [] /\ received_from i t2 = [] /\
  Transmitted i ∉ t1.
Proof.
  intros Ht. destruct Hst as (_ & Hev & _ & Hconn & _ & Hsent).
  assert (Hd : done_by (isyns.rawReqs s) i (trace st) =
               done_by (isyns.rawReqs s) i t1 ++
               isyns.Send (isyns.rawReqs s) q :: done_by (isyns.rawReqs s) i t2).
  { rewrite Ht, done_by_app. unfold done_by at 2. simpl. now rewrite Nat.eqb_refl. }
  destruct (Hconn i) as [Hsome Hnone].
  destruct (rs !! i) as [r|] eqn:Hr.
  2:{ rewrite (Hnone eq_refl) in Hd. now destruct (done_by _ i t1). }
  destruct (Hsome r eq_refl) as (td & _ & Hrun).
  rewrite Hd, <- app_assoc in Hrun. simpl in Hrun.
  apply handler_split in Hrun as (H1 & H2 & _).
  apply app_eq_nil in H2 as [H2 _].
  rewrite Ht in Hev. apply Forall_app in Hev as [Hev1 Hev2].
  apply Forall_cons in Hev2 as [_ Hev2].
  repeat apply conj.
  - apply Wrote_of_done; [|reflexivity]. rewrite H1. left.
  - now apply no_Wrote.
  - pose proof (received_sends i t1 Hev1) as Hrs. rewrite H1 in Hrs.
    now apply fmap_nil_inv in Hrs.
  - pose proof (received_sends i t2 Hev2) as Hrs. rewrite H2 in Hrs.
    now apply fmap_nil_inv in Hrs.
  - intros Hin. apply list_elem_of_split in Hin as (u1 & u2 & ->).
    rewrite <- app_assoc in Ht. simpl in Ht.
    destruct (Hsent _ _ _ Ht) as [_ Hnil].
    rewrite done_by_app in Hnil. apply app_eq_nil in Hnil as [_ Hnil].
    unfold done_by in Hnil. simpl in Hnil. rewrite Nat.eqb_refl in Hnil. discriminate.
Qed.

(** The acknowledgement leaves the server after the request has been
    handed over, and the handler does nothing afterwards. *)
Lemma transmitted_after t1 t2 i r req :
  rs !! i = Some r ->
  isyns.handler E s r = spec.acknowledged s req ->
  trace st = t1 ++ Transmitted i :: t2 ->
  (exists c, Handed i c req ∈ t1) /\
  Wrote i (isyns.WriteHeader 204) ∈ t1 /\
  done_by (isyns.rawReqs s) i t2 = [].
Proof.
  intros Hr Hh Ht. destruct Hst as (_ & Hev & _ & Hconn & _ & Hsent).
  destruct (Hsent _ _ _ Ht) as [Htd Hnil].
  destruct (proj1 (Hconn i) r Hr) as (td & Htd' & Hrun).
  rewrite Htd in Htd'. injection Htd' as <-.
  rewrite app_nil_r, Ht, done_by_app in Hrun.
  change (Transmitted i :: t2) with ([Transmitted i] ++ t2) in Hrun.
  rewrite done_by_app, Hnil in Hrun. simpl in Hrun. rewrite app_nil_r, Hh in Hrun.
  rewrite Ht in Hev. apply Forall_app in Hev as [Hev1 _].
  repeat apply conj; [| |exact Hnil].
  - apply Handed_of_done; [exact Hev1|]. rewrite Hrun. right. left.
  - apply Wrote_of_done; [|reflexivity]. rewrite Hrun. left.
Qed.

(** A request is received at most once. *)
Lemma received_at_most_once i : (length (received_from i (trace st)) <= 1)%nat.
Proof.
  destruct Hst as (_ & Hev & _ & Hconn & _).
  rewrite <- (length_fmap snd), (received_sends i _ Hev).
  destruct (Hconn i) as [Hsome Hnone].
  destruct (rs !! i) as [r|] eqn:Hr; [|rewrite (Hnone eq_refl); simpl; lia].
  destruct (Hsome r eq_refl) as (td & _ & Hrun).
  apply (f_equal (fun l => length (spec.handed_off l))) in Hrun.
  unfold spec.handed_off in Hrun at 1. rewrite omap_app, length_app in Hrun.
  fold (spec.handed_off (done_by (isyns.rawReqs s) i (trace st))) in Hrun.
  destruct (handler_effects r) as [Hh | [Hh | [req Hh]]];
    rewrite Hh in Hrun; simpl in Hrun; lia.
Qed.

(** A handler that has returned has had its request received, by one
    consumer. *)
Lemma returned_received i r req :
  rs !! i = Some r -> todo st !! i = Some [] ->
  isyns.handler E s r = spec.acknowledged s req ->
  exists c, received_from i (trace st) = [(c, req)].
Proof.
  intros Hr Htd Hh. destruct Hst as (_ & Hev & _ & Hconn & _).
  destruct (proj1 (Hconn i) r Hr) as (td & Htd' & Hrun).
  rewrite Htd in Htd'. injection Htd' as <-. rewrite app_nil_r, Hh in Hrun.
  pose proof (received_sends i _ Hev) as Hrs. rewrite Hrun in Hrs. simpl in Hrs.
  destruct (received_from i (trace st)) as [|[c q] [|? ?]]; try discriminate.
  injection Hrs as ->. now exists c.
Qed.

(** A handler that waits at its send has called [WriteHeader]; its
    request has not been received, and its response has not left the
    server. *)
Lemma waiting_not_transmitted i q rest :
  todo st !! i = Some (isyns.Send (isyns.rawReqs s) q :: rest) ->
  Wrote i (isyns.WriteHeader 204) ∈ trace st /\
  received_from i (trace st) = [] /\ rest = [] /\
  Transmitted i ∉ trace st.
Proof.
  intros Htd. destruct Hst as (_ & Hev & Hlen & Hconn & _ & Hsent).
  destruct (todo_in_range st i _ Hlen Htd) as [r Hr].
  destruct (proj1 (Hconn i) r Hr) as (td & Htd' & Hrun).
  rewrite Htd in Htd'. injection Htd' as <-.
  apply handler_split in Hrun as (Hdone & -> & _).
  repeat apply conj; [| |reflexivity|].
  - apply Wrote_of_done; [|reflexivity]. rewrite Hdone. left.
  - pose proof (received_sends i _ Hev) as Hrs. rewrite Hdone in Hrs.
    now apply fmap_nil_inv in Hrs.
  - intros Hin. apply list_elem_of_split in Hin as (t1 & t2 & Ht).
    destruct (Hsent _ _ _ Ht) as [Htd' _]. congruence.
Qed.

(** While a handler waits at its send, the only step that moves it is
    one in which a consumer receives its request; no step makes its
    response leave. *)
Lemma send_needs_receiver st' i q rest :
  step (isyns.rawReqs s) st st' ->
  todo st !! i = Some (isyns.Send (isyns.rawReqs s) q :: rest) ->
  (Transmitted i ∉ trace st') /\
  (todo st' !! i = todo st !! i \/
   exists c, trace st' = trace st ++ [Handed i c q] /\ todo st' !! i = Some rest).
Proof.
  intros Hstep Htd.
  destruct (waiting_not_transmitted i q rest Htd) as (_ & _ & _ & Hno).
  destruct Hst as (Hbuf & _).
  destruct Hstep as [st i' e rest' Hi He | st i' q' rest' Hi Hroom
                    | st i' q' b c Hb | st i' q' rest' c Hi Hb | st i' Hi Hnew]; simpl in *.
  - split.
    + intros Hin. apply elem_of_app in Hin as [Hin|Hin]; [now apply Hno|].
      now apply list_elem_of_singleton in Hin.
    + destruct (Nat.eq_dec i' i) as [->|Hne].
      * rewrite Htd in Hi. injection Hi as <- <-. discriminate.
      * left. now rewrite list_lookup_insert_ne.
  - rewrite unbuffered in Hroom. lia.
  - congruence.
  - split.
    + intros Hin. apply elem_of_app in Hin as [Hin|Hin]; [now apply Hno|].
      now apply list_elem_of_singleton in Hin.
    + destruct (Nat.eq_dec i' i) as [->|Hne].
      * rewrite Htd in Hi. injection Hi as <- <-. right. exists c.
        split; [reflexivity|].
        apply list_lookup_insert_eq. now apply lookup_lt_Some in Htd.
      * left. now rewrite list_lookup_insert_ne.
  - split; [|now left].
    intros Hin. apply elem_of_app in Hin as [Hin|Hin]; [now apply Hno|].
    apply list_elem_of_singleton in Hin. injection Hin as ->. congruence.
Qed.

End Executions.

End Handoff.

Lemma NewServer_channel E config profileNum isyConfig s :
  isyns.NewServer E config profileNum isyConfig = isyns.Returns (inl s) ->
  isyns.rawReqs s = isyns.make_chan /\ isyns.Requests s = isyns.rawReqs s.
Proof.
  unfold isyns.NewServer.
  destruct (url_Parse E _) as [relURL|]; [|discriminate].
  destruct (url_Parse E _) as [baseURL|]; [|discriminate].
  intros [= <-]. auto.
Qed.

Lemma NewServer_prefix_1 E config isyConfig s :
  isyns.NewServer E config 1 isyConfig = isyns.Returns (inl s) ->
  isyns.addrPrefix s = "n001_" /\ isyns.AddrPrefix (isyns.client s) = "n001_".
Proof.
  unfold isyns.NewServer.
  destruct (url_Parse E _) as [relURL|]; [|discriminate].
  destruct (url_Parse E _) as [baseURL|]; [|discriminate].
  intros [= <-]. auto.
Qed.

Lemma example_NewServer :
  isyns.NewServer (example.env example.ok) example.config 1 example.isy_config
  = isyns.Returns (inl example.new_server).
Proof. vm_compute. reflexivity. Qed.

Lemma example_handler :
  isyns.handler (example.env example.ok) example.new_server
    (example.get "/ns/add/nodes" "requestId=7")
  = spec.acknowledged example.new_server example.add_all_nodes.
Proof. vm_compute. reflexivity. Qed.

Lemma steps_l ch st st' st'' :
  handoff.step ch st st' -> handoff.steps ch st' st'' -> handoff.steps ch st st''.
Proof.
  intros H1 H2. induction H2 as [st'|st' u v _ IH Hs].
  - eapply handoff.steps_snoc; [apply handoff.steps_refl | exact H1].
  - eapply handoff.steps_snoc; [apply IH, H1 | exact Hs].
Qed.

Lemma steps_trans ch st st' st'' :
  handoff.steps ch st st' -> handoff.steps ch st' st'' -> handoff.steps ch st st''.
Proof.
  intros H1 H2. induction H2 as [st'|st' u v _ IH Hs]; [exact H1|].
  eapply handoff.steps_snoc; [apply IH, H1 | exact Hs].
Qed.

Lemma example_handlers :
  isyns.handler (example.env example.ok) example.new_server <$> example.calls =
  [spec.acknowledged example.new_server example.add_all_nodes;
   spec.acknowledged example.new_server example.query_node].
Proof. vm_compute. reflexivity. Qed.

Lemma example_waiting :
  handoff.steps isyns.make_chan
    (handoff.init (example.env example.ok) example.new_server example.calls)
    example.waiting.
Proof.
  unfold handoff.init. rewrite example_handlers.
  eapply steps_l; [eapply (handoff.step_answer _ _ 0); reflexivity|].
  eapply steps_l; [eapply (handoff.step_answer _ _ 1); reflexivity|].
  apply handoff.steps_refl.
Qed.

Lemma example_served_from_waiting :
  handoff.steps isyns.make_chan example.waiting example.served.
Proof.
  eapply steps_l.
  { eapply (handoff.step_rendezvous _ _ 1) with (consumer := 0%nat); reflexivity. }
  eapply steps_l.
  { eapply (handoff.step_return _ _ 1); [reflexivity | apply not_elem_of_nil]. }
  eapply steps_l.
  { eapply (handoff.step_rendezvous _ _ 0) with (consumer := 0%nat); reflexivity. }
  eapply steps_l.
  { eapply (handoff.step_return _ _ 0); [reflexivity|].
    cbn. rewrite list_elem_of_singleton. discriminate. }
  apply handoff.steps_refl.
Qed.

Lemma example_served :
  handoff.steps isyns.make_chan
    (handoff.init (example.env example.ok) example.new_server example.calls)
    example.served.
Proof. exact (steps_trans _ _ _ _ example_waiting example_served_from_waiting). Qed.

(** Without a consumer the handlers of the example stay where they are:
    the only steps are hand-overs to a consumer. *)
Lemma example_waiting_steps st' :
  handoff.step isyns.make_chan example.waiting st' ->
  exists i c q, handoff.trace st' = handoff.trace example.waiting ++ [handoff.Handed i c q].
Proof.
  intros H. inversion H as [st i e rest Hi He | st i q rest Hi Hroom
                           | st i q b c Hb | st i q rest c Hi Hb | st i Hi Hnew]; subst; simpl in *.
  - destruct i as [|[|i]]; simpl in Hi; try discriminate; injection Hi as <- <-; discriminate.
  - lia.
  - discriminate.
  - eauto.
  - destruct i as [|[|i]]; discriminate.
Qed.

Lemma direct_not_buffered (t : list handoff.Event) :
  Forall (fun ev => handoff.direct ev = true) t ->
  Forall (fun ev => handoff.is_buffered ev = false) t.
Proof.
  intros H. eapply Forall_impl; [exact H|].
  intros [j e|j q|j c q|j c q|j]; simpl; congruence.
Qed.

(** C3. For every recognized and decoded request the handler calls
    [w.WriteHeader] with status 204 and then sends the request on the
    channel, which [NewServer] makes without a buffer. The call records
    the status; the acknowledgement leaves the server when the handler
    has returned, and the handler returns when its send has completed.
    So in every execution of any number of handlers with any number of
    consumers: the acknowledgement of a decoded request leaves after the
    request has been handed over to a consumer; at the hand-over
    [WriteHeader] has been called and the acknowledgement has not left;
    a handler that waits at its send has called [WriteHeader], its
    request is not received and its acknowledgement has not left, and no
    step makes it leave: the only step that moves the handler is one in
    which a consumer receives the request. The hand-over itself is a
    rendezvous: no send completes into a buffer, a request is received
    at most once, and a handler that has returned has had its request
    received by exactly one consumer. *)
Theorem ack_leaves_after_handoff (E : Env) (config : isyns.Config) (profileNum : Z)
    (isyConfig : isy.ClientConfig) (s : isyns.Server)
    (rs : list http.Request) (st : handoff.state) :
  isyns.NewServer E config profileNum isyConfig = isyns.Returns (inl s) ->
  handoff.steps (isyns.rawReqs s) (handoff.init E s rs) st ->
  isyns.chan_cap (isyns.rawReqs s) = 0%nat /\
  (forall r m req,
      spec.credentials_match E s r ->
      mux.Match isyns.router (url.Path (http.URL r)) = Some m ->
      isyns.decode E s r m = Some req ->
      isyns.handler E s r =
        [isyns.WriteHeader http.StatusNoContent; isyns.Send (isyns.rawReqs s) req]) /\
  (forall t1 t2 i r req,
      rs !! i = Some r ->
      isyns.handler E s r = spec.acknowledged s req ->
      handoff.trace st = t1 ++ handoff.Transmitted i :: t2 ->
      (exists c, handoff.Handed i c req ∈ t1) /\
      handoff.Wrote i (isyns.WriteHeader 204) ∈ t1 /\
      (forall e, handoff.Wrote i e ∉ t2)) /\
  (forall t1 t2 i c q,
      handoff.trace st = t1 ++ handoff.Handed i c q :: t2 ->
      handoff.Wrote i (isyns.WriteHeader 204) ∈ t1 /\
      (forall e, handoff.Wrote i e ∉ t2) /\
      handoff.received_from i t1 = [] /\ handoff.received_from i t2 = [] /\
      handoff.Transmitted i ∉ t1) /\
  (forall i q rest,
      handoff.todo st !! i = Some (isyns.Send (isyns.rawReqs s) q :: rest) ->
      handoff.Wrote i (isyns.WriteHeader 204) ∈ handoff.trace st /\
      handoff.received_from i (handoff.trace st) = [] /\ rest = [] /\
      handoff.Transmitted i ∉ handoff.trace st) /\
  (forall st' i q rest,
      handoff.step (isyns.rawReqs s) st st' ->
      handoff.todo st !! i = Some (isyns.Send (isyns.rawReqs s) q :: rest) ->
      (handoff.Transmitted i ∉ handoff.trace st') /\
      (handoff.todo st' !! i = handoff.todo st !! i \/
       exists c, handoff.trace st' = handoff.trace st ++ [handoff.Handed i c q] /\
                 handoff.todo st' !! i = Some rest)) /\
  (handoff.buf st = [] /\
   Forall (fun ev => handoff.is_buffered ev = false) (handoff.trace st)) /\
  (forall i, (length (handoff.received_from i (handoff.trace st)) <= 1)%nat) /\
  (forall i r req,
      rs !! i = Some r -> handoff.todo st !! i = Some [] ->
      isyns.handler E s r = spec.acknowledged s req ->
      exists c, handoff.received_from i (handoff.trace st) = [(c, req)]).
Proof.
  intros Hnew Hsteps.
  destruct (NewServer_channel _ _ _ _ _ Hnew) as [Hch _].
  assert (Hcap : isyns.chan_cap (isyns.rawReqs s) = 0%nat) by now rewrite Hch.
  pose proof (steps_consistent E s rs Hcap st Hsteps) as Hst.
  repeat apply conj; try assumption.
  - intros r m req Hc Hm Hd. now rewrite (handler_authorized E s r Hc), Hm, Hd.
  - intros t1 t2 i r req Hr Hh Ht.
    destruct (transmitted_after E s rs st Hst t1 t2 i r req Hr Hh Ht) as (H1 & H2 & H3).
    repeat apply conj; [exact H1 | exact H2 | now apply (no_Wrote s)].
  - eapply called_before; eassumption.
  - eapply waiting_not_transmitted; eassumption.
  - eapply send_needs_receiver; eassumption.
  - apply Hst.
  - apply direct_not_buffered, Hst.
  - eapply received_at_most_once; eassumption.
  - eapply returned_received; eassumption.
Qed.

Lemma ack_leaves_after_handoff_witness :
  (handoff.Transmitted 0 ∉ handoff.trace example.waiting) /\
  (exists c, handoff.Handed 0 c example.add_all_nodes ∈
               [handoff.Wrote 0 (isyns.WriteHeader 204);
                handoff.Wrote 1 (isyns.WriteHeader 204);
                handoff.Handed 1 0 example.query_node;
                handoff.Transmitted 1;
                handoff.Handed 0 0 example.add_all_nodes]).
Proof.
  split.
  - pose proof (ack_leaves_after_handoff (example.env example.ok) example.config 1
                  example.isy_config example.new_server example.calls example.waiting
                  example_NewServer example_waiting)
      as (_ & _ & _ & _ & Hwait & _).
    exact (proj2 (proj2 (proj2 (Hwait 0%nat example.add_all_nodes [] eq_refl)))).
  - pose proof (ack_leaves_after_handoff (example.env example.ok) example.config 1
                  example.isy_config example.new_server example.calls example.served
                  example_NewServer example_served)
      as (_ & _ & Hsent & _).
    exact (proj1 (Hsent [handoff.Wrote 0 (isyns.WriteHeader 204);
                         handoff.Wrote 1 (isyns.WriteHeader 204);
                         handoff.Handed 1 0 example.query_node;
                         handoff.Transmitted 1;
                         handoff.Handed 0 0 example.add_all_nodes]
                        [] 0%nat (example.get "/ns/add/nodes" "requestId=7")
                        example.add_all_nodes eq_refl example_handler eq_refl)).
Defined.

(** ** The reporting client *)

Section Client.
Variable E : Env.

(** [Request], by what the network answers. *)
Lemma Request_cases (c : isyns.nsClient) (u : url.URL) :
  isyns.nsClient_Request E c u =
    match isyns.NewRequest E "GET" (URL_String E (ResolveReference E (isyns.BaseURL c) u)) with
    | inr err => ([], isyns.Returns (Some err))
    | inl req =>
        let req := http.SetBasicAuth req (isyns.Username c) (isyns.Password c) in
        match Do E req with
        | http.Responded resp =>
            ([req], isyns.Returns (if 400 <=? http.StatusCode resp
                                   then Some (http.Status resp) else None))
        | http.Failed (Some resp) err => ([req], isyns.Returns (Some err))
        | http.Failed None err => ([req], isyns.Panics)
        end
    end.
Proof.
  unfold isyns.nsClient_Request.
  destruct (isyns.NewRequest E _ _) as [req|err]; [|reflexivity].
  cbv zeta. destruct (Do E _) as [resp|[resp|] err]; simpl; try reflexivity.
  now destruct (400 <=? http.StatusCode resp).
Qed.

(** The earlier revision reads the response only after the error. *)
Lemma server_go_Request_cases (c : isyns.nsClient) (u : url.URL) :
  server_go.nsClient_Request E c u =
    match isyns.NewRequest E "GET" (URL_String E (ResolveReference E (isyns.BaseURL c) u)) with
    | inr err => ([], isyns.Returns (Some err))
    | inl req =>
        let req := http.SetBasicAuth req (isyns.Username c) (isyns.Password c) in
        match Do E req with
        | http.Responded resp =>
            ([req], isyns.Returns (if 400 <=? http.StatusCode resp
                                   then Some (http.Status resp) else None))
        | http.Failed _ err => ([req], isyns.Returns (Some err))
        end
    end.
Proof.
  unfold server_go.nsClient_Request.
  destruct (isyns.NewRequest E _ _) as [req|err]; [|reflexivity].
  cbv zeta. destruct (Do E _) as [resp|[resp|] err]; simpl; try reflexivity.
  now destruct (400 <=? http.StatusCode resp).
Qed.

Lemma Request_calls (c : isyns.nsClient) (u : url.URL) :
  (length (isyns.nsClient_Request E c u).1 <= 1)%nat.
Proof.
  rewrite Request_cases.
  destruct (isyns.NewRequest E _ _) as [req|err]; [|simpl; lia].
  cbv zeta. destruct (Do E _) as [resp|[resp|] err]; simpl; lia.
Qed.

Lemma MakeURL_calls (c : isyns.nsClient) (parts : list string) :
  (isyns.MakeURL E c parts).1 = [].
Proof. unfold isyns.MakeURL. now destruct (url_Parse E _). Qed.

Lemma ReportRequestStatus_eq (c : isyns.nsClient) (id : string) (success : bool) :
  isyns.ReportRequestStatus E c id success =
    isyns.bind (isyns.MakeURL E c ["report"; "status"; id; if success then "success" else "fail"])
               (isyns.nsClient_Request E c).
Proof. unfold isyns.ReportRequestStatus. now destruct success. Qed.





End Client.

(** C4. The claim holds of a status of 400 and above, and fails of a
    transport failure: when [http.DefaultClient.Do] returns a nil
    response and an error, [Request] reads [resp.StatusCode] for its log
    line before it looks at the error, and panics. The earlier revision
    of server.go, which has no log line, returns the error. *)
Theorem transport_failure_panics (E : Env) (c : isyns.nsClient) (u : url.URL)
    (req : http.ClientRequest) (err : string) :
  isyns.NewRequest E "GET" (URL_String E (ResolveReference E (isyns.BaseURL c) u)) = inl req ->
  Do E (http.SetBasicAuth req (isyns.Username c) (isyns.Password c)) = http.Failed None err ->
  isyns.nsClient_Request E c u =
    ([http.SetBasicAuth req (isyns.Username c) (isyns.Password c)], isyns.Panics) /\
  server_go.nsClient_Request E c u =
    ([http.SetBasicAuth req (isyns.Username c) (isyns.Password c)], isyns.Returns (Some err)).
Proof.
  intros Hreq Hdo. rewrite Request_cases, server_go_Request_cases, Hreq.
  cbv zeta. now rewrite Hdo.
Qed.

Lemma transport_failure_panics_witness :
  (isyns.Complete (example.env example.refused)
     {| isyns.id := "r1"; isyns.server := example.server |} true).2 = isyns.Panics /\
  (isyns.AddNode (example.env example.refused) example.server "AA" "dimmer" "" "").2
    = isyns.Panics /\
  (isyns.nsClient_Request (example.env example.refused) example.nsclient example.base).2
    = isyns.Panics.
Proof.
  repeat apply conj; [vm_compute; reflexivity | vm_compute; reflexivity |].
  exact (f_equal snd (proj1 (transport_failure_panics (example.env example.refused)
           example.nsclient example.base
           {| http.cMethod := "GET"; http.cURL := example.base; http.cAuth := None |}
           "dial tcp: connection refused" eq_refl eq_refl))).
Defined.

(** What of C4 holds: an error of [http.NewRequest], an error that comes
    with a response, and a status of 400 and above are returned as
    errors, and no call is repeated. *)
Lemma errors_returned (E : Env) (c : isyns.nsClient) (u : url.URL) :
  (forall err,
      isyns.NewRequest E "GET" (URL_String E (ResolveReference E (isyns.BaseURL c) u)) = inr err ->
      isyns.nsClient_Request E c u = ([], isyns.Returns (Some err))) /\
  (forall req resp,
      isyns.NewRequest E "GET" (URL_String E (ResolveReference E (isyns.BaseURL c) u)) = inl req ->
      Do E (http.SetBasicAuth req (isyns.Username c) (isyns.Password c)) = http.Responded resp ->
      400 <= http.StatusCode resp ->
      isyns.nsClient_Request E c u =
        ([http.SetBasicAuth req (isyns.Username c) (isyns.Password c)],
         isyns.Returns (Some (http.Status resp)))) /\
  (forall req resp err,
      isyns.NewRequest E "GET" (URL_String E (ResolveReference E (isyns.BaseURL c) u)) = inl req ->
      Do E (http.SetBasicAuth req (isyns.Username c) (isyns.Password c)) = http.Failed (Some resp) err ->
      isyns.nsClient_Request E c u =
        ([http.SetBasicAuth req (isyns.Username c) (isyns.Password c)],
         isyns.Returns (Some err))) /\
  (length (isyns.nsClient_Request E c u).1 <= 1)%nat.
Proof.
  repeat apply conj.
  - intros err H. now rewrite Request_cases, H.
  - intros req resp Hreq Hdo Hst. rewrite Request_cases, Hreq. cbv zeta. rewrite Hdo.
    now destruct (Z.leb_spec 400 (http.StatusCode resp)); [|lia].
  - intros req resp err Hreq Hdo. rewrite Request_cases, Hreq. cbv zeta. now rewrite Hdo.
  - apply Request_calls.
Qed.



(** ** Further properties of the specification *)

(** A path that no route matches is answered "Not Found" (past the
    credential guard), and nothing is handed off. *)
Theorem unmatched_path_not_found (E : Env) (s : isyns.Server) (r : http.Request) :
  mux.Match isyns.router (url.Path (http.URL r)) = None ->
  spec.handed_off (isyns.handler E s r) = [] /\
  (spec.credentials_match E s r -> isyns.handler E s r = spec.not_found).
Proof. apply unrouted. Qed.

Lemma unmatched_path_not_found_witness :
  isyns.handler (example.env example.ok) example.server (example.get "/ns/nodes" "")
  = spec.not_found.
Proof.
  exact (proj2 (unmatched_path_not_found (example.env example.ok) example.server
                  (example.get "/ns/nodes" "") eq_refl)
               (example_credentials _ _ _)).
Defined.

(** Every request that is handed off carries the server that decoded it,
    which is what [Complete] reports through, and the correlation id of
    the call: the first value of [requestId], empty when there is none. *)
Theorem handed_off_completion (E : Env) (s : isyns.Server) (r : http.Request)
    (req : isyns.Request) :
  req ∈ spec.handed_off (isyns.handler E s r) ->
  isyns.server (isyns.requestSigil req) = s /\
  isyns.ID req = url.Get (url.Query (http.URL r)) "requestId".
Proof.
  intros Hin.
  destruct (handler_shape E s r) as [H | [H | (m & req' & _ & _ & Hd & H)]];
    rewrite H in Hin; simpl in Hin; try (now apply elem_of_nil in Hin).
  apply list_elem_of_singleton in Hin as ->.
  assert (Hsig : isyns.requestSigil req' = isyns.makeCommonReq s r).
  { revert Hd. unfold isyns.decode.
    repeat match goal with
    | |- context [String.eqb ?a ?b] => destruct (String.eqb a b)
    end; try (intros [= <-]; reflexivity); try discriminate.
    destruct (strconv.Atoi _); [intros [= <-]; reflexivity | discriminate]. }
  unfold isyns.ID. now rewrite Hsig.
Qed.

Lemma handed_off_completion_witness :
  isyns.server (isyns.requestSigil example.add_all_nodes) = example.new_server /\
  isyns.ID example.add_all_nodes = "7".
Proof.
  refine (handed_off_completion (example.env example.ok) example.new_server
            (example.get "/ns/add/nodes" "requestId=7") example.add_all_nodes _).
  rewrite example_handler. simpl. left.
Defined.

(* ===================================================================== *)
(** * Part IV: further properties of the code *)
(* ===================================================================== *)

(** ** The route table *)

Section RouteTable.

Lemma exclusive_sym (t1 t2 : list mux.segment) :
  routes.exclusive t1 t2 = routes.exclusive t2 t1.
Proof.
  revert t2; induction t1 as [|a t1 IH]; intros [|b t2]; simpl; try reflexivity.
  rewrite IH. f_equal. destruct a, b; simpl; try reflexivity.
  f_equal. apply String.eqb_sym.
Qed.

Lemma exclusive_no_common_match (t1 t2 : list mux.segment) (p : list string)
    (v1 v2 : gmap string string) :
  routes.exclusive t1 t2 = true ->
  is_Some (mux.match_segments t1 p v1) -> mux.match_segments t2 p v2 = None.
Proof.
  revert t2 p v1 v2; induction t1 as [|a t1 IH]; intros [|b t2] p v1 v2 Hex [w Hm];
    simpl in Hex; try discriminate.
  - destruct p; [now destruct b | discriminate].
  - destruct p; [now destruct a | reflexivity].
  - destruct p as [|x p]; [now destruct b|].
    assert (Hrest : forall u1 u2, mux.match_segments t1 p u1 = Some w ->
              routes.exclusive t1 t2 = true -> mux.match_segments t2 p u2 = None)
      by (intros; eapply IH; eauto).
    destruct a as [sa|na], b as [sb|nb]; simpl in *.
    + destruct (String.eqb_spec sa x) as [->|]; [|discriminate].
      destruct (String.eqb_spec sb x) as [->|]; [|reflexivity].
      rewrite String.eqb_refl in Hex. eauto.
    + destruct (String.eqb sa x); [|discriminate].
      destruct x; [reflexivity|]. eauto.
    + destruct x; [discriminate|].
      destruct (String.eqb sb _); [|reflexivity]. eauto.
    + destruct x; [discriminate|]. eauto.
Qed.

Lemma Match_compiled_Some (rs : list (list mux.segment * string)) (p : list string)
    (t : list mux.segment) (n : string) (vars : gmap string string) :
  (t, n) ∈ rs -> mux.match_segments t p ∅ = Some vars ->
  is_Some (mux.Match_compiled rs p).
Proof.
  induction rs as [|[t' n'] rs IH]; intros Hin Hm; [now apply elem_of_nil in Hin|].
  simpl. destruct (mux.match_segments t' p ∅) eqn:Hm'; [eauto|].
  apply elem_of_cons in Hin as [[= <- <-]|Hin]; [congruence | eauto].
Qed.

(** With patterns that exclude each other, the router finds the one
    route that matches, wherever it stands in the list. *)
Lemma Match_compiled_first (rs : list (list mux.segment * string)) (p : list string)
    (t : list mux.segment) (n : string) (vars : gmap string string) :
  routes.pairwise_exclusive rs = true ->
  (t, n) ∈ rs -> mux.match_segments t p ∅ = Some vars ->
  mux.Match_compiled rs p = Some {| mux.Route_name := n; mux.Vars := vars |}.
Proof.
  induction rs as [|[t' n'] rs IH]; intros Hex Hin Hm; [now apply elem_of_nil in Hin|].
  simpl in Hex. apply andb_true_iff in Hex as [Hhead Htail].
  apply elem_of_cons in Hin as [[= <- <-]|Hin]; simpl.
  - now rewrite Hm.
  - rewrite forallb_forall in Hhead.
    assert (Hx : routes.exclusive t t' = true).
    { rewrite exclusive_sym. apply (Hhead (t, n)). now apply list_elem_of_In. }
    rewrite (exclusive_no_common_match t t' p ∅ ∅ Hx) by now rewrite Hm.
    now apply IH.
Qed.

Lemma Match_compiled_elem (rs : list (list mux.segment * string)) (p : list string)
    (m : mux.RouteMatch) :
  mux.Match_compiled rs p = Some m ->
  exists t, (t, mux.Route_name m) ∈ rs /\ mux.match_segments t p ∅ = Some (mux.Vars m).
Proof.
  induction rs as [|[t n] rs IH]; simpl; [discriminate|].
  destruct (mux.match_segments t p ∅) as [vars|] eqn:Hm.
  - intros [= <-]. exists t. split; [left | exact Hm].
  - intros H. destruct (IH H) as (t' & Hin & Hm'). exists t'. split; [now right | exact Hm'].
Qed.

Lemma router_exclusive :
  routes.pairwise_exclusive (mux.compile <$> isyns.router) = true /\
  routes.pairwise_exclusive (mux.compile <$> server_go.router) = true.
Proof. split; vm_compute; reflexivity. Qed.

End RouteTable.

(** The routes of [init] exclude each other: no path matches the
    patterns of two of them, so the route found for a path does not
    depend on the order in which the routes are registered. Both
    revisions of server.go. *)
Theorem route_order_irrelevant (routes' : list mux.Route) (path : string) :
  (routes' ≡ₚ isyns.router -> mux.Match routes' path = mux.Match isyns.router path) /\
  (routes' ≡ₚ server_go.router -> mux.Match routes' path = mux.Match server_go.router path).
Proof.
  assert (Hgen : forall rs rs' : list mux.Route,
             routes.pairwise_exclusive (mux.compile <$> rs) = true ->
             rs' ≡ₚ rs -> mux.Match rs' path = mux.Match rs path).
  { intros rs rs' Hex Hp. unfold mux.Match.
    assert (Hp' : mux.compile <$> rs' ≡ₚ mux.compile <$> rs) by now rewrite Hp.
    set (p := gostring.split_on "/" path).
    destruct (mux.Match_compiled (mux.compile <$> rs') p) as [m|] eqn:Hm.
    - apply Match_compiled_elem in Hm as (t & Hin & Hm). rewrite Hp' in Hin.
      symmetry. destruct m as [n vars]. now apply (Match_compiled_first _ p t).
    - destruct (mux.Match_compiled (mux.compile <$> rs) p) as [m|] eqn:Hm'; [|reflexivity].
      apply Match_compiled_elem in Hm' as (t & Hin & Hm'). rewrite <- Hp' in Hin.
      destruct (Match_compiled_Some _ p t _ _ Hin Hm') as [m' Hm'']. congruence. }
  split; apply Hgen; apply router_exclusive.
Qed.

(** ** From a path to a request *)

Ltac match_route R :=
  compile_router R;
  (rewrite split_on_join; [|done|repeat constructor; assumption]);
  repeat match goal with
         | H : ?a <> "" |- _ => destruct a; [done|]; clear H
         end;
  reflexivity.

Section RouteShapes.

Lemma Match_install n :
  spec.segment_ok n ->
  mux.Match isyns.router (gostring.join "/" [""; "ns"; "install"; n]) =
  Some {| mux.Route_name := "install"; mux.Vars := <["profileNum" := n]> ∅ |}.
Proof. intros [Hn Hn']. match_route isyns.router. Qed.

Lemma Match_node_route (a : string) (leaf name : string) :
  (leaf, name) ∈ [("query", "nodeQuery"); ("status", "nodeStatus")] ->
  spec.segment_ok a ->
  mux.Match isyns.router (gostring.join "/" [""; "ns"; "nodes"; a; leaf]) =
  Some {| mux.Route_name := name; mux.Vars := <["nodeAddr" := a]> ∅ |}.
Proof.
  intros Hl [Ha Ha'].
  repeat (apply elem_of_cons in Hl as [[= -> ->]|Hl]; [match_route isyns.router|]).
  now apply elem_of_nil in Hl.
Qed.

Lemma Match_report_route (a : string) (leaf name : string) :
  (leaf, name) ∈ [("remove", "removeNode"); ("rename", "renameNode");
                  ("enable", "enableNode"); ("disable", "disableNode")] ->
  spec.segment_ok a ->
  mux.Match isyns.router (gostring.join "/" [""; "ns"; "nodes"; a; "report"; leaf]) =
  Some {| mux.Route_name := name; mux.Vars := <["nodeAddr" := a]> ∅ |}.
Proof.
  intros Hl [Ha Ha'].
  repeat (apply elem_of_cons in Hl as [[= -> ->]|Hl]; [match_route isyns.router|]).
  now apply elem_of_nil in Hl.
Qed.

Lemma Match_add_route a d :
  spec.segment_ok a -> spec.segment_ok d ->
  mux.Match isyns.router (gostring.join "/" [""; "ns"; "nodes"; a; "report"; "add"; d]) =
  Some {| mux.Route_name := "addNode";
          mux.Vars := <["nodeDefId" := d]> (<["nodeAddr" := a]> ∅) |}.
Proof. intros [Ha Ha'] [Hd Hd']. match_route isyns.router. Qed.

Lemma Match_cmd_route a c :
  spec.segment_ok a -> spec.segment_ok c ->
  mux.Match isyns.router (gostring.join "/" [""; "ns"; "nodes"; a; "cmd"; c]) =
  Some {| mux.Route_name := "nodeCommand";
          mux.Vars := <["command" := c]> (<["nodeAddr" := a]> ∅) |}.
Proof. intros [Ha Ha'] [Hc Hc']. match_route isyns.router. Qed.

Lemma Match_value_route a c v :
  spec.segment_ok a -> spec.segment_ok c -> spec.segment_ok v ->
  mux.Match isyns.router (gostring.join "/" [""; "ns"; "nodes"; a; "cmd"; c; v]) =
  Some {| mux.Route_name := "nodeCommandValue";
          mux.Vars := <["value" := v]> (<["command" := c]> (<["nodeAddr" := a]> ∅)) |}.
Proof. intros [Ha Ha'] [Hc Hc'] [Hv Hv']. match_route isyns.router. Qed.

End RouteShapes.

Section EndToEnd.
Variable E : Env.
Variable s : isyns.Server.

Lemma parseAddr_formatAddr (x : string) :
  isyns.parseAddr s (isyns.formatAddr s x) = x.
Proof.
  unfold isyns.parseAddr, isyns.formatAddr.
  now rewrite HasPrefix_app, slice_from_app.
Qed.

End EndToEnd.

Ltac decode_route :=
  unfold isyns.decode; cbn [mux.Route_name String.eqb Ascii.eqb Bool.eqb];
  unfold mux.Var; cbn [mux.Vars];
  repeat first [rewrite lookup_insert_eq | rewrite lookup_insert_ne by done];
  cbn [from_option id].

(** What the node routes deliver. A call with the server's credentials
    whose path names a node by its address on the wire, the address [x]
    behind the server's prefix, is acknowledged and handed off with the
    address [x] itself: Query, Status, Remove, Rename (with the first
    value of [name], empty when it is missing), Enable and Disable (one
    request type, told apart by [Enabled]) and Add (with the definition
    id of the path, the first value of [primary] without the prefix and
    the first value of [name]). *)
Theorem node_routes_deliver (E : Env) (s : isyns.Server) (r : http.Request) (x : string) :
  spec.credentials_match E s r ->
  spec.segment_ok (isyns.formatAddr s x) ->
  let c := isyns.makeCommonReq s r in
  let q := url.Query (http.URL r) in
  let node rest := gostring.join "/" ([""; "ns"; "nodes"; isyns.formatAddr s x] ++ rest) in
  (url.Path (http.URL r) = node ["query"] ->
   isyns.handler E s r = spec.acknowledged s (isyns.NodeQueryRequest c x)) /\
  (url.Path (http.URL r) = node ["status"] ->
   isyns.handler E s r = spec.acknowledged s (isyns.NodeStatusValuesRequest c x)) /\
  (url.Path (http.URL r) = node ["report"; "remove"] ->
   isyns.handler E s r = spec.acknowledged s (isyns.RemoveNodeRequest c x)) /\
  (url.Path (http.URL r) = node ["report"; "rename"] ->
   isyns.handler E s r =
     spec.acknowledged s (isyns.RenameNodeRequest c x (url.Get q "name"))) /\
  (url.Path (http.URL r) = node ["report"; "enable"] ->
   isyns.handler E s r = spec.acknowledged s (isyns.EnableNodeRequest c x true)) /\
  (url.Path (http.URL r) = node ["report"; "disable"] ->
   isyns.handler E s r = spec.acknowledged s (isyns.EnableNodeRequest c x false)) /\
  (forall d, spec.segment_ok d ->
   url.Path (http.URL r) = node ["report"; "add"; d] ->
   isyns.handler E s r =
     spec.acknowledged s
       (isyns.AddNodeRequest c x d (isyns.parseAddr s (url.Get q "primary"))
          (url.Get q "name"))).
Proof.
  intros Hc Hx c q node. subst node. cbn [app].
  rewrite (handler_authorized E s r Hc).
  repeat apply conj; try intros d Hd; intros ->.
  - rewrite (Match_node_route _ "query" "nodeQuery") by (done || set_solver).
    decode_route. now rewrite parseAddr_formatAddr.
  - rewrite (Match_node_route _ "status" "nodeStatus") by (done || set_solver).
    decode_route. now rewrite parseAddr_formatAddr.
  - rewrite (Match_report_route _ "remove" "removeNode") by (done || set_solver).
    decode_route. now rewrite parseAddr_formatAddr.
  - rewrite (Match_report_route _ "rename" "renameNode") by (done || set_solver).
    decode_route. now rewrite parseAddr_formatAddr.
  - rewrite (Match_report_route _ "enable" "enableNode") by (done || set_solver).
    decode_route. now rewrite parseAddr_formatAddr.
  - rewrite (Match_report_route _ "disable" "disableNode") by (done || set_solver).
    decode_route. now rewrite parseAddr_formatAddr.
  - rewrite Match_add_route by done.
    decode_route. now rewrite parseAddr_formatAddr.
Qed.

Lemma node_routes_deliver_witness :
  isyns.handler (example.env example.ok) example.server
    (example.get "/ns/nodes/n001_AA/report/rename" "name=Hall&requestId=7") =
  spec.acknowledged example.server
    (isyns.RenameNodeRequest {| isyns.id := "7"; isyns.server := example.server |}
       "AA" "Hall").
Proof.
  refine (proj1 (proj2 (proj2 (proj2
            (node_routes_deliver (example.env example.ok) example.server
               (example.get "/ns/nodes/n001_AA/report/rename" "name=Hall&requestId=7")
               "AA" (example_credentials _ _ _) _)))) eq_refl).
  split; [discriminate | reflexivity].
Defined.

(** What the command routes deliver: the unprefixed address, the command
    of the path, the parameters of the query, and a primary parameter
    that is absent for [cmd/{command}], has the value of the path and the
    unit left at zero for [cmd/{command}/{value}], and has the value and
    the parsed unit for [cmd/{command}/{value}/{unit}]. *)
Theorem command_routes_deliver (E : Env) (s : isyns.Server) (r : http.Request)
    (x cmd : string) :
  spec.credentials_match E s r ->
  spec.segment_ok (isyns.formatAddr s x) ->
  spec.segment_ok cmd ->
  let c := isyns.makeCommonReq s r in
  let params := isyns.makeCommandParams E s r in
  let command rest :=
    gostring.join "/" ([""; "ns"; "nodes"; isyns.formatAddr s x; "cmd"; cmd] ++ rest) in
  (url.Path (http.URL r) = command [] ->
   isyns.handler E s r =
     spec.acknowledged s (isyns.CommandRequest c x cmd None params)) /\
  (forall v, spec.segment_ok v ->
   url.Path (http.URL r) = command [v] ->
   isyns.handler E s r =
     spec.acknowledged s
       (isyns.CommandRequest c x cmd (Some {| isyns.Value := v; isyns.UOM := 0 |}) params)) /\
  (forall v u n, spec.segment_ok v -> spec.segment_ok u ->
   strconv.Atoi u = Some n ->
   url.Path (http.URL r) = command [v; u] ->
   isyns.handler E s r =
     spec.acknowledged s
       (isyns.CommandRequest c x cmd (Some {| isyns.Value := v; isyns.UOM := n |}) params)).
Proof.
  intros Hc Hx Hcmd c params command. subst command. cbn [app].
  rewrite (handler_authorized E s r Hc).
  repeat apply conj.
  - intros ->. rewrite Match_cmd_route by done.
    decode_route. now rewrite parseAddr_formatAddr.
  - intros v Hv ->. rewrite Match_value_route by done.
    decode_route. now rewrite parseAddr_formatAddr.
  - intros v u n Hv Hu Hn ->. rewrite Match_unit_route by done.
    decode_route. now rewrite Hn, parseAddr_formatAddr.
Qed.

Lemma command_routes_deliver_witness :
  isyns.handler (example.env example.ok) example.server
    (example.get "/ns/nodes/n001_AA/cmd/DON/100" "") =
  spec.acknowledged example.server
    (isyns.CommandRequest {| isyns.id := ""; isyns.server := example.server |}
       "AA" "DON" (Some {| isyns.Value := "100"; isyns.UOM := 0 |}) None).
Proof.
  refine (proj1 (proj2
            (command_routes_deliver (example.env example.ok) example.server
               (example.get "/ns/nodes/n001_AA/cmd/DON/100" "")
               "AA" "DON" (example_credentials _ _ _) _ _)) "100" _ eq_refl);
    split; (discriminate || reflexivity).
Defined.

(** The install route takes any profile number: the segment after
    [/ns/install/] is matched and then ignored, so the request is handed
    off whether or not the segment is the number of the server's profile,
    or a number at all. *)
Theorem install_any_profile (E : Env) (s : isyns.Server) (r : http.Request) (n : string) :
  spec.credentials_match E s r ->
  spec.segment_ok n ->
  url.Path (http.URL r) = gostring.join "/" [""; "ns"; "install"; n] ->
  isyns.handler E s r = spec.acknowledged s (isyns.InstallRequest (isyns.makeCommonReq s r)).
Proof.
  intros Hc Hn Hp. rewrite (handler_authorized E s r Hc), Hp, Match_install by done.
  reflexivity.
Qed.

Lemma install_any_profile_witness :
  isyns.handler (example.env example.ok) example.server
    (example.get "/ns/install/other" "") =
  spec.acknowledged example.server
    (isyns.InstallRequest {| isyns.id := ""; isyns.server := example.server |}).
Proof.
  refine (install_any_profile (example.env example.ok) example.server
            (example.get "/ns/install/other" "") "other"
            (example_credentials _ _ _) _ eq_refl).
  split; [discriminate | reflexivity].
Defined.

(** ** From a request to its path *)

Section Inversion.

Lemma split_on_cons (sep : ascii) (s : string) :
  exists p ps, gostring.split_on sep s = p :: ps.
Proof.
  destruct s as [|c s]; simpl; [eauto|].
  destruct (Ascii.eqb c sep); [eauto|]. destruct (gostring.split_on sep s); eauto.
Qed.

Lemma join_cons (sep : ascii) (p q : string) (ps : list string) :
  gostring.join sep (p :: q :: ps) = p +:+ String sep (gostring.join sep (q :: ps)).
Proof. reflexivity. Qed.

Lemma join_split (sep : ascii) (s : string) :
  gostring.join sep (gostring.split_on sep s) = s.
Proof.
  induction s as [|c s IH]; [reflexivity|]. simpl.
  destruct (split_on_cons sep s) as (p & ps & Hs). rewrite Hs in IH |- *.
  destruct (Ascii.eqb_spec c sep) as [->|Hne].
  - rewrite join_cons, IH. now rewrite append_Empty.
  - destruct ps as [|q ps].
    + simpl in IH |- *. now rewrite IH.
    + rewrite join_cons in IH |- *. rewrite append_String. now rewrite IH.
Qed.

Lemma split_on_no_sep (sep : ascii) (s : string) :
  Forall (fun p => gostring.contains_byte sep p = false) (gostring.split_on sep s).
Proof.
  induction s as [|c s IH]; [repeat constructor|]. simpl.
  destruct (Ascii.eqb_spec c sep) as [->|Hne]; [now constructor|].
  destruct (gostring.split_on sep s) as [|p ps]; [repeat constructor; simpl|].
  - apply orb_false_iff. split; [now apply Ascii.eqb_neq | reflexivity].
  - apply Forall_cons in IH as [Hp Hps]. constructor; [|exact Hps].
    simpl. rewrite Hp. apply orb_false_iff. split; [now apply Ascii.eqb_neq | reflexivity].
Qed.

Lemma match_var_step {A} (x : string) (K : option A) (v : A) :
  match x with EmptyString => None | String _ _ => K end = Some v ->
  x <> "" /\ K = Some v.
Proof. destruct x; [discriminate | intros H; split; [discriminate | exact H]]. Qed.

End Inversion.

Lemma match_lit (l : string) t x p v :
  mux.match_segments (mux.lit l :: t) (x :: p) v =
  if String.eqb l x then mux.match_segments t p v else None.
Proof. reflexivity. Qed.

Lemma match_var (n : string) t x p v :
  mux.match_segments (mux.var n :: t) (x :: p) v =
  match x with
  | EmptyString => None
  | String _ _ => mux.match_segments t p (<[n := x]> v)
  end.
Proof. now destruct x. Qed.

(** Finds the segments of a path from the match of a compiled pattern. *)
Ltac invert_match H :=
  repeat lazymatch type of H with
  | mux.match_segments [] ?p _ = _ =>
      destruct p; [|discriminate H]
  | mux.match_segments (mux.lit _ :: _) (_ :: _) _ = _ => rewrite match_lit in H
  | mux.match_segments (mux.var _ :: _) (_ :: _) _ = _ => rewrite match_var in H
  | mux.match_segments (_ :: _) ?p _ = _ =>
      destruct p as [|? ?]; [discriminate H|]
  | (if String.eqb ?a ?b then _ else _) = _ =>
      destruct (String.eqb_spec a b) as [?|?]; [subst|discriminate H]
  | match ?x with EmptyString => None | String _ _ => _ end = _ =>
      let Hx := fresh "Hne" in apply match_var_step in H as [Hx H]
  end;
  cbn [mux.match_segments] in H.

(** Reads the variables of a decoded route. *)
Ltac read_vars Hv :=
  unfold mux.Var; rewrite <- Hv;
  repeat first [rewrite lookup_insert_eq | rewrite lookup_insert_ne by done];
  cbn [from_option id].

(** The only way to each request. Whatever the handler hands off came in
    with the server's credentials on the path of its route, every
    variable segment non-empty and without a slash: the request types
    are told apart by the path alone, Enable from Disable by the last
    segment, and the primary parameter of a Command is absent, without
    unit or with unit by the number of segments after the command. The
    node address delivered is the segment of the path without the
    server's prefix. *)
Theorem handed_off_by_route (E : Env) (s : isyns.Server) (r : http.Request)
    (req : isyns.Request) :
  req ∈ spec.handed_off (isyns.handler E s r) ->
  let path := url.Path (http.URL r) in
  let q := url.Query (http.URL r) in
  let ns rest := gostring.join "/" ("" :: "ns" :: rest) in
  spec.credentials_match E s r /\
  match req with
  | isyns.InstallRequest _ =>
      exists n, spec.segment_ok n /\ path = ns ["install"; n]
  | isyns.NodeQueryRequest _ a =>
      exists w, spec.segment_ok w /\ a = isyns.parseAddr s w /\
                path = ns ["nodes"; w; "query"]
  | isyns.NodeStatusValuesRequest _ a =>
      exists w, spec.segment_ok w /\ a = isyns.parseAddr s w /\
                path = ns ["nodes"; w; "status"]
  | isyns.AddAllNodesRequest _ => path = ns ["add"; "nodes"]
  | isyns.AddNodeRequest _ a d primary name =>
      exists w, spec.segment_ok w /\ spec.segment_ok d /\ a = isyns.parseAddr s w /\
                primary = isyns.parseAddr s (url.Get q "primary") /\
                name = url.Get q "name" /\
                path = ns ["nodes"; w; "report"; "add"; d]
  | isyns.RemoveNodeRequest _ a =>
      exists w, spec.segment_ok w /\ a = isyns.parseAddr s w /\
                path = ns ["nodes"; w; "report"; "remove"]
  | isyns.RenameNodeRequest _ a name =>
      exists w, spec.segment_ok w /\ a = isyns.parseAddr s w /\
                name = url.Get q "name" /\
                path = ns ["nodes"; w; "report"; "rename"]
  | isyns.EnableNodeRequest _ a enabled =>
      exists w, spec.segment_ok w /\ a = isyns.parseAddr s w /\
                path = ns ["nodes"; w; "report"; if enabled then "enable" else "disable"]
  | isyns.CommandRequest _ a cmd param params =>
      exists w, spec.segment_ok w /\ spec.segment_ok cmd /\ a = isyns.parseAddr s w /\
                params = isyns.makeCommandParams E s r /\
                match param with
                | None => path = ns ["nodes"; w; "cmd"; cmd]
                | Some p =>
                    spec.segment_ok (isyns.Value p) /\
                    ((isyns.UOM p = 0 /\ path = ns ["nodes"; w; "cmd"; cmd; isyns.Value p]) \/
                     exists u, spec.segment_ok u /\ strconv.Atoi u = Some (isyns.UOM p) /\
                               path = ns ["nodes"; w; "cmd"; cmd; isyns.Value p; u])
                end
  end.
Proof.
  intros Hin path q ns.
  destruct (handler_shape E s r) as [H | [H | (m & req' & Hc & Hm & Hd & H)]];
    rewrite H in Hin; simpl in Hin; try (now apply elem_of_nil in Hin).
  apply list_elem_of_singleton in Hin as ->.
  split; [exact Hc|].
  unfold mux.Match in Hm.
  let v := eval vm_compute in (mux.compile <$> isyns.router) in
    change (mux.compile <$> isyns.router) with v in Hm.
  apply Match_compiled_elem in Hm as (t & Hin & Hm).
  pose proof (join_split "/" path) as Hpath.
  pose proof (split_on_no_sep "/" path) as Hslash.
  fold path in Hm. destruct (gostring.split_on "/" path) as [|p0 p] eqn:Hsplit.
  { destruct (split_on_cons "/" path) as (? & ? & ?). congruence. }
  repeat (apply elem_of_cons in Hin as [Heq|Hin];
          [injection Heq as -> Hname; invert_match Hm; injection Hm as Hv;
           revert Hd; unfold isyns.decode; rewrite Hname;
           cbn [String.eqb Ascii.eqb Bool.eqb];
           try read_vars Hv|]);
    try (now apply elem_of_nil in Hin).
  all: try (destruct (strconv.Atoi _) eqn:Hu; [|discriminate]).
  all: intros [= <-]; subst ns; cbv beta; rewrite <- Hpath.
  all: repeat match goal with
       | H : Forall _ (_ :: _) |- _ => apply Forall_cons in H as [? H]
       end.
  all: unfold spec.segment_ok; cbn [isyns.Value isyns.UOM].
  all: try (eexists; repeat apply conj; try reflexivity; assumption).
  - eexists; repeat apply conj; try reflexivity; try assumption.
    left. split; reflexivity.
  - eexists; repeat apply conj; try reflexivity; try assumption.
    right. eexists. repeat apply conj; try reflexivity; try eassumption.
Qed.

Lemma handed_off_by_route_witness :
  spec.credentials_match (example.env example.ok) example.new_server
    (example.get "/ns/add/nodes" "requestId=7") /\
  url.Path (http.URL (example.get "/ns/add/nodes" "requestId=7")) =
    gostring.join "/" [""; "ns"; "add"; "nodes"].
Proof.
  refine (handed_off_by_route (example.env example.ok) example.new_server
            (example.get "/ns/add/nodes" "requestId=7") example.add_all_nodes _).
  rewrite example_handler. simpl. left.
Defined.

(** ** The earlier revision *)

Ltac server_go_decode_route :=
  unfold server_go.decode; cbn [mux.Route_name String.eqb Ascii.eqb Bool.eqb];
  unfold mux.Var; cbn [mux.Vars];
  repeat first [rewrite lookup_insert_eq | rewrite lookup_insert_ne by done];
  cbn [from_option id].

Section EarlierRoutes.

Lemma server_go_Match_leaf (a leaf name : string) :
  (leaf, name) ∈ [("query", "nodeQuery"); ("status", "nodeStatus")] ->
  spec.segment_ok a ->
  mux.Match server_go.router (gostring.join "/" [""; "nodes"; a; leaf]) =
  Some {| mux.Route_name := name; mux.Vars := <["nodeAddr" := a]> ∅ |}.
Proof.
  intros Hl [Ha Ha'].
  repeat (apply elem_of_cons in Hl as [[= -> ->]|Hl]; [match_route server_go.router|]).
  now apply elem_of_nil in Hl.
Qed.

Lemma server_go_Match_report (a leaf name : string) :
  (leaf, name) ∈ [("remove", "removeNode"); ("rename", "renameNode");
                  ("enable", "enableNode"); ("disable", "disableNode")] ->
  spec.segment_ok a ->
  mux.Match server_go.router (gostring.join "/" [""; "nodes"; a; "report"; leaf]) =
  Some {| mux.Route_name := name; mux.Vars := <["nodeAddr" := a]> ∅ |}.
Proof.
  intros Hl [Ha Ha'].
  repeat (apply elem_of_cons in Hl as [[= -> ->]|Hl]; [match_route server_go.router|]).
  now apply elem_of_nil in Hl.
Qed.

Lemma server_go_Match_add a d :
  spec.segment_ok a -> spec.segment_ok d ->
  mux.Match server_go.router (gostring.join "/" [""; "nodes"; a; "report"; "add"; d]) =
  Some {| mux.Route_name := "addNode";
          mux.Vars := <["nodeDefId" := d]> (<["nodeAddr" := a]> ∅) |}.
Proof. intros [Ha Ha'] [Hd Hd']. match_route server_go.router. Qed.

Lemma server_go_Match_cmd a c :
  spec.segment_ok a -> spec.segment_ok c ->
  mux.Match server_go.router (gostring.join "/" [""; "nodes"; a; "cmd"; c]) =
  Some {| mux.Route_name := "nodeCommand";
          mux.Vars := <["command" := c]> (<["nodeAddr" := a]> ∅) |}.
Proof. intros [Ha Ha'] [Hc Hc']. match_route server_go.router. Qed.

Lemma server_go_Match_value a c v :
  spec.segment_ok a -> spec.segment_ok c -> spec.segment_ok v ->
  mux.Match server_go.router (gostring.join "/" [""; "nodes"; a; "cmd"; c; v]) =
  Some {| mux.Route_name := "nodeCommandValue";
          mux.Vars := <["value" := v]> (<["command" := c]> (<["nodeAddr" := a]> ∅)) |}.
Proof. intros [Ha Ha'] [Hc Hc'] [Hv Hv']. match_route server_go.router. Qed.

End EarlierRoutes.

(** The earlier revision of the server, in isyns/server.go, has the same
    routes without the leading [/ns] and knows no address prefix: the
    node address and the primary address are delivered as they are
    written in the call. *)
Theorem server_go_routes_deliver (E : Env) (s : isyns.Server) (r : http.Request)
    (a : string) :
  spec.credentials_match E s r ->
  spec.segment_ok a ->
  let c := isyns.makeCommonReq s r in
  let q := url.Query (http.URL r) in
  let params := isyns.makeCommandParams E s r in
  let node rest := gostring.join "/" ([""; "nodes"; a] ++ rest) in
  (url.Path (http.URL r) = node ["query"] ->
   server_go.handler E s r = spec.acknowledged s (isyns.NodeQueryRequest c a)) /\
  (url.Path (http.URL r) = node ["status"] ->
   server_go.handler E s r = spec.acknowledged s (isyns.NodeStatusValuesRequest c a)) /\
  (url.Path (http.URL r) = node ["report"; "remove"] ->
   server_go.handler E s r = spec.acknowledged s (isyns.RemoveNodeRequest c a)) /\
  (url.Path (http.URL r) = node ["report"; "rename"] ->
   server_go.handler E s r =
     spec.acknowledged s (isyns.RenameNodeRequest c a (url.Get q "name"))) /\
  (url.Path (http.URL r) = node ["report"; "enable"] ->
   server_go.handler E s r = spec.acknowledged s (isyns.EnableNodeRequest c a true)) /\
  (url.Path (http.URL r) = node ["report"; "disable"] ->
   server_go.handler E s r = spec.acknowledged s (isyns.EnableNodeRequest c a false)) /\
  (forall d, spec.segment_ok d ->
   url.Path (http.URL r) = node ["report"; "add"; d] ->
   server_go.handler E s r =
     spec.acknowledged s
       (isyns.AddNodeRequest c a d (url.Get q "primary") (url.Get q "name"))) /\
  (forall cmd, spec.segment_ok cmd ->
   url.Path (http.URL r) = node ["cmd"; cmd] ->
   server_go.handler E s r =
     spec.acknowledged s (isyns.CommandRequest c a cmd None params)) /\
  (forall cmd v, spec.segment_ok cmd -> spec.segment_ok v ->
   url.Path (http.URL r) = node ["cmd"; cmd; v] ->
   server_go.handler E s r =
     spec.acknowledged s
       (isyns.CommandRequest c a cmd (Some {| isyns.Value := v; isyns.UOM := 0 |}) params)) /\
  (forall cmd v u n, spec.segment_ok cmd -> spec.segment_ok v -> spec.segment_ok u ->
   strconv.Atoi u = Some n ->
   url.Path (http.URL r) = node ["cmd"; cmd; v; u] ->
   server_go.handler E s r =
     spec.acknowledged s
       (isyns.CommandRequest c a cmd (Some {| isyns.Value := v; isyns.UOM := n |}) params)).
Proof.
  intros Hc Ha c q params node. subst node. cbn [app].
  rewrite (server_go_handler_authorized E s r Hc).
  repeat apply conj.
  - intros ->. rewrite (server_go_Match_leaf _ "query" "nodeQuery") by (done || set_solver).
    now server_go_decode_route.
  - intros ->. rewrite (server_go_Match_leaf _ "status" "nodeStatus") by (done || set_solver).
    now server_go_decode_route.
  - intros ->. rewrite (server_go_Match_report _ "remove" "removeNode") by (done || set_solver).
    now server_go_decode_route.
  - intros ->. rewrite (server_go_Match_report _ "rename" "renameNode") by (done || set_solver).
    now server_go_decode_route.
  - intros ->. rewrite (server_go_Match_report _ "enable" "enableNode") by (done || set_solver).
    now server_go_decode_route.
  - intros ->. rewrite (server_go_Match_report _ "disable" "disableNode") by (done || set_solver).
    now server_go_decode_route.
  - intros d Hd ->. rewrite server_go_Match_add by done. now server_go_decode_route.
  - intros cmd Hcmd ->. rewrite server_go_Match_cmd by done. now server_go_decode_route.
  - intros cmd v Hcmd Hv ->. rewrite server_go_Match_value by done. now server_go_decode_route.
  - intros cmd v u n Hcmd Hv Hu Hn ->. rewrite server_go_Match_unit_route by done.
    server_go_decode_route. now rewrite Hn.
Qed.

Lemma server_go_routes_deliver_witness :
  server_go.handler (example.env example.ok) example.server
    (example.get "/nodes/n001_AA/query" "") =
  spec.acknowledged example.server
    (isyns.NodeQueryRequest {| isyns.id := ""; isyns.server := example.server |} "n001_AA").
Proof.
  refine (proj1 (server_go_routes_deliver (example.env example.ok) example.server
                   (example.get "/nodes/n001_AA/query" "") "n001_AA"
                   (example_credentials _ _ _) _) eq_refl).
  split; [discriminate | reflexivity].
Defined.

(** ** Decimal numbers and the address prefix *)

Section Decimal.

Lemma append_assoc (a b c : string) : (a +:+ b) +:+ c = a +:+ (b +:+ c).
Proof.
  induction a as [|x a IH]; [now rewrite !append_Empty|].
  rewrite !append_String. now rewrite IH.
Qed.

Lemma append_nil_r (a : string) : a +:+ "" = a.
Proof.
  induction a as [|x a IH]; [apply append_Empty|].
  rewrite append_String. now rewrite IH.
Qed.

Lemma length_append (a b : string) :
  String.length (a +:+ b) = (String.length a + String.length b)%nat.
Proof.
  induction a as [|x a IH]; [now rewrite append_Empty|].
  rewrite append_String. simpl. now rewrite IH.
Qed.

Lemma digit_of_ascii (k : Z) :
  0 <= k < 10 -> strconv.digit_of (ascii_of_nat (Z.to_nat (48 + k))) = Some k.
Proof.
  intros H.
  assert (Hk : k = 0 \/ k = 1 \/ k = 2 \/ k = 3 \/ k = 4 \/ k = 5 \/ k = 6 \/ k = 7 \/
               k = 8 \/ k = 9) by lia.
  repeat (destruct Hk as [->|Hk]; [reflexivity|]). now subst.
Qed.

(** The digits [utoa_fuel] puts in front of [acc]: at least one, no more
    than the number needs, and read back they are the number. *)
Lemma utoa_fuel_spec (fuel : nat) : forall (n : Z) (acc : string) (k : nat),
  0 <= n -> n < 10 ^ Z.of_nat fuel -> n < 10 ^ Z.of_nat k -> (1 <= fuel)%nat -> (1 <= k)%nat ->
  exists ds, strconv.utoa_fuel fuel n acc = ds +:+ acc /\
             (1 <= String.length ds <= k)%nat /\
             forall a rest, strconv.digits_value a (ds +:+ rest) =
                            strconv.digits_value (a * 10 ^ Z.of_nat (String.length ds) + n) rest.
Proof.
  induction fuel as [|f IH]; intros n acc k Hn Hf Hk Hf1 Hk1; [lia|].
  cbn [strconv.utoa_fuel].
  pose proof (Z.mod_pos_bound n 10 ltac:(lia)) as Hmod.
  set (d := ascii_of_nat (Z.to_nat (48 + n mod 10))).
  assert (Hd : strconv.digit_of d = Some (n mod 10)) by now apply digit_of_ascii.
  destruct (Z.ltb_spec n 10) as [Hlt|Hge].
  - exists (String d ""). split; [reflexivity|]. split; [simpl; lia|].
    intros a rest. rewrite append_String, append_Empty. simpl. rewrite Hd.
    rewrite Z.mod_small by lia. first [reflexivity | f_equal; lia].
  - assert (Hf2 : (1 <= f)%nat).
    { destruct f; [|lia]. simpl in Hf. lia. }
    assert (Hk2 : (2 <= k)%nat).
    { destruct k as [|[|k]]; [lia| |lia]. simpl in Hk. lia. }
    rewrite Nat2Z.inj_succ, Z.pow_succ_r in Hf by lia.
    destruct k as [|k]; [lia|].
    rewrite Nat2Z.inj_succ, Z.pow_succ_r in Hk by lia.
    destruct (IH (n / 10) (String d acc) k) as (ds & Heq & Hlen & Hval).
    + apply Z.div_pos; lia.
    + apply Z.div_lt_upper_bound; lia.
    + apply Z.div_lt_upper_bound; lia.
    + exact Hf2.
    + lia.
    + exists (ds +:+ String d ""). split; [|split].
      * rewrite Heq, append_assoc, append_String, append_Empty. reflexivity.
      * rewrite length_append. simpl. lia.
      * intros a rest. rewrite append_assoc, append_String, append_Empty, Hval.
        simpl. rewrite Hd. f_equal.
        rewrite length_append. simpl String.length.
        rewrite Nat2Z.inj_add, Z.pow_add_r by lia.
        change (Z.of_nat 1) with 1. rewrite Z.pow_1_r.
        pose proof (Z.div_mod n 10 ltac:(lia)). lia.
Qed.

Lemma utoa_spec (n : Z) (k : nat) :
  0 <= n -> n < 10 ^ Z.of_nat k -> (1 <= k)%nat ->
  (1 <= String.length (strconv.utoa n) <= k)%nat /\
  forall a rest, strconv.digits_value a (strconv.utoa n +:+ rest) =
                 strconv.digits_value
                   (a * 10 ^ Z.of_nat (String.length (strconv.utoa n)) + n) rest.
Proof.
  intros Hn Hk Hk1. unfold strconv.utoa.
  destruct (utoa_fuel_spec (S (Z.to_nat (Z.log2 n))) n "" k) as (ds & Heq & Hlen & Hval);
    try lia.
  - rewrite Nat2Z.inj_succ, Z2Nat.id by apply Z.log2_nonneg.
    destruct (Z.eq_dec n 0) as [->|Hne]; [reflexivity|].
    pose proof (Z.log2_spec n ltac:(lia)) as [_ Hlog].
    eapply Z.lt_le_trans; [exact Hlog|].
    apply Z.pow_le_mono_l. lia.
  - rewrite Heq, append_nil_r. auto.
Qed.

Lemma utoa_value (n : Z) :
  0 <= n -> strconv.utoa n <> "" /\ strconv.digits_value 0 (strconv.utoa n) = Some n.
Proof.
  intros Hn.
  destruct (utoa_spec n (S (Z.to_nat (Z.log2 n)))) as [Hlen Hval]; try lia.
  - rewrite Nat2Z.inj_succ, Z2Nat.id by apply Z.log2_nonneg.
    destruct (Z.eq_dec n 0) as [->|Hne]; [reflexivity|].
    pose proof (Z.log2_spec n ltac:(lia)) as [_ Hlog].
    eapply Z.lt_le_trans; [exact Hlog|].
    apply Z.pow_le_mono_l. lia.
  - split.
    + destruct (strconv.utoa n); [simpl in Hlen; lia | done].
    + specialize (Hval 0 ""). rewrite append_nil_r in Hval. rewrite Hval. simpl. first [reflexivity | f_equal; lia].
Qed.

Lemma digits_value_zeros (j : nat) (d : string) :
  strconv.digits_value 0 (fmt.zeros j +:+ d) = strconv.digits_value 0 d.
Proof.
  induction j as [|j IH]; [now rewrite append_Empty|].
  simpl fmt.zeros. rewrite append_String. simpl. exact IH.
Qed.

(** A string of digits has no other byte. *)
Lemma digits_no_byte (c : ascii) (d : string) (a v : Z) :
  strconv.digit_of c = None ->
  strconv.digits_value a d = Some v -> gostring.contains_byte c d = false.
Proof.
  intros Hc. revert a; induction d as [|x d IH]; intros a H; [reflexivity|].
  simpl in H. destruct (strconv.digit_of x) eqn:Hx; [|discriminate].
  simpl. rewrite (IH _ H), orb_false_r.
  destruct (Ascii.eqb_spec x c) as [->|]; [congruence | reflexivity].
Qed.

Lemma pad03d_value (n : Z) : decimal.pad_value (fmt.pad03d n) = Some n.
Proof.
  unfold fmt.pad03d. destruct (Z.ltb_spec n 0) as [Hneg|Hpos].
  - simpl. rewrite digits_value_zeros.
    destruct (utoa_value (Z.abs n)) as [_ ->]; [lia|]. simpl. f_equal. lia.
  - destruct (utoa_value (Z.abs n)) as [Hne Hv]; [lia|].
    assert (Hd : strconv.digits_value 0
                   (fmt.zeros (3 - String.length (strconv.utoa (Z.abs n)))
                    +:+ strconv.utoa (Z.abs n)) = Some n).
    { rewrite digits_value_zeros, Hv. f_equal. lia. }
    revert Hd. generalize (fmt.zeros (3 - String.length (strconv.utoa (Z.abs n)))
                           +:+ strconv.utoa (Z.abs n)).
    intros [|c d] Hd; [exact Hd|].
    unfold decimal.pad_value.
    destruct (Ascii.eqb_spec c "-") as [->|Hc]; [discriminate|].
    destruct c as [[] [] [] [] [] [] [] []]; try exact Hd. now destruct Hc.
Qed.

Lemma pad03d_inj (n m : Z) : fmt.pad03d n = fmt.pad03d m -> n = m.
Proof.
  intros H. pose proof (pad03d_value n) as Hn. rewrite H, pad03d_value in Hn. congruence.
Qed.

Lemma pad03d_no_underscore (n : Z) : gostring.contains_byte "_" (fmt.pad03d n) = false.
Proof.
  pose proof (pad03d_value n) as H. destruct (fmt.pad03d n) as [|c d]; [reflexivity|].
  unfold decimal.pad_value in H.
  destruct (Ascii.eqb_spec c "-") as [->|Hc].
  - destruct (strconv.digits_value 0 d) as [v|] eqn:Hd; [|discriminate].
    simpl. now rewrite (digits_no_byte "_" d 0 v).
  - assert (Hd : strconv.digits_value 0 (String c d) = Some n).
    { destruct c as [[] [] [] [] [] [] [] []]; try exact H. now destruct Hc. }
    now rewrite (digits_no_byte "_" _ 0 n).
Qed.

Lemma pad03d_length (n : Z) : 0 <= n <= 999 -> String.length (fmt.pad03d n) = 3%nat.
Proof.
  intros Hn. unfold fmt.pad03d.
  destruct (Z.ltb_spec n 0); [lia|].
  destruct (utoa_spec (Z.abs n) 3) as [Hlen _]; [lia | simpl; lia | lia |].
  rewrite length_append.
  assert (Hz : forall j, String.length (fmt.zeros j) = j)
    by (induction j; simpl; congruence).
  rewrite Hz. lia.
Qed.

(** Of two strings without the byte [c], each followed by [c], one starts
    a string that starts with the other only when they are the same. *)
Lemma HasPrefix_delimited (c : ascii) (p q x : string) :
  gostring.contains_byte c p = false -> gostring.contains_byte c q = false ->
  strings.HasPrefix (p +:+ String c x) (q +:+ String c "") = true -> p = q.
Proof.
  revert q; induction p as [|a p IH]; intros [|b q] Hp Hq H.
  - reflexivity.
  - rewrite append_Empty, append_String in H. simpl in H, Hq.
    apply orb_false_iff in Hq as [Hb _].
    rewrite Ascii.eqb_sym in Hb. now rewrite Hb in H.
  - rewrite append_Empty, append_String in H. simpl in H, Hp.
    apply orb_false_iff in Hp as [Ha _].
    rewrite Ha in H. discriminate.
  - rewrite !append_String in H. simpl in H, Hp, Hq.
    apply orb_false_iff in Hp as [_ Hp]. apply orb_false_iff in Hq as [_ Hq].
    destruct (Ascii.eqb_spec a b) as [->|]; [|discriminate].
    f_equal. now apply IH.
Qed.

End Decimal.

(** ** The server that NewServer makes *)

Section NewServerFacts.
Variable E : Env.

Lemma NewServer_inv config profileNum isyConfig s :
  isyns.NewServer E config profileNum isyConfig = isyns.Returns (inl s) ->
  exists relURL baseURL,
    url_Parse E (path_Join E ["rest"; "ns"; strconv.Itoa profileNum] +:+ "/") = inl relURL /\
    url_Parse E (isy.BaseURL isyConfig) = inl baseURL /\
    s = {| isyns.Requests := isyns.make_chan;
           isyns.rawReqs := isyns.make_chan;
           isyns.client := {| isyns.BaseURL := ResolveReference E baseURL relURL;
                              isyns.AddrPrefix := "n" +:+ fmt.pad03d profileNum +:+ "_";
                              isyns.Username := isy.Username isyConfig;
                              isyns.Password := isy.Password isyConfig |};
           isyns.username := isyns.cfgUsername config;
           isyns.passwordSHA256 := Sum256 E (isyns.cfgPassword config);
           isyns.addrPrefix := "n" +:+ fmt.pad03d profileNum +:+ "_" |}.
Proof.
  unfold isyns.NewServer.
  destruct (url_Parse E _) as [relURL|]; [|discriminate].
  destruct (url_Parse E _) as [baseURL|]; [|discriminate].
  intros [= <-]. eauto.
Qed.

Lemma unauthorized_iff (s : isyns.Server) (r : http.Request) :
  isyns.handler E s r = spec.unauthorized <-> ~ spec.credentials_match E s r.
Proof.
  split.
  - intros H Hc. rewrite (handler_authorized E s r Hc) in H.
    destruct (mux.Match _ _) as [m|]; [|discriminate].
    destruct (isyns.decode E s r m); discriminate.
  - apply handler_unauthorized.
Qed.

End NewServerFacts.

(** The server [NewServer] returns lets in the credentials of its
    configuration and no others: a call is answered 401 exactly when it
    has no well-formed Basic credentials, another username, or a password
    whose SHA-256 digest is not that of the configured password. *)
Theorem NewServer_guard (E : Env) (config : isyns.Config) (profileNum : Z)
    (isyConfig : isy.ClientConfig) (s : isyns.Server) (r : http.Request) :
  isyns.NewServer E config profileNum isyConfig = isyns.Returns (inl s) ->
  (isyns.handler E s r = spec.unauthorized <->
   match http.BasicAuth r with
   | None => True
   | Some (u, p) =>
       u <> isyns.cfgUsername config \/
       Sum256 E p <> Sum256 E (isyns.cfgPassword config)
   end) /\
  (http.BasicAuth r = Some (isyns.cfgUsername config, isyns.cfgPassword config) ->
   isyns.handler E s r <> spec.unauthorized).
Proof.
  intros Hs. apply NewServer_inv in Hs as (relURL & baseURL & _ & _ & ->).
  assert (Hiff : isyns.handler E
            {| isyns.Requests := isyns.make_chan; isyns.rawReqs := isyns.make_chan;
               isyns.client := {| isyns.BaseURL := ResolveReference E baseURL relURL;
                                  isyns.AddrPrefix := "n" +:+ fmt.pad03d profileNum +:+ "_";
                                  isyns.Username := isy.Username isyConfig;
                                  isyns.Password := isy.Password isyConfig |};
               isyns.username := isyns.cfgUsername config;
               isyns.passwordSHA256 := Sum256 E (isyns.cfgPassword config);
               isyns.addrPrefix := "n" +:+ fmt.pad03d profileNum +:+ "_" |} r
            = spec.unauthorized <->
          match http.BasicAuth r with
          | None => True
          | Some (u, p) =>
              u <> isyns.cfgUsername config \/
              Sum256 E p <> Sum256 E (isyns.cfgPassword config)
          end).
  { rewrite unauthorized_iff. unfold spec.credentials_match. simpl.
    destruct (http.BasicAuth r) as [[u p]|].
    - split.
      + intros Hn. destruct (decide (u = isyns.cfgUsername config)) as [->|]; [|now left].
        right. intros Hp. apply Hn. eauto.
      + intros [Hu|Hp] (u' & p' & [= <- <-] & Hu' & Hp'); auto.
    - split; [auto|]. intros _ (u' & p' & [=] & _). }
  split; [exact Hiff|].
  intros Hauth Hun. apply Hiff in Hun. rewrite Hauth in Hun. destruct Hun; auto.
Qed.

Lemma NewServer_guard_witness :
  isyns.handler (example.env example.ok) example.new_server
    (example.get "/ns/add/nodes" "") <> spec.unauthorized.
Proof.
  exact (proj2 (NewServer_guard (example.env example.ok) example.config 1
                  example.isy_config example.new_server
                  (example.get "/ns/add/nodes" "") example_NewServer) eq_refl).
Defined.

(** [NewServer] gives the server and its client one address prefix, [n],
    the profile number in at least three digits, and [_]; so an address
    formatted by either is parsed back by the other, and for the profile
    numbers 0 to 999 the prefix is five bytes long. *)
Theorem NewServer_one_prefix (E : Env) (config : isyns.Config) (profileNum : Z)
    (isyConfig : isy.ClientConfig) (s : isyns.Server) :
  isyns.NewServer E config profileNum isyConfig = isyns.Returns (inl s) ->
  isyns.addrPrefix s = isyns.AddrPrefix (isyns.client s) /\
  (forall x, isyns.ParseAddr (isyns.client s) (isyns.formatAddr s x) = x) /\
  (forall x, isyns.parseAddr s (isyns.FormatAddr (isyns.client s) x) = x) /\
  (0 <= profileNum <= 999 -> String.length (isyns.addrPrefix s) = 5%nat).
Proof.
  intros Hs. apply NewServer_inv in Hs as (relURL & baseURL & _ & _ & ->).
  unfold isyns.ParseAddr, isyns.parseAddr, isyns.formatAddr, isyns.FormatAddr. simpl.
  repeat apply conj; [reflexivity | | |].
  - intros x. now rewrite HasPrefix_app, slice_from_app.
  - intros x. now rewrite HasPrefix_app, slice_from_app.
  - intros Hn. rewrite append_Empty, length_append, pad03d_length by lia. reflexivity.
Qed.

Lemma NewServer_one_prefix_witness :
  isyns.ParseAddr (isyns.client example.new_server)
    (isyns.formatAddr example.new_server "AA") = "AA".
Proof.
  exact (proj1 (proj2 (NewServer_one_prefix (example.env example.ok) example.config 1
                         example.isy_config example.new_server example_NewServer)) "AA").
Defined.

(** Servers made for different profile numbers have different address
    prefixes, and neither takes an address of the other for one of its
    own: what one formats, the other parses to itself, prefix and all. *)
Theorem profiles_isolated (E E' : Env) (config config' : isyns.Config) (p q : Z)
    (isyConfig isyConfig' : isy.ClientConfig) (s s' : isyns.Server) :
  isyns.NewServer E config p isyConfig = isyns.Returns (inl s) ->
  isyns.NewServer E' config' q isyConfig' = isyns.Returns (inl s') ->
  p <> q ->
  isyns.addrPrefix s <> isyns.addrPrefix s' /\
  forall x, isyns.parseAddr s' (isyns.formatAddr s x) = isyns.formatAddr s x.
Proof.
  intros Hs Hs' Hpq.
  apply NewServer_inv in Hs as (relURL & baseURL & _ & _ & ->).
  apply NewServer_inv in Hs' as (relURL' & baseURL' & _ & _ & ->).
  unfold isyns.parseAddr, isyns.formatAddr. cbn [isyns.addrPrefix].
  assert (Hno : forall x, strings.HasPrefix (("n" +:+ fmt.pad03d p +:+ "_") +:+ x)
                            ("n" +:+ fmt.pad03d q +:+ "_") = false).
  { intros x. apply not_true_is_false. intros H.
    rewrite !append_String, !append_Empty in H. simpl in H.
    rewrite append_assoc, append_String, append_Empty in H.
    apply HasPrefix_delimited in H; auto using pad03d_no_underscore.
    now apply pad03d_inj in H. }
  split.
  - intros Heq. specialize (Hno ""). rewrite Heq, HasPrefix_app in Hno. discriminate.
  - intros x. now rewrite Hno.
Qed.

Lemma profiles_isolated_witness :
  isyns.parseAddr
    {| isyns.Requests := isyns.make_chan; isyns.rawReqs := isyns.make_chan;
       isyns.client :=
         {| isyns.BaseURL := {| url.Scheme := ""; url.Host := ""; url.Path := "/rest/ns/2/";
                                url.RawQuery := "" |};
            isyns.AddrPrefix := "n002_";
            isyns.Username := "admin"; isyns.Password := "admin" |};
       isyns.username := "isy";
       isyns.passwordSHA256 := String.list_byte_of_string "secret";
       isyns.addrPrefix := "n002_" |}
    (isyns.formatAddr example.new_server "AA") = "n001_AA".
Proof.
  refine (proj2 (profiles_isolated (example.env example.ok) (example.env example.ok)
                   example.config example.config 1 2
                   example.isy_config example.isy_config example.new_server _
                   example_NewServer _ _) "AA").
  - vm_compute. reflexivity.
  - discriminate.
Defined.

(** ** Addresses, and the order of the query *)

Section Addresses.

Lemma strip_then_prefix (p w : string) :
  let parsed := if negb (strings.HasPrefix w p) then w
                else gostring.slice_from w (String.length p) in
  (strings.HasPrefix w p = true -> p +:+ parsed = w) /\
  (strings.HasPrefix w p = false -> parsed = w /\ p +:+ parsed <> w).
Proof.
  cbv zeta. split; intros H; rewrite H; simpl.
  - symmetry. now apply HasPrefix_split.
  - split; [reflexivity|]. intros Heq.
    apply (f_equal String.length) in Heq. rewrite length_append in Heq.
    destruct p; [discriminate | simpl in Heq; lia].
Qed.

End Addresses.

(** From the wire and back. An address that starts with the prefix is
    the one [formatAddr] makes of what [parseAddr] made of it. An address
    that does not start with it is parsed to itself, so formatting the
    result puts the prefix in front and gives another address: such an
    address and the same address behind the prefix are parsed alike. The
    same for [ParseAddr] and [FormatAddr] of the client. *)
Theorem wire_address_and_back (s : isyns.Server) (c : isyns.nsClient) (w : string) :
  (strings.HasPrefix w (isyns.addrPrefix s) = true ->
   isyns.formatAddr s (isyns.parseAddr s w) = w) /\
  (strings.HasPrefix w (isyns.addrPrefix s) = false ->
   isyns.formatAddr s (isyns.parseAddr s w) <> w /\
   isyns.parseAddr s (isyns.formatAddr s w) = isyns.parseAddr s w) /\
  (strings.HasPrefix w (isyns.AddrPrefix c) = true ->
   isyns.FormatAddr c (isyns.ParseAddr c w) = w) /\
  (strings.HasPrefix w (isyns.AddrPrefix c) = false ->
   isyns.FormatAddr c (isyns.ParseAddr c w) <> w /\
   isyns.ParseAddr c (isyns.FormatAddr c w) = isyns.ParseAddr c w).
Proof.
  pose proof (strip_then_prefix (isyns.addrPrefix s) w) as [Hs1 Hs2].
  pose proof (strip_then_prefix (isyns.AddrPrefix c) w) as [Hc1 Hc2].
  repeat apply conj; intros H.
  - now apply Hs1.
  - destruct (Hs2 H) as [Heq Hne]. split.
    + exact Hne.
    + rewrite parseAddr_formatAddr. unfold isyns.parseAddr. now rewrite Heq.
  - now apply Hc1.
  - destruct (Hc2 H) as [Heq Hne]. split.
    + exact Hne.
    + unfold isyns.ParseAddr at 2. rewrite Heq.
      unfold isyns.ParseAddr, isyns.FormatAddr. now rewrite HasPrefix_app, slice_from_app.
Qed.

Section Order.

Lemma param_of_key_env (E E' : Env) (k : string) :
  UOMUnknown E = UOMUnknown E' -> isyns.param_of_key E k = isyns.param_of_key E' k.
Proof. intros H. unfold isyns.param_of_key. now rewrite H. Qed.

Lemma loop_env (E E' : Env) (kvs : list (string * list string)) :
  UOMUnknown E = UOMUnknown E' ->
  isyns.makeCommandParams_loop E kvs = isyns.makeCommandParams_loop E' kvs.
Proof.
  intros H. unfold isyns.makeCommandParams_loop. generalize (@None (gmap string isyns.CommandParam)).
  induction kvs as [|[k vs] kvs IH]; intros acc; [reflexivity|].
  simpl. rewrite (param_of_key_env E E' k H). apply IH.
Qed.

End Order.

(** The order in which the [range] visits the query matters only when
    two keys stand for one name: when the names the entries of the query
    decode to are pairwise different, the parameters delivered are the
    same under every order of iteration. *)
Theorem params_order_irrelevant (E E' : Env) (s : isyns.Server) (r : http.Request) :
  UOMUnknown E = UOMUnknown E' ->
  NoDup (omap (spec.entry_param E) (map_to_list (url.Query (http.URL r)))).*1 ->
  isyns.makeCommandParams E s r = isyns.makeCommandParams E' s r.
Proof.
  intros Hu Hnd. unfold isyns.makeCommandParams.
  rewrite <- (loop_env E E' _ Hu).
  apply loop_perm.
  - now rewrite !range_order_perm.
  - eapply NoDup_Permutation_proper; [|exact Hnd].
    apply fmap_Permutation. apply omap_Permutation. apply range_order_perm.
Qed.

Lemma params_order_irrelevant_witness :
  isyns.makeCommandParams (example.env example.ok) example.server
    (example.get "/ns/nodes/n001_AA/cmd/DON" "level.uom2=50&mode=auto") =
  isyns.makeCommandParams (example.env_reversed example.ok) example.server
    (example.get "/ns/nodes/n001_AA/cmd/DON" "level.uom2=50&mode=auto").
Proof.
  refine (params_order_irrelevant (example.env example.ok) (example.env_reversed example.ok)
            example.server (example.get "/ns/nodes/n001_AA/cmd/DON" "level.uom2=50&mode=auto")
            eq_refl _).
  vm_compute. apply NoDup_cons. split; [|apply NoDup_singleton].
  rewrite list_elem_of_singleton. discriminate.
Defined.

(** ** Outbound calls *)

Section Outbound.
Variable E : Env.

Lemma bind_MakeURL {B} (c : isyns.nsClient) (parts : list string)
    (k : url.URL -> isyns.run B) :
  isyns.bind (isyns.MakeURL E c parts) k =
    match url_Parse E (path_Join E (PathEscape E <$> parts)) with
    | inl rel => k (ResolveReference E (isyns.BaseURL c) rel)
    | inr _ => ([], isyns.Panics)
    end.
Proof.
  unfold isyns.MakeURL. destruct (url_Parse E _) as [rel|]; [|reflexivity].
  unfold isyns.bind, isyns.ret. now destruct (k _).
Qed.

Lemma Request_answered (c : isyns.nsClient) (u : url.URL) calls :
  isyns.nsClient_Request E c u = (calls, isyns.Returns None) -> outbound.answered E c calls.
Proof.
  rewrite Request_cases. unfold isyns.NewRequest.
  destruct (url_Parse E _) as [u'|err]; [|discriminate].
  cbv zeta. destruct (Do E _) as [resp|[resp|] err] eqn:Hdo; try discriminate.
  destruct (Z.leb_spec 400 (http.StatusCode resp)); [discriminate|].
  intros [= <-]. eexists _, resp. repeat apply conj; try reflexivity; [exact Hdo | lia].
Qed.

End Outbound.

(** A nil error means the controller answered. When [Complete],
    [ReportRequestStatus] or [AddNode] return no error, exactly one call
    was made, a GET with the credentials of the client, and it was
    answered, without a transport error, with a status below 400; the
    one exception is [Complete] on a request without id, which returns no
    error having made no call. *)
Theorem nil_error_means_answered (E : Env) :
  (forall (r : isyns.request) (success : bool) calls,
     isyns.Complete E r success = (calls, isyns.Returns None) ->
     (isyns.id r = "" /\ calls = []) \/
     (isyns.id r <> "" /\ outbound.answered E (isyns.client (isyns.server r)) calls)) /\
  (forall (c : isyns.nsClient) (id : string) (success : bool) calls,
     isyns.ReportRequestStatus E c id success = (calls, isyns.Returns None) ->
     outbound.answered E c calls) /\
  (forall (s : isyns.Server) (addr defId primaryAddr name : string) calls,
     isyns.AddNode E s addr defId primaryAddr name = (calls, isyns.Returns None) ->
     outbound.answered E (isyns.client s) calls).
Proof.
  assert (Hreport : forall c id success calls,
            isyns.ReportRequestStatus E c id success = (calls, isyns.Returns None) ->
            outbound.answered E c calls).
  { intros c id success calls. rewrite ReportRequestStatus_eq, bind_MakeURL.
    destruct (url_Parse E _); [apply Request_answered | discriminate]. }
  repeat apply conj.
  - intros r success calls. unfold isyns.Complete.
    destruct (String.eqb_spec (isyns.id r) "") as [Hid|Hid].
    + intros [= <-]. now left.
    + intros H. right. split; [exact Hid | eapply Hreport, H].
  - exact Hreport.
  - intros s addr defId primaryAddr name calls.
    unfold isyns.AddNode, isyns.nsClient_AddNode. rewrite bind_MakeURL.
    destruct (url_Parse E _); [apply Request_answered | discriminate].
Qed.

(** What [AddNode] sends. It makes at most one call. The path is made of
    the segments [nodes], the address behind the client's prefix, [add]
    and the definition id. To the query of the URL it sets [primary] to
    the primary address behind the prefix and [name] to the name, each
    only when it is not empty: an empty primary address or name is left
    out, not sent as an empty value. *)
Theorem AddNode_query (E : Env) (s : isyns.Server) (addr defId primaryAddr name : string) :
  let c := isyns.client s in
  (length (isyns.AddNode E s addr defId primaryAddr name).1 <= 1)%nat /\
  forall rel,
    url_Parse E (path_Join E (PathEscape E <$>
      ["nodes"; isyns.AddrPrefix c +:+ addr; "add"; defId])) = inl rel ->
    let u := ResolveReference E (isyns.BaseURL c) rel in
    exists qs,
      isyns.AddNode E s addr defId primaryAddr name =
        isyns.nsClient_Request E c (url.with_RawQuery u (Values_Encode E qs)) /\
      qs !! "primary" =
        (if String.eqb primaryAddr "" then url.Query u !! "primary"
         else Some [isyns.AddrPrefix c +:+ primaryAddr]) /\
      qs !! "name" =
        (if String.eqb name "" then url.Query u !! "name" else Some [name]) /\
      forall k, k <> "primary" -> k <> "name" -> qs !! k = url.Query u !! k.
Proof.
  intros c. unfold isyns.AddNode, isyns.nsClient_AddNode. fold c.
  rewrite bind_MakeURL. unfold isyns.FormatAddr. split.
  - destruct (url_Parse E _); [apply Request_calls | simpl; lia].
  - intros rel ->. cbv zeta. eexists. split; [reflexivity|].
    unfold url.Set_.
    destruct (String.eqb_spec primaryAddr "") as [->|Hp];
      destruct (String.eqb_spec name "") as [->|Hn]; cbn [negb String.eqb];
      try (destruct (String.eqb_spec (isyns.AddrPrefix c +:+ primaryAddr) "") as [He|He];
           [apply (f_equal String.length) in He; rewrite length_append in He;
            destruct primaryAddr; [done | simpl in He; lia]|]);
      cbn [negb];
      repeat apply conj; try intros k Hk1 Hk2;
      repeat first [rewrite lookup_insert_eq | rewrite lookup_insert_ne by done];
      reflexivity.
Qed.

(** ** Package isy: the SOAP client *)

Section Soap.

Lemma index_from_first_byte (c : ascii) (a rest : string) (n : nat) :
  gostring.contains_byte c a = false ->
  strings.index_from n (a +:+ String c rest) (String c "") = Z.of_nat (n + String.length a).
Proof.
  revert n; induction a as [|x a IH]; intros n H.
  - rewrite append_Empty. simpl. rewrite Ascii.eqb_refl. simpl. f_equal. lia.
  - simpl in H. apply orb_false_iff in H as [Hx Ha].
    rewrite append_String. simpl. rewrite Hx. simpl.
    rewrite (IH (S n) Ha). f_equal. lia.
Qed.

Lemma Index_first_byte (c : ascii) (a rest : string) :
  gostring.contains_byte c a = false ->
  strings.Index (a +:+ String c rest) (String c "") = Z.of_nat (String.length a).
Proof. intros H. unfold strings.Index. now rewrite index_from_first_byte. Qed.

Lemma Index_no_byte (c : ascii) (a : string) :
  gostring.contains_byte c a = false -> strings.Index a (String c "") = -1.
Proof.
  unfold strings.Index. generalize 0%nat.
  induction a as [|x a IH]; intros n H; [reflexivity|].
  simpl in H. apply orb_false_iff in H as [Hx Ha].
  simpl. rewrite Hx. simpl. now apply IH.
Qed.

Lemma Replace_1_first (c : ascii) (new a rest : string) :
  gostring.contains_byte c a = false ->
  strings_Replace.Replace_1 (a +:+ String c rest) (String c "") new = a +:+ new +:+ rest.
Proof.
  intros H. unfold strings_Replace.Replace_1. rewrite (Index_first_byte c a rest H).
  destruct (Z.eqb_spec (Z.of_nat (String.length a)) (-1)) as [Hneg|_]; [lia|].
  rewrite Nat2Z.id, slice_to_app.
  replace (String.length a + String.length (String c ""))%nat
    with (String.length (a +:+ String c "")) by now rewrite length_append.
  replace (a +:+ String c rest) with ((a +:+ String c "") +:+ rest)
    by now rewrite append_assoc, append_String, append_Empty.
  now rewrite slice_from_app.
Qed.

Lemma Replace_1_none (c : ascii) (new a : string) :
  gostring.contains_byte c a = false ->
  strings_Replace.Replace_1 a (String c "") new = a.
Proof.
  intros H. unfold strings_Replace.Replace_1. now rewrite (Index_no_byte c a H).
Qed.

End Soap.

(** The SOAP action of a message. For a struct, or a pointer to a
    struct, with a field [XMLName] whose [xml] tag is a namespace, a
    space and a local name, the action is the namespace, [#] and the
    local name: only the first space is replaced. A tag without a space
    is the action as it is. A value that is not a struct or a pointer to
    one, a pointer to a pointer among them, and a struct without a field
    [XMLName] have the empty action, and a nil value makes
    [getSOAPAction] panic. *)
Theorem getSOAPAction_spec (W : isy_client.Services) (obj : isy_client.Obj W) :
  (forall fields f,
     isy_client.TypeOf W obj = Some (reflect.Struct fields) \/
     isy_client.TypeOf W obj = Some (reflect.Ptr (reflect.Struct fields)) ->
     reflect.FieldByName fields "XMLName" = Some f ->
     (forall ns local,
        gostring.contains_byte " " ns = false ->
        reflect.Tag_Get f "xml" = ns +:+ " " +:+ local ->
        isy_client.getSOAPAction W obj = isyns.Returns (ns +:+ "#" +:+ local)) /\
     (gostring.contains_byte " " (reflect.Tag_Get f "xml") = false ->
      isy_client.getSOAPAction W obj = isyns.Returns (reflect.Tag_Get f "xml"))) /\
  (forall fields,
     isy_client.TypeOf W obj = Some (reflect.Struct fields) \/
     isy_client.TypeOf W obj = Some (reflect.Ptr (reflect.Struct fields)) ->
     reflect.FieldByName fields "XMLName" = None ->
     isy_client.getSOAPAction W obj = isyns.Returns "") /\
  (forall ty,
     isy_client.TypeOf W obj = Some reflect.Other \/
     isy_client.TypeOf W obj = Some (reflect.Ptr reflect.Other) \/
     isy_client.TypeOf W obj = Some (reflect.Ptr (reflect.Ptr ty)) ->
     isy_client.getSOAPAction W obj = isyns.Returns "") /\
  (isy_client.TypeOf W obj = None -> isy_client.getSOAPAction W obj = isyns.Panics).
Proof.
  unfold isy_client.getSOAPAction. repeat apply conj.
  - intros fields f Hty Hf. split.
    + intros ns local Hns Htag.
      change (" " +:+ local) with (String " " local) in Htag.
      destruct Hty as [-> | ->]; rewrite Hf, Htag; f_equal;
        exact (Replace_1_first " " "#" ns local Hns).
    + intros Hno. destruct Hty as [-> | ->]; rewrite Hf; f_equal;
        now apply Replace_1_none.
  - intros fields [-> | ->] ->; reflexivity.
  - intros ty [-> | [-> | ->]]; reflexivity.
  - now intros ->.
Qed.

Section IsyClient.
Variable E : Env.
Variable W : isy_client.Services.

Lemma header_keys :
  textproto.CanonicalMIMEHeaderKey "Content-Type" = "Content-Type" /\
  textproto.CanonicalMIMEHeaderKey "SOAPACTION" = "Soapaction" /\
  textproto.CanonicalMIMEHeaderKey "User-Agent" = "User-Agent".
Proof. repeat split; vm_compute; reflexivity. Qed.

Lemma formatRequest_inv (c : isy_client.client) (obj : isy_client.Obj W)
    (req : isy_client.Request) :
  isy_client.formatRequest E W c obj = isyns.Returns (inl req) ->
  exists action body u,
    isy_client.getSOAPAction W obj = isyns.Returns action /\
    isy_client.xml_MarshalIndent W obj = inl body /\
    url_Parse E (isy_client.ServiceURL c) = inl u /\
    req = {| isy_client.Method := "POST"; isy_client.URL := u;
             isy_client.Header_ :=
               <["User-Agent" := ["go-isy"]]>
                 (<["Soapaction" := [action]]>
                    (<["Content-Type" :=
                         ["text/xml; charset=" +:+
                          String isy_client.dquote ("utf-8" +:+ String isy_client.dquote "")]]> ∅));
             isy_client.ContentLength := Z.of_nat (String.length body);
             isy_client.Body := body;
             isy_client.BasicAuth := Some (isy_client.Username c, isy_client.Password c) |}.
Proof.
  unfold isy_client.formatRequest, isy_client.makeSOAPMessage, isy_client.formatSOAPEnvelope,
    isy_client.NewRequest.
  destruct (isy_client.getSOAPAction W obj) as [action|]; [|discriminate].
  destruct (isy_client.xml_MarshalIndent W obj) as [body|err]; [|discriminate].
  cbn [isy_client.Body_ isy_client.Action].
  destruct (url_Parse E _) as [u|err]; [|discriminate].
  intros [= <-]. exists action, body, u. repeat apply conj; try reflexivity.
Qed.

Lemma find_triggers_spec (toks : list isy_client.Token) (k i : nat) :
  isy_client.find_triggers k toks = Some i ->
  exists j, i = (k + j)%nat /\
            toks !! j = Some (isy_client.StartElement "triggers") /\
            forall j', (j' < j)%nat -> toks !! j' <> Some (isy_client.StartElement "triggers").
Proof.
  revert k; induction toks as [|t toks IH]; intros k H; [discriminate|].
  assert (Hrest : isy_client.find_triggers (S k) toks = Some i ->
                  t <> isy_client.StartElement "triggers" ->
                  exists j, i = (k + j)%nat /\
                    (t :: toks) !! j = Some (isy_client.StartElement "triggers") /\
                    forall j', (j' < j)%nat ->
                      (t :: toks) !! j' <> Some (isy_client.StartElement "triggers")).
  { intros H' Ht. destruct (IH _ H') as (j & -> & Hj & Hmin).
    exists (S j). repeat apply conj; [lia | exact Hj |].
    intros [|j'] Hlt; simpl; [congruence | apply Hmin; lia]. }
  destruct t as [name|]; simpl in H.
  - destruct (String.eqb_spec name "triggers") as [->|Hne].
    + injection H as <-. exists 0%nat. repeat apply conj; [lia | reflexivity | lia].
    + apply Hrest; [exact H | congruence].
  - apply Hrest; [exact H | discriminate].
Qed.

Lemma find_triggers_None (toks : list isy_client.Token) (k : nat) :
  isy_client.find_triggers k toks = None <->
  isy_client.StartElement "triggers" ∉ toks.
Proof.
  revert k; induction toks as [|t toks IH]; intros k; simpl.
  - split; [intros _; apply not_elem_of_nil | reflexivity].
  - rewrite not_elem_of_cons. destruct t as [name|].
    + destruct (String.eqb_spec name "triggers") as [->|Hne].
      * split; [discriminate | intros [H _]; now destruct H].
      * rewrite IH. split; [intros H; split; [congruence | exact H] | now intros [_ H]].
    + rewrite IH. split; [intros H; split; [discriminate | exact H] | now intros [_ H]].
Qed.

Lemma request_calls (c : isy_client.client) (obj : isy_client.Obj W) :
  (length (isy_client.request E W c obj).1 <= 1)%nat.
Proof.
  unfold isy_client.request.
  destruct (isy_client.formatRequest E W c obj) as [[req|err]|]; simpl; try lia.
  destruct (isy_client.Do W req) as [resp|err]; simpl; try lia.
  destruct (negb _); [simpl; lia|]. destruct (isy_client.ReadAll resp). simpl. lia.
Qed.

End IsyClient.

Lemma example_formatRequest :
  isy_client.formatRequest (example.env example.ok) isy_example.services
    isy_example.client_ isy_example.testSOAPMessage_ptr =
  isyns.Returns (inl isy_example.test_request).
Proof. vm_compute. reflexivity. Qed.

Lemma example_GetAllFunctions :
  isy_client.GetAllFunctions (example.env example.ok) isy_example.services
    isy_example.client_ =
  ([isy_example.get_all_request], isyns.Returns ([], None)).
Proof. vm_compute. reflexivity. Qed.

(** The request of a SOAP message. A request that [formatRequest]
    returns is a POST to the service URL of the client with the client's
    credentials, the marshalled envelope as its body and the length of it
    as its content length. Its headers are kept under their canonical
    keys: the action of the message is under [Soapaction], not under
    [SOAPACTION] as the code writes it. *)
Theorem formatRequest_request (E : Env) (W : isy_client.Services)
    (c : isy_client.client) (obj : isy_client.Obj W) (req : isy_client.Request) :
  isy_client.formatRequest E W c obj = isyns.Returns (inl req) ->
  isy_client.Method req = "POST" /\
  url_Parse E (isy_client.ServiceURL c) = inl (isy_client.URL req) /\
  isy_client.BasicAuth req = Some (isy_client.Username c, isy_client.Password c) /\
  isy_client.xml_MarshalIndent W obj = inl (isy_client.Body req) /\
  isy_client.ContentLength req = Z.of_nat (String.length (isy_client.Body req)) /\
  (exists action,
     isy_client.getSOAPAction W obj = isyns.Returns action /\
     isy_client.Header_ req !! "Soapaction" = Some [action]) /\
  isy_client.Header_ req !! "SOAPACTION" = None /\
  isy_client.Header_ req !! "User-Agent" = Some ["go-isy"] /\
  isy_client.Header_ req !! "Content-Type" =
    Some ["text/xml; charset=" +:+
          String isy_client.dquote ("utf-8" +:+ String isy_client.dquote "")].
Proof.
  intros H. apply formatRequest_inv in H as (action & body & u & Ha & Hb & Hu & ->).
  cbn [isy_client.Method isy_client.URL isy_client.BasicAuth isy_client.Body
       isy_client.ContentLength isy_client.Header_].
  repeat apply conj; try assumption; try reflexivity.
  exists action. split; [exact Ha|].
  rewrite lookup_insert_ne by done. now rewrite lookup_insert_eq.
Qed.

Lemma formatRequest_request_witness :
  isy_client.Header_ isy_example.test_request !! "Soapaction" =
    Some ["urn:udi-com:service:X_Insteon_Lighting_Service:1#TestMessage"] /\
  isy_client.Header_ isy_example.test_request !! "SOAPACTION" = None.
Proof.
  pose proof (formatRequest_request (example.env example.ok) isy_example.services
                isy_example.client_ isy_example.testSOAPMessage_ptr
                isy_example.test_request example_formatRequest)
    as (_ & _ & _ & _ & _ & (action & Ha & Hh) & Hnone & _).
  split; [|exact Hnone].
  rewrite Hh. injection Ha as <-. reflexivity.
Defined.

(** What [request] returns. It makes at most one call. It returns a body
    only when the call was answered with status 200, and then it returns
    what was read of the body even if the reading ended in an error,
    which is dropped. Every other status, 204 and the like among them,
    is returned as an error that carries the status line, and a failed
    call as its error. *)
Theorem request_outcomes (E : Env) (W : isy_client.Services)
    (c : isy_client.client) (obj : isy_client.Obj W) :
  (length (isy_client.request E W c obj).1 <= 1)%nat /\
  (forall calls body,
     isy_client.request E W c obj = (calls, isyns.Returns (inl body)) ->
     exists req resp,
       calls = [req] /\ isy_client.formatRequest E W c obj = isyns.Returns (inl req) /\
       isy_client.Do W req = isy_client.Responded resp /\
       isy_client.StatusCode resp = 200 /\ body = (isy_client.ReadAll resp).1) /\
  (forall req resp,
     isy_client.formatRequest E W c obj = isyns.Returns (inl req) ->
     isy_client.Do W req = isy_client.Responded resp ->
     (isy_client.StatusCode resp <> 200 ->
      isy_client.request E W c obj = ([req], isyns.Returns (inr (isy_client.Status resp)))) /\
     (isy_client.StatusCode resp = 200 ->
      isy_client.request E W c obj =
        ([req], isyns.Returns (inl (isy_client.ReadAll resp).1)))) /\
  (forall req err,
     isy_client.formatRequest E W c obj = isyns.Returns (inl req) ->
     isy_client.Do W req = isy_client.Failed err ->
     isy_client.request E W c obj = ([req], isyns.Returns (inr err))) /\
  (forall err,
     isy_client.formatRequest E W c obj = isyns.Returns (inr err) ->
     isy_client.request E W c obj = ([], isyns.Returns (inr err))).
Proof.
  split; [apply request_calls|]. unfold isy_client.request. repeat apply conj.
  - intros calls body.
    destruct (isy_client.formatRequest E W c obj) as [[req|err]|]; try discriminate.
    destruct (isy_client.Do W req) as [resp|err] eqn:Hdo; try discriminate.
    destruct (Z.eqb_spec (isy_client.StatusCode resp) 200) as [Hs|Hs]; simpl; [|discriminate].
    destruct (isy_client.ReadAll resp) as [b e] eqn:Hr. intros [= <- <-].
    exists req, resp. now rewrite Hr.
  - intros req resp -> ->. split; intros Hs.
    + now destruct (Z.eqb_spec (isy_client.StatusCode resp) 200).
    + rewrite Hs. simpl. now destruct (isy_client.ReadAll resp).
  - now intros req err -> ->.
  - now intros err ->.
Qed.

(** [GetAllFunctions] returns no function in any case: its first result
    is always nil. It returns no error exactly when the request returned
    a body, the decoder reached the start of an element [triggers]
    before the end of the tokens, and [DecodeElement] decoded from the
    first such element without error. When the tokens reach the end of
    the body without such an element, the error is that the element was
    not found. *)
Theorem GetAllFunctions_returns_none (E : Env) (W : isy_client.Services)
    (c : isy_client.client) :
  (length (isy_client.GetAllFunctions E W c).1 <= 1)%nat /\
  (forall calls fs err,
     isy_client.GetAllFunctions E W c = (calls, isyns.Returns (fs, err)) ->
     fs = [] /\
     (err = None <->
      exists body i,
        isy_client.request E W c (isy_client.getAllD2DReq W) =
          (calls, isyns.Returns (inl body)) /\
        (isy_client.xml_Tokens W body).1 !! i = Some (isy_client.StartElement "triggers") /\
        (forall j, (j < i)%nat ->
           (isy_client.xml_Tokens W body).1 !! j <> Some (isy_client.StartElement "triggers")) /\
        isy_client.xml_DecodeElement W body i = None)) /\
  (forall calls body,
     isy_client.request E W c (isy_client.getAllD2DReq W) =
       (calls, isyns.Returns (inl body)) ->
     isy_client.StartElement "triggers" ∉ (isy_client.xml_Tokens W body).1 ->
     (isy_client.xml_Tokens W body).2 = None ->
     isy_client.GetAllFunctions E W c =
       (calls, isyns.Returns ([], Some "'triggers' element not found in response"))).
Proof.
  pose proof (request_calls E W c (isy_client.getAllD2DReq W)) as Hcalls.
  unfold isy_client.GetAllFunctions.
  destruct (isy_client.request E W c (isy_client.getAllD2DReq W)) as [calls0 [[body|err0]|]].
  - destruct (isy_client.xml_Tokens W body) as [toks last] eqn:Htok. cbn [fst snd].
    destruct (isy_client.find_triggers 0 toks) as [i|] eqn:Hfind.
    + apply find_triggers_spec in Hfind as (j & -> & Hj & Hmin). simpl in *.
      repeat apply conj.
      * now destruct (isy_client.xml_DecodeElement W body j).
      * intros calls fs err H.
        destruct (isy_client.xml_DecodeElement W body j) as [e|] eqn:Hdec;
          injection H as <- <- <-; (split; [reflexivity|]).
        -- split; [discriminate|]. intros (body' & i & Heq & Hi & Hmin' & Hd).
           injection Heq as <-. rewrite Htok in Hi, Hmin'. simpl in Hi, Hmin'.
           assert (i = j) as ->; [|congruence].
           destruct (Nat.lt_trichotomy i j) as [Hlt|[Heq|Hgt]]; [|exact Heq|].
           ++ now apply Hmin in Hlt.
           ++ now apply Hmin' in Hgt.
        -- split; [|reflexivity]. intros _. exists body, j. rewrite Htok. auto.
      * intros calls body' [= <- <-] Hno _. rewrite Htok in Hno. simpl in Hno.
        exfalso. apply Hno. eapply list_elem_of_lookup_2, Hj.
    + repeat apply conj.
      * now destruct last.
      * intros calls fs err H.
        assert (fs = [] /\ err <> None) as [-> Herr].
        { destruct last; injection H as <- <- <-; split; (reflexivity || discriminate). }
        split; [reflexivity|]. split; [intros He; destruct (Herr He)|].
        intros (body' & i & Heq & Hi & _). injection Heq as _ <-.
        rewrite Htok in Hi. simpl in Hi.
        apply find_triggers_None in Hfind. exfalso. apply Hfind.
        eapply list_elem_of_lookup_2, Hi.
      * intros calls body' [= <- <-] _ Hlast. rewrite Htok in Hlast. simpl in Hlast.
        now rewrite Hlast.
  - repeat apply conj; [exact Hcalls | | discriminate].
    intros calls fs err [= <- <- <-]. split; [reflexivity|].
    split; [discriminate|]. intros (body & i & [=] & _).
  - repeat apply conj; [exact Hcalls | discriminate | discriminate].
Qed.

(** [NewClient] and the requests of its client. An invalid base URL is
    returned as an error, with no client. Every request of a client that
    [NewClient] returned goes to what the base URL and [./services]
    resolve to, with the credentials of the configuration. *)
Theorem NewClient_requests (E : Env) (W : isy_client.Services) (config : isy.ClientConfig) :
  (forall err,
     url_Parse E (isy.BaseURL config) = inr err ->
     isy_client.NewClient E config = isyns.Returns (inr ("invalid base URL: " +:+ err))) /\
  (forall c,
     isy_client.NewClient E config = isyns.Returns (inl c) ->
     exists base ref,
       url_Parse E (isy.BaseURL config) = inl base /\
       url_Parse E "./services" = inl ref /\
       forall (obj : isy_client.Obj W) req,
         isy_client.formatRequest E W c obj = isyns.Returns (inl req) ->
         url_Parse E (URL_String E (ResolveReference E base ref)) = inl (isy_client.URL req) /\
         isy_client.BasicAuth req = Some (isy.Username config, isy.Password config)).
Proof.
  unfold isy_client.NewClient, isy_client.servicePath. split.
  - now intros err ->.
  - intros c. destruct (url_Parse E (isy.BaseURL config)) as [base|]; [|discriminate].
    destruct (url_Parse E "./services") as [ref|]; [|discriminate].
    intros [= <-]. exists base, ref. repeat apply conj; try reflexivity.
    intros obj req H. apply formatRequest_inv in H as (action & body & u & _ & _ & Hu & ->).
    split; [exact Hu | reflexivity].
Qed.

Lemma getAllD2DReq_action (W : isy_client.Services) :
  isy_client.getSOAPAction W (isy_client.getAllD2DReq W) =
  isyns.Returns "urn:udi-com:service:X_Insteon_Lighting_Service:1#GetAllD2D".
Proof.
  unfold isy_client.getSOAPAction. rewrite isy_client.getAllD2DReq_TypeOf.
  vm_compute. reflexivity.
Qed.

(** The call of [GetAllFunctions]: whatever it hands to the network is a
    POST with the credentials of the client whose action header names
    the operation [GetAllD2D] of the Insteon lighting service. *)
Theorem GetAllFunctions_call (E : Env) (W : isy_client.Services)
    (c : isy_client.client) (req : isy_client.Request) :
  req ∈ (isy_client.GetAllFunctions E W c).1 ->
  isy_client.Method req = "POST" /\
  isy_client.BasicAuth req = Some (isy_client.Username c, isy_client.Password c) /\
  isy_client.Header_ req !! "Soapaction" =
    Some ["urn:udi-com:service:X_Insteon_Lighting_Service:1#GetAllD2D"].
Proof.
  intros Hin.
  assert (Hreq : req ∈ (isy_client.request E W c (isy_client.getAllD2DReq W)).1).
  { revert Hin. unfold isy_client.GetAllFunctions.
    destruct (isy_client.request E W c _) as [calls [[body|err]|]]; try easy.
    destruct (isy_client.xml_Tokens W body) as [toks last].
    destruct (isy_client.find_triggers 0 toks) as [i|].
    - now destruct (isy_client.xml_DecodeElement W body i).
    - now destruct last. }
  revert Hreq. unfold isy_client.request.
  destruct (isy_client.formatRequest E W c _) as [[req'|err]|] eqn:Hf;
    try (intros H; now apply elem_of_nil in H).
  intros Hreq.
  assert (req = req') as ->.
  { destruct (isy_client.Do W req') as [resp|err]; simpl in Hreq.
    - destruct (negb _); [|destruct (isy_client.ReadAll resp)];
        now apply list_elem_of_singleton in Hreq.
    - now apply list_elem_of_singleton in Hreq. }
  apply formatRequest_inv in Hf as (action & body & u & Ha & _ & _ & ->).
  rewrite getAllD2DReq_action in Ha. injection Ha as <-.
  repeat apply conj; reflexivity.
Qed.

Lemma GetAllFunctions_call_witness :
  isy_client.Method isy_example.get_all_request = "POST" /\
  isy_client.BasicAuth isy_example.get_all_request = Some ("test", "test") /\
  isy_client.Header_ isy_example.get_all_request !! "Soapaction" =
    Some ["urn:udi-com:service:X_Insteon_Lighting_Service:1#GetAllD2D"].
Proof.
  refine (GetAllFunctions_call (example.env example.ok) isy_example.services
            isy_example.client_ isy_example.get_all_request _).
  rewrite example_GetAllFunctions. left.
Defined.
